(** * influx-proxy: routing and durability engine

    A shallow embedding of [backend/cluster.go] and [backend/backends.go]
    together with the properties stated about them.

    Conventions.
    - A Go [[]byte] is a [list ascii]; a Go [string] is a [string].
    - [int64] and [int32] values are integers of [Z]; every arithmetic
      operation of the source is followed by its two's complement wrap.
    - A Go [error] is a value of [error]; [nil] is [None].
    - A call that may raise a run-time panic returns an [outcome].
    - Calls on collaborators (backends, the spool, the upstream) are
      recorded, in program order, in a trace of events. *)

From Stdlib Require Import ZArith List Ascii String Lia Permutation Bool.
From stdpp Require Import base gmap strings list.

Local Open Scope Z_scope.

(** ** Go runtime and standard library *)

Module Go.

Abbreviation bytes := (list ascii).

(** [[]byte(s)] and [string(b)]. *)
Definition bytes_of (s : string) : bytes := list_ascii_of_string s.
Definition string_of (b : bytes) : string := string_of_list_ascii b.

(** The numeric value of a byte. *)
Definition byteZ (c : ascii) : Z := Z.of_N (N_of_ascii c).
Definition byte_of (z : Z) : ascii := ascii_of_N (Z.to_N (z mod 256)).

(** [a - b] on [uint8]. *)
Definition byte_sub (a b : ascii) : Z := (byteZ a - byteZ b) mod 256.

(** Two's complement wrap-around of signed [w]-bit integers. *)
Definition wrap (w : Z) (z : Z) : Z := (z + 2 ^ (w - 1)) mod 2 ^ w - 2 ^ (w - 1).
Definition wrap64 : Z -> Z := wrap 64.
Definition wrap32 : Z -> Z := wrap 32.

Definition min_int64 : Z := - 2 ^ 63.
Definition max_int64 : Z := 2 ^ 63 - 1.
Definition in_int64 (z : Z) : Prop := min_int64 <= z <= max_int64.

Definition add64 (a b : Z) : Z := wrap64 (a + b).
Definition mul64 (a b : Z) : Z := wrap64 (a * b).
(** Go's [/] on integers truncates toward zero. *)
Definition div64 (a b : Z) : Z := wrap64 (Z.quot a b).

(** The errors of the packages involved; Go compares them by identity. *)
Inductive error : Type :=
| io_EOF
| io_ErrClosedPipe
| io_ErrShortWrite
| ErrClosed
| ErrBackendNotExist
| ErrQueryForbidden
| ErrBadRequest
| ErrNotFound
| ErrUnknown
| ErrOther (msg : string).

(** The result of a call that can panic.  [Timeout] is the answer of a
    bounded loop of the model whose bound was too small; the lemmas
    [*_terminates] show that it is never returned. *)
Inductive outcome (A : Type) : Type :=
| Ret (a : A)
| Fail (e : error)
| Panic (msg : string)
| Timeout.
Arguments Ret {A} a.
Arguments Fail {A} e.
Arguments Panic {A} msg.
Arguments Timeout {A}.

(** [bytes.IndexByte(s, c) != -1]. *)
Definition contains_byte (s : bytes) (c : ascii) : bool :=
  existsb (Ascii.eqb c) s.

(** [bytes.TrimRight(s, cutset)]: [s] without its trailing bytes that
    belong to [cutset]. *)
Fixpoint drop_leading (cutset : bytes) (s : bytes) : bytes :=
  match s with
  | [] => []
  | c :: rest => if contains_byte cutset c then drop_leading cutset rest else s
  end.
Definition bytes_TrimRight (s : bytes) (cutset : string) : bytes :=
  rev (drop_leading (bytes_of cutset) (rev s)).

(** [bytes.Split(s, []byte{sep})] for a one-byte separator: the pieces
    between the occurrences of [sep]; [n] occurrences give [n + 1]
    pieces. *)
Fixpoint bytes_Split (s : bytes) (sep : ascii) : list bytes :=
  match s with
  | [] => [[]]
  | c :: rest =>
      if Ascii.eqb c sep then [] :: bytes_Split rest sep
      else match bytes_Split rest sep with
           | piece :: pieces => (c :: piece) :: pieces
           | [] => [[c]]
           end
  end.

(** [bytes.Join(pieces, sep)]. *)
Fixpoint bytes_Join (pieces : list bytes) (sep : bytes) : bytes :=
  match pieces with
  | [] => []
  | [piece] => piece
  | piece :: rest => piece ++ sep ++ bytes_Join rest sep
  end.

(** [strings.HasPrefix(s, prefix)]. *)
Definition strings_HasPrefix (s prefix : string) : bool := String.prefix prefix s.

(** [ReadBytes(delim)] of [bytes.Buffer]: the bytes up to and including the
    first [delim], the rest of the buffer, and [io.EOF] when the buffer
    ends before a [delim]. *)
Fixpoint ReadBytes (buf : bytes) (delim : ascii) : bytes * bytes * option error :=
  match buf with
  | [] => ([], [], Some io_EOF)
  | c :: rest =>
      if Ascii.eqb c delim then ([c], rest, None)
      else let '(line, rest', err) := ReadBytes rest delim in (c :: line, rest', err)
  end.

(** [models.GetPrecisionMultiplier] of the influxdb dependency: the number
    of nanoseconds in one unit of the precision ([time.Microsecond],
    [time.Millisecond], [time.Second], [time.Minute], [time.Hour]), and 1
    ([time.Nanosecond]) for ["ns"] and for any other string. *)
Definition models_GetPrecisionMultiplier (precision : string) : Z :=
  if String.eqb precision "u" then 1000
  else if String.eqb precision "ms" then 1000000
  else if String.eqb precision "s" then 1000000000
  else if String.eqb precision "m" then 60000000000
  else if String.eqb precision "h" then 3600000000000
  else 1.

(** [strconv.FormatInt(i, 10)]: the digits are produced from the least
    significant one, in front of those already produced; an [int64] has at
    most 19 of them. *)
Definition digit (d : Z) : ascii := byte_of (48 + d).

Fixpoint formatBits (fuel : nat) (u : Z) (a : bytes) : bytes :=
  match fuel with
  | O => a
  | S fuel' =>
      if u <? 10 then digit u :: a
      else formatBits fuel' (u / 10) (digit (u mod 10) :: a)
  end.

Definition strconv_FormatInt (i : Z) : bytes :=
  if i <? 0 then "-"%char :: formatBits 20 (- i) []
  else formatBits 20 i [].

End Go.
Export Go.


(** ** The backend interface

    [BackendAPI] is the interface through which the cluster talks to a
    destination.  The accessors read the backend's state at the time of the
    call; [Write] and [Query] give the error the call returns. *)

Module API.

Class BackendAPI (B : Type) : Type := {
  GetZone : B -> string;
  GetDB : B -> string;
  IsActive : B -> bool;
  IsWriteOnly : B -> bool;
  Write : B -> bytes -> option error;
  Query : B -> option error
}.

End API.

(** ** backend/backends.go *)

Module Backend.

(** Modelled from the spec: [HttpBackend], the client of one upstream
    (backend/http.go is not among the sources).  [IsActive], [IsWriteOnly],
    [GetZone] and [GetDB] are accessors of the fields below; [Query_answer]
    is the error with which the upstream answers a proxied query. *)
Record HttpBackend : Type := mkHttpBackend {
  DB : string;
  Zone : string;
  Active : bool;
  WriteOnly : bool;
  Query_answer : option error
}.

(** Modelled from the spec: [FileBackend], the spool of one backend
    (backend/file.go is not among the sources): a queue of records with a
    durable read offset [meta] and the reader's own offset [cursor].  [Read]
    returns the next record after [cursor], or [nil] when there is none;
    [UpdateMeta] commits [cursor]; [RollbackMeta] restores the committed
    offset; [IsData] tells whether a record is not yet committed as read. *)
Record FileBackend : Type := mkFileBackend {
  records : list bytes;
  meta : nat;
  cursor : nat
}.

Definition fb_Write (fb : FileBackend) (p : bytes) : FileBackend :=
  mkFileBackend (records fb ++ [p]) (meta fb) (cursor fb).
Definition fb_Read (fb : FileBackend) : FileBackend * option bytes :=
  match records fb !! cursor fb with
  | Some p => (mkFileBackend (records fb) (meta fb) (S (cursor fb)), Some p)
  | None => (fb, None)
  end.
Definition fb_UpdateMeta (fb : FileBackend) : FileBackend :=
  mkFileBackend (records fb) (cursor fb) (cursor fb).
Definition fb_RollbackMeta (fb : FileBackend) : FileBackend :=
  mkFileBackend (records fb) (meta fb) (meta fb).
Definition fb_IsData (fb : FileBackend) : bool :=
  (meta fb <? length (records fb))%nat.

(** What the surroundings answer during one step of the drainer: the health
    flag of the upstream, its answer to [WriteCompressed], and the I/O error,
    if any, of each spool operation. *)
Record Env : Type := mkEnv {
  env_IsActive : bool;
  env_WriteCompressed : bytes -> option error;
  env_Read : option error;
  env_UpdateMeta : option error;
  env_RollbackMeta : option error
}.

(** What a backend does, in program order. *)
Inductive event : Type :=
| GoFlush (p : bytes)
| ArmTimer (ms : Z)
| GoRewriteLoop
| SpoolRead
| SpoolUpdateMeta
| SpoolRollbackMeta
| HttpWriteCompressed (p : bytes) (err : option error)
| Sleep (ms : Z).

(** The fields of [Backends] that the worker and the drainer use.  [buffer]
    and [ch_timer] are [nil] when [None]; an armed [ch_timer] remembers the
    milliseconds it was armed for; [ch_write] holds the payloads sent and not
    yet received. *)
Record Backends : Type := mkBackends {
  http : HttpBackend;
  fb : FileBackend;
  Interval : Z;
  RewriteInterval : Z;
  MaxRowLimit : Z;
  running : bool;
  ch_write : list bytes;
  buffer : option bytes;
  ch_timer : option Z;
  write_counter : Z;
  rewriter_running : bool
}.

Definition set_fb (bs : Backends) (f : FileBackend) : Backends :=
  mkBackends (http bs) f (Interval bs) (RewriteInterval bs) (MaxRowLimit bs)
    (running bs) (ch_write bs) (buffer bs) (ch_timer bs) (write_counter bs)
    (rewriter_running bs).
Definition set_ch_write (bs : Backends) (q : list bytes) : Backends :=
  mkBackends (http bs) (fb bs) (Interval bs) (RewriteInterval bs) (MaxRowLimit bs)
    (running bs) q (buffer bs) (ch_timer bs) (write_counter bs)
    (rewriter_running bs).
Definition set_buffer (bs : Backends) (b : option bytes) : Backends :=
  mkBackends (http bs) (fb bs) (Interval bs) (RewriteInterval bs) (MaxRowLimit bs)
    (running bs) (ch_write bs) b (ch_timer bs) (write_counter bs)
    (rewriter_running bs).
Definition set_ch_timer (bs : Backends) (t : option Z) : Backends :=
  mkBackends (http bs) (fb bs) (Interval bs) (RewriteInterval bs) (MaxRowLimit bs)
    (running bs) (ch_write bs) (buffer bs) t (write_counter bs)
    (rewriter_running bs).
Definition set_write_counter (bs : Backends) (n : Z) : Backends :=
  mkBackends (http bs) (fb bs) (Interval bs) (RewriteInterval bs) (MaxRowLimit bs)
    (running bs) (ch_write bs) (buffer bs) (ch_timer bs) n
    (rewriter_running bs).
Definition set_rewriter_running (bs : Backends) (r : bool) : Backends :=
  mkBackends (http bs) (fb bs) (Interval bs) (RewriteInterval bs) (MaxRowLimit bs)
    (running bs) (ch_write bs) (buffer bs) (ch_timer bs) (write_counter bs) r.

(** [Write]: the payload goes to the worker unless the backend is closed. *)
Definition Write (bs : Backends) (p : bytes) : Backends * option error :=
  if negb (running bs) then (bs, Some io_ErrClosedPipe)
  else (set_ch_write bs (ch_write bs ++ [p]), None).

(** [Flush]: the buffer is handed to a detached task and reset. *)
Definition Flush (bs : Backends) : Backends * list event :=
  match buffer bs with
  | None => (bs, [])
  | Some p =>
      let bs := set_buffer bs None in
      let bs := set_ch_timer bs None in
      let bs := set_write_counter bs 0 in
      if (length p =? 0)%nat then (bs, []) else (bs, [GoFlush p])
  end.

(** [WriteBuffer].  [bytes.Buffer.Write] returns [len(p)] and a [nil] error,
    so the two error returns of the source are never taken;
    [p[len(p)-1]] panics when [p] is empty. *)
Definition WriteBuffer (bs : Backends) (p : bytes) : outcome (Backends * list event) :=
  let bs := set_write_counter bs (wrap32 (write_counter bs + 1)) in
  let bs := match buffer bs with
            | None => set_buffer bs (Some [])
            | Some _ => bs
            end in
  let bs := set_buffer bs (Some (default [] (buffer bs) ++ p)) in
  match p !! (length p - 1)%nat with
  | None => Panic "index out of range"
  | Some c =>
      let bs := if negb (Ascii.eqb c "010")
                then set_buffer bs (Some (default [] (buffer bs) ++ ["010"%char]))
                else bs in
      if write_counter bs >=? MaxRowLimit bs then Ret (Flush bs)
      else match ch_timer bs with
           | None => Ret (set_ch_timer bs (Some (Interval bs)), [ArmTimer (Interval bs)])
           | Some _ => Ret (bs, [])
           end
  end.

(** [Idle]: at most one drainer is started. *)
Definition Idle (bs : Backends) : Backends * list event :=
  if negb (rewriter_running bs) && fb_IsData (fb bs)
  then (set_rewriter_running bs true, [GoRewriteLoop])
  else (bs, []).

(** [Rewrite]: one record is read from the spool and written upstream.  The
    result is the value of the named result [err] at the return taken. *)
Definition Rewrite (env : Env) (bs : Backends) : Backends * list event * option error :=
  let '(fb', p, err) :=
    match env_Read env with
    | Some e => (fb bs, None, Some e)
    | None => let '(fb', p) := fb_Read (fb bs) in (fb', p, None)
    end in
  let bs := set_fb bs fb' in
  match err with
  | Some e => (bs, [SpoolRead], Some e)
  | None =>
      match p with
      | None => (bs, [SpoolRead], None)
      | Some p =>
          let err := env_WriteCompressed env p in
          let trace := [SpoolRead; HttpWriteCompressed p err] in
          match err with
          | None | Some ErrBadRequest | Some ErrNotFound =>
              match env_UpdateMeta env with
              | Some e => (bs, trace ++ [SpoolUpdateMeta], Some e)
              | None => (set_fb bs (fb_UpdateMeta (fb bs)), trace ++ [SpoolUpdateMeta], None)
              end
          | Some _ =>
              match env_RollbackMeta env with
              | Some e => (bs, trace ++ [SpoolRollbackMeta], Some e)
              | None =>
                  (set_fb bs (fb_RollbackMeta (fb bs)), trace ++ [SpoolRollbackMeta], None)
              end
          end
      end
  end.

(** One turn of the loop of [RewriteLoop], from the test [bs.fb.IsData()]
    to the next one; the boolean tells whether the loop goes on. *)
Definition RewriteLoop_step (env : Env) (bs : Backends) : Backends * list event * bool :=
  if negb (fb_IsData (fb bs)) then (set_rewriter_running bs false, [], false)
  else if negb (running bs) then (bs, [], false)
  else if negb (env_IsActive env) then (bs, [Sleep (RewriteInterval bs)], true)
  else
    let '(bs, trace, err) := Rewrite env bs in
    match err with
    | Some _ => (bs, trace ++ [Sleep (RewriteInterval bs)], true)
    | None => (bs, trace, true)
    end.

(** [RewriteLoop], run against the answers [envs] of the surroundings, one
    per turn, for as long as there are answers. *)
Fixpoint RewriteLoop (envs : list Env) (bs : Backends) : Backends * list event :=
  match envs with
  | [] => (bs, [])
  | env :: envs' =>
      let '(bs, trace, go_on) := RewriteLoop_step env bs in
      if go_on then
        let '(bs, trace') := RewriteLoop envs' bs in (bs, trace ++ trace')
      else (bs, trace)
  end.

(** [Backends] implements [BackendAPI]; the embedded [HttpBackend] provides
    the accessors and [Query]. *)
#[global] Instance Backends_BackendAPI : API.BackendAPI Backends := {
  API.GetZone bs := Zone (http bs);
  API.GetDB bs := DB (http bs);
  API.IsActive bs := Active (http bs);
  API.IsWriteOnly bs := WriteOnly (http bs);
  API.Write bs p := snd (Write bs p);
  API.Query bs := Query_answer (http bs)
}.

(** *** The write buffer *)

Section Buffering.

Implicit Types (bs : Backends) (p : bytes).

(** What [WriteBuffer] leaves in the buffer: what was there, the payload,
    and a newline unless the payload ends with one. *)
Definition buffered bs p (c : ascii) : bytes :=
  default [] (buffer bs) ++ p ++ (if Ascii.eqb c "010" then [] else ["010"%char]).

(** X3.  Buffering of a payload that has a last byte [c].  The payload is
    appended, followed by a newline exactly when [c] is not one, and the
    row counter is incremented; when the counter has reached [MaxRowLimit]
    the buffer is flushed at once, and otherwise a timer of [Interval]
    milliseconds is armed unless one is armed already. *)
Theorem WriteBuffer_nonempty bs p c :
  last p = Some c ->
  WriteBuffer bs p =
    Ret (if wrap32 (write_counter bs + 1) >=? MaxRowLimit bs then
           (mkBackends (http bs) (fb bs) (Interval bs) (RewriteInterval bs)
              (MaxRowLimit bs) (running bs) (ch_write bs) None None 0
              (rewriter_running bs),
            [GoFlush (buffered bs p c)])
         else
           match ch_timer bs with
           | None =>
               (mkBackends (http bs) (fb bs) (Interval bs) (RewriteInterval bs)
                  (MaxRowLimit bs) (running bs) (ch_write bs)
                  (Some (buffered bs p c)) (Some (Interval bs))
                  (wrap32 (write_counter bs + 1)) (rewriter_running bs),
                [ArmTimer (Interval bs)])
           | Some t =>
               (mkBackends (http bs) (fb bs) (Interval bs) (RewriteInterval bs)
                  (MaxRowLimit bs) (running bs) (ch_write bs)
                  (Some (buffered bs p c)) (Some t)
                  (wrap32 (write_counter bs + 1)) (rewriter_running bs),
                [])
           end).
Proof.
  intros Hlast. assert (Hp : p <> []) by (intros ->; discriminate Hlast).
  rewrite last_lookup in Hlast.
  unfold WriteBuffer, buffered.
  replace (length p - 1)%nat with (pred (length p)) by lia. rewrite Hlast.
  destruct bs as [h f i r m run q buf t n rr].
  destruct buf as [buf|]; cbn;
    destruct (Ascii.eqb c "010"); cbn;
    destruct (wrap32 (n + 1) >=? m); cbn;
    rewrite ?app_nil_r, <- ?app_assoc;
    try (destruct t; reflexivity).
  all: unfold Flush; cbn.
  all: match goal with
       | |- context [(length ?l =? 0)%nat] =>
           replace (length l =? 0)%nat with false; [reflexivity|]
       end.
  all: symmetry; apply Nat.eqb_neq; rewrite ?length_app; destruct p; [congruence | cbn; lia].
Qed.

(** An empty payload makes [WriteBuffer] panic on [p[len(p)-1]]. *)
Lemma WriteBuffer_empty bs : WriteBuffer bs [] = Panic "index out of range".
Proof. reflexivity. Qed.

End Buffering.

(** *** The drainer *)

Section Draining.

Implicit Types (bs : Backends) (env : Env).

(** The answers of the upstream after which a record is done: it was
    acknowledged, or it is dropped for good. *)
Definition terminal (answer : option error) : bool :=
  match answer with
  | None | Some ErrBadRequest | Some ErrNotFound => true
  | Some _ => false
  end.

(** X4.  [Rewrite] commits the read offset exactly after a terminal answer
    of the upstream to the record it read, and restores it after any other
    answer; when nothing was read, the offset is left alone. *)
Theorem Rewrite_trace env bs :
  snd (fst (Rewrite env bs)) =
    match env_Read env, snd (fb_Read (fb bs)) with
    | None, Some p =>
        [SpoolRead; HttpWriteCompressed p (env_WriteCompressed env p);
         if terminal (env_WriteCompressed env p) then SpoolUpdateMeta
         else SpoolRollbackMeta]
    | _, _ => [SpoolRead]
    end.
Proof.
  unfold Rewrite, fb_Read.
  destruct (env_Read env); [reflexivity|].
  destruct (records (fb bs) !! cursor (fb bs)) as [p|]; [|reflexivity]. cbn.
  destruct (env_WriteCompressed env p) as [[]|]; cbn;
    try (destruct (env_UpdateMeta env); reflexivity);
    destruct (env_RollbackMeta env); reflexivity.
Qed.

(** The durable read offset moves only with a terminal answer. *)
Lemma Rewrite_meta env bs :
  meta (fb (fst (fst (Rewrite env bs)))) <> meta (fb bs) ->
  exists p, snd (fb_Read (fb bs)) = Some p
            /\ terminal (env_WriteCompressed env p) = true.
Proof.
  unfold Rewrite, fb_Read.
  destruct (env_Read env); [cbn; congruence|].
  destruct (records (fb bs) !! cursor (fb bs)) as [p|]; [|cbn; congruence]. cbn.
  intros Hmeta. exists p. split; [reflexivity|].
  destruct (env_WriteCompressed env p) as [[]|]; cbn in *; try reflexivity;
    destruct (env_RollbackMeta env); cbn in Hmeta; congruence.
Qed.

(** After an answer that is not terminal, [Rewrite] returns what
    [RollbackMeta] returned, not the error of the upstream. *)
Lemma Rewrite_transient_result env bs p :
  env_Read env = None -> snd (fb_Read (fb bs)) = Some p ->
  terminal (env_WriteCompressed env p) = false ->
  snd (Rewrite env bs) = env_RollbackMeta env.
Proof.
  unfold Rewrite, fb_Read. intros -> Hread Hterm.
  destruct (records (fb bs) !! cursor (fb bs)) as [p'|]; [|discriminate].
  cbn in Hread. inversion Hread; subst p'. cbn.
  destruct (env_WriteCompressed env p) as [[]|]; try discriminate;
    destruct (env_RollbackMeta env); reflexivity.
Qed.

End Draining.

End Backend.

(** ** backend/cluster.go *)

Module Cluster.

(** The bytes of the cut set [" \t\r\n"]. *)
Definition blanks : string :=
  String " " (String "009" (String "013" (String "010" EmptyString))).

(** [ScanKey]: the loop over [pointbuf], with the index [i] and the slice
    [keyslice] as the source has them.  [pointbuf[i]] on an index that is
    not in the slice panics.  [fuel] bounds the iterations left. *)
Fixpoint ScanKey_loop (fuel : nat) (pointbuf : bytes) (i : nat) (keyslice : bytes)
  : outcome string :=
  if negb (i <? length pointbuf)%nat then Fail io_EOF
  else
    match fuel with
    | O => Timeout
    | S fuel' =>
        match pointbuf !! i with
        | None => Panic "index out of range"
        | Some c =>
            if Ascii.eqb c "\" then
              (* i++; keyslice = append(keyslice, pointbuf[i]) *)
              match pointbuf !! (i + 1)%nat with
              | None => Panic "index out of range"
              | Some c' => ScanKey_loop fuel' pointbuf (i + 1 + 1)%nat (keyslice ++ [c'])
              end
            else if Ascii.eqb c " " || Ascii.eqb c "," then
              Ret (string_of keyslice)
            else ScanKey_loop fuel' pointbuf (i + 1)%nat (keyslice ++ [c])
        end
    end.

Definition ScanKey (pointbuf : bytes) : outcome string :=
  ScanKey_loop (length pointbuf) pointbuf 0 [].

Definition Int64ToBytes (i : Z) : bytes := strconv_FormatInt i.

(** [BytesToInt64]: [ans = ans*10 + int64(buf[i]-'0')] for each byte, the
    subtraction on [uint8] and the rest on [int64]. *)
Definition BytesToInt64 (buf : bytes) : Z :=
  fold_left (fun ans c => add64 (mul64 ans 10) (byte_sub c "0")) buf 0.

(** The counters of [Statistics] that the functions below update.  The two
    durations are wall-clock measurements and the ping counters belong to
    [Ping]; they are left out. *)
Record Statistics : Type := mkStatistics {
  QueryRequests : Z;
  QueryRequestsFail : Z;
  WriteRequests : Z;
  WriteRequestsFail : Z;
  PointsWritten : Z;
  PointsWrittenFail : Z
}.

Definition add_QueryRequests (s : Statistics) : Statistics :=
  mkStatistics (add64 (QueryRequests s) 1) (QueryRequestsFail s) (WriteRequests s)
    (WriteRequestsFail s) (PointsWritten s) (PointsWrittenFail s).
Definition add_QueryRequestsFail (s : Statistics) : Statistics :=
  mkStatistics (QueryRequests s) (add64 (QueryRequestsFail s) 1) (WriteRequests s)
    (WriteRequestsFail s) (PointsWritten s) (PointsWrittenFail s).
Definition add_WriteRequests (s : Statistics) : Statistics :=
  mkStatistics (QueryRequests s) (QueryRequestsFail s) (add64 (WriteRequests s) 1)
    (WriteRequestsFail s) (PointsWritten s) (PointsWrittenFail s).
Definition add_WriteRequestsFail (s : Statistics) : Statistics :=
  mkStatistics (QueryRequests s) (QueryRequestsFail s) (WriteRequests s)
    (add64 (WriteRequestsFail s) 1) (PointsWritten s) (PointsWrittenFail s).
Definition add_PointsWritten (s : Statistics) : Statistics :=
  mkStatistics (QueryRequests s) (QueryRequestsFail s) (WriteRequests s)
    (WriteRequestsFail s) (add64 (PointsWritten s) 1) (PointsWrittenFail s).
Definition add_PointsWrittenFail (s : Statistics) : Statistics :=
  mkStatistics (QueryRequests s) (QueryRequestsFail s) (WriteRequests s)
    (WriteRequestsFail s) (PointsWritten s) (add64 (PointsWrittenFail s) 1).

Section InfluxCluster.

Context {B : Type} `{API.BackendAPI B}.
Context {Regexp : Type}.

(** [MatchString] of [regexp.Regexp] is taken as given. *)
Variable MatchString : Regexp -> string -> bool.

(** The order in which [for k, v := range keyMap] visits a map: Go leaves
    it unspecified, so it is a parameter, constrained only to visit every
    entry of the map once. *)
Variable range : gmap string (list B) -> list (string * list B).
Hypothesis range_entries : forall keyMap, range keyMap ≡ₚ map_to_list keyMap.

(** The successive readings of [time.Now().UnixNano()]. *)
Variable UnixNano : nat -> Z.

(** What the cluster does to its collaborators, in program order. *)
Inductive event : Type :=
| BackendWrite (b : B) (p : bytes) (err : option error)
| BackendQuery (b : B) (err : option error)
| WriteHeader (code : Z)
| ResponseWrite (body : string).

(** The mutable surroundings of a request: the live counters, the calls
    made so far and the number of clock readings taken. *)
Record World : Type := mkWorld {
  stats : Statistics;
  calls : list event;
  clock : nat
}.

Definition count (f : Statistics -> Statistics) (w : World) : World :=
  mkWorld (f (stats w)) (calls w) (clock w).
Definition emit (e : event) (w : World) : World :=
  mkWorld (stats w) (calls w ++ [e]) (clock w).
Definition tick (w : World) : World :=
  mkWorld (stats w) (calls w) (S (clock w)).

(** The fields of [InfluxCluster] that routing, policy and dispatch read. *)
Record InfluxCluster : Type := mkInfluxCluster {
  Zone : string;
  ForbiddenQuery : list Regexp;
  ObligatedQuery : list Regexp;
  bas : list B;
  m2bs : gmap string (gmap string (list B))
}.

Definition CheckQuery (ic : InfluxCluster) (q : string) : option error :=
  if negb (length (ForbiddenQuery ic) =? 0)%nat
     && existsb (fun fq => MatchString fq q) (ForbiddenQuery ic)
  then Some ErrQueryForbidden
  else if negb (length (ObligatedQuery ic) =? 0)%nat then
    if existsb (fun pq => MatchString pq q) (ObligatedQuery ic) then None
    else Some ErrQueryForbidden
  else None.

(** The prefix scan of [GetBackends]: the first visited key that is a
    prefix of the measurement wins and ends the loop. *)
Fixpoint prefix_scan (measurement : string) (entries : list (string * list B))
    (backends : list B) (measurementExist : bool) : list B * bool :=
  match entries with
  | [] => (backends, measurementExist)
  | (k, v) :: rest =>
      if strings_HasPrefix measurement k then (v, true)
      else prefix_scan measurement rest backends measurementExist
  end.

Definition GetBackends (ic : InfluxCluster) (measurement db : string) : list B * bool :=
  match m2bs ic !! db with
  | None => ([], false)
  | Some keyMap =>
      let '(backends, measurementExist) :=
        match keyMap !! measurement with
        | Some v => (v, true)
        | None => ([], false)
        end in
      let '(backends, measurementExist) :=
        if negb measurementExist
        then prefix_scan measurement (range keyMap) backends measurementExist
        else (backends, measurementExist) in
      let '(backends, measurementExist) :=
        if negb measurementExist then
          match keyMap !! "_default_"%string with
          | Some v => (v, true)
          | None => ([], false)
          end
        else (backends, measurementExist) in
      if negb measurementExist then (backends, false) else (backends, true)
  end.

(** The body ["query error\n"] of the last answer of [Query]. *)
Definition query_error : string := String.append "query error" (String "010" EmptyString).

(** The two selection passes that end [Query] (cluster.go:465-494), run on
    the backends [apis] that [GetBackends] returned: a pass stops at the first
    backend whose [Query] returns [nil].  The result tells whether the pass
    returned from [Query], with the value of [err]. *)
Fixpoint Query_local_zone (ic : InfluxCluster) (apis : list B) (err : option error)
    (w : World) : World * option error * bool :=
  match apis with
  | [] => (w, err, false)
  | api :: rest =>
      if negb (String.eqb (API.GetZone api) (Zone ic)) then Query_local_zone ic rest err w
      else if negb (API.IsActive api) || API.IsWriteOnly api then
        Query_local_zone ic rest err w
      else
        let err := API.Query api in
        let w := emit (BackendQuery api err) w in
        match err with
        | None => (w, err, true)
        | Some _ => Query_local_zone ic rest err w
        end
  end.

Fixpoint Query_other_zone (ic : InfluxCluster) (apis : list B) (err : option error)
    (w : World) : World * option error * bool :=
  match apis with
  | [] => (w, err, false)
  | api :: rest =>
      if String.eqb (API.GetZone api) (Zone ic) then Query_other_zone ic rest err w
      else if negb (API.IsActive api) then Query_other_zone ic rest err w
      else
        let err := API.Query api in
        let w := emit (BackendQuery api err) w in
        match err with
        | None => (w, err, true)
        | Some _ => Query_other_zone ic rest err w
        end
  end.

Definition Query_dispatch (ic : InfluxCluster) (apis : list B) (w : World)
  : World * option error :=
  let '(w, err, returned) := Query_local_zone ic apis None w in
  if returned then (w, err)
  else
    let '(w, err, returned) := Query_other_zone ic apis err w in
    if returned then (w, err)
    else
      let w := emit (WriteHeader 400) w in
      let w := emit (ResponseWrite query_error) w in
      (count add_QueryRequestsFail w, err).

(** The timestamp rewriting of [WriteRow] (cluster.go:536-555): from the
    trimmed line, the line handed to the backends and whether the clock was
    read. *)
Definition WriteRow_rewrite (line : bytes) (precision : string) (now : Z)
  : bytes * bool :=
  let lines := bytes_Split line " " in
  let length := List.length lines in
  let d := models_GetPrecisionMultiplier precision in
  let '(buf, nano, read_clock) :=
    if (List.length lines =? 2)%nat then
      let nano := now in
      let nano := mul64 (div64 nano d) d in
      (line ++ bytes_of " ", nano, true)
    else if (List.length lines =? 3)%nat then
      let nano := BytesToInt64 (List.last lines []) in
      let nano := mul64 (div64 nano d) d in
      let res := bytes_Join (firstn (length - 1) lines) (bytes_of " ") in
      (res ++ bytes_of " ", nano, false)
    else ([], 0, false) in
  (buf ++ Int64ToBytes nano, read_clock).

(** [for _, b := range bs { err = b.Write(line); if err != nil {...; return} }] *)
Fixpoint WriteRow_send (bs : list B) (line : bytes) (w : World) : World :=
  match bs with
  | [] => w
  | b :: rest =>
      let err := API.Write b line in
      let w := emit (BackendWrite b line err) w in
      match err with
      | Some _ => count add_PointsWrittenFail w
      | None => WriteRow_send rest line w
      end
  end.

Definition WriteRow (ic : InfluxCluster) (line : bytes) (precision db : string)
    (w : World) : outcome World :=
  let w := count add_PointsWritten w in
  let line := bytes_TrimRight line blanks in
  if (length line =? 0)%nat then Ret w
  else
    match ScanKey line with
    | Ret key =>
        let '(bs, ok) := GetBackends ic key db in
        if negb ok then Ret (count add_PointsWrittenFail w)
        else
          let '(line, read_clock) :=
            WriteRow_rewrite line precision (UnixNano (clock w)) in
          let w := if read_clock then tick w else w in
          Ret (WriteRow_send bs line w)
    | Fail _ => Ret (count add_PointsWrittenFail w)
    | Panic msg => Panic msg
    | Timeout => Timeout
    end.

(** The line loop of [Write]: [buf.ReadBytes('\n')] until it returns no
    byte.  An error other than [io.EOF] would end [Write] with that error;
    [fuel] bounds the iterations left. *)
Fixpoint Write_lines (fuel : nat) (ic : InfluxCluster) (buf : bytes)
    (precision db : string) (w : World) : outcome (World * option error) :=
  let '(line, buf', err) := ReadBytes buf "010" in
  match err with
  | Some ((io_ErrClosedPipe | io_ErrShortWrite | ErrClosed | ErrBackendNotExist
          | ErrQueryForbidden | ErrBadRequest | ErrNotFound | ErrUnknown
          | ErrOther _) as e) =>
      Ret (count add_WriteRequestsFail w, Some e)
  | Some io_EOF | None =>
      if (length line =? 0)%nat then Ret (w, None)
      else
        match fuel with
        | O => Timeout
        | S fuel' =>
            match WriteRow ic line precision db w with
            | Ret w' => Write_lines fuel' ic buf' precision db w'
            | Fail e => Fail e
            | Panic msg => Panic msg
            | Timeout => Timeout
            end
        end
  end.

(** [for _, n := range ic.bas { err = n.Write(p); ... }] *)
Fixpoint Write_nexts (nexts : list B) (p : bytes) (err : option error) (w : World)
  : World * option error :=
  match nexts with
  | [] => (w, err)
  | n :: rest =>
      let err := API.Write n p in
      let w := emit (BackendWrite n p err) w in
      let w := match err with
               | Some _ => count add_WriteRequestsFail w
               | None => w
               end in
      Write_nexts rest p err w
  end.

Definition Write (ic : InfluxCluster) (p : bytes) (precision db : string) (w : World)
  : outcome (World * option error) :=
  let w := count add_WriteRequests w in
  match Write_lines (length p) ic p precision db w with
  | Ret (w, Some e) => Ret (w, Some e)
  | Ret (w, None) =>
      if (0 <? length (bas ic))%nat then Ret (Write_nexts (bas ic) p None w)
      else Ret (w, None)
  | Fail e => Fail e
  | Panic msg => Panic msg
  | Timeout => Timeout
  end.

End InfluxCluster.

(** *** Integers and their decimal form *)

Section Numbers.

Lemma wrap64_small z : in_int64 z -> wrap64 z = z.
Proof.
  unfold in_int64, min_int64, max_int64, wrap64, wrap. intros Hz.
  rewrite Z.mod_small; lia.
Qed.

Lemma wrap64_range z : in_int64 (wrap64 z).
Proof.
  unfold in_int64, min_int64, max_int64, wrap64, wrap.
  pose proof (Z.mod_pos_bound (z + 2 ^ (64 - 1)) (2 ^ 64) eq_refl). lia.
Qed.

(** Two integers wrap to the same [int64] when they differ by a multiple
    of [2^64]. *)
Lemma wrap64_congr a b k : a = b + k * 2 ^ 64 -> wrap64 a = wrap64 b.
Proof.
  intros ->. unfold wrap64, wrap. f_equal.
  replace (b + k * 2 ^ 64 + 2 ^ (64 - 1)) with (b + 2 ^ (64 - 1) + k * 2 ^ 64) by ring.
  apply Z_mod_plus_full.
Qed.

Lemma wrap64_unfold z : exists k, wrap64 z = z + k * 2 ^ 64.
Proof.
  exists (- ((z + 2 ^ (64 - 1)) / 2 ^ 64)). unfold wrap64, wrap.
  pose proof (Z_div_mod_eq_full (z + 2 ^ (64 - 1)) (2 ^ 64)). lia.
Qed.

Lemma wrap64_add_l a b : wrap64 (wrap64 a + b) = wrap64 (a + b).
Proof.
  destruct (wrap64_unfold a) as [k Hk]. apply (wrap64_congr _ _ k). lia.
Qed.

Lemma wrap64_mul_l a b : wrap64 (wrap64 a * b) = wrap64 (a * b).
Proof.
  destruct (wrap64_unfold a) as [k Hk]. apply (wrap64_congr _ _ (k * b)). lia.
Qed.

(** The value a digit string denotes after the digits already read, before
    any wrap. *)
Definition decimal_value (buf : bytes) (acc : Z) : Z :=
  fold_left (fun ans c => ans * 10 + byte_sub c "0") buf acc.

Lemma BytesToInt64_fold buf : forall acc,
  fold_left (fun ans c => add64 (mul64 ans 10) (byte_sub c "0")) buf (wrap64 acc)
  = wrap64 (decimal_value buf acc).
Proof.
  induction buf as [|c buf IH]; intros acc; [reflexivity|].
  unfold decimal_value. cbn [fold_left].
  fold (decimal_value buf (acc * 10 + byte_sub c "0")).
  rewrite <- IH. f_equal. unfold add64, mul64.
  rewrite wrap64_add_l.
  destruct (wrap64_unfold acc) as [k Hk]. apply (wrap64_congr _ _ (k * 10)). lia.
Qed.

Lemma BytesToInt64_value buf : BytesToInt64 buf = wrap64 (decimal_value buf 0).
Proof. unfold BytesToInt64. rewrite <- BytesToInt64_fold. reflexivity. Qed.

Lemma decimal_value_app ds ds' acc :
  decimal_value (ds ++ ds') acc = decimal_value ds' (decimal_value ds acc).
Proof. unfold decimal_value. apply fold_left_app. Qed.

Definition pow10 (n : nat) : Z := 10 ^ Z.of_nat n.

Lemma pow10_S n : pow10 (S n) = 10 * pow10 n.
Proof. unfold pow10. rewrite Nat2Z.inj_succ, Z.pow_succ_r; lia. Qed.

Lemma pow10_pos n : 0 < pow10 n.
Proof. unfold pow10. apply Z.pow_pos_nonneg; lia. Qed.

Lemma byte_sub_digit d : 0 <= d < 10 -> byte_sub (digit d) "0" = d.
Proof.
  intros Hd.
  assert (Hcases : d = 0 \/ d = 1 \/ d = 2 \/ d = 3 \/ d = 4 \/ d = 5 \/ d = 6
                   \/ d = 7 \/ d = 8 \/ d = 9) by lia.
  repeat (destruct Hcases as [-> | Hcases]; [reflexivity|]). subst d. reflexivity.
Qed.

Lemma digit_is_digit d : 0 <= d < 10 -> 48 <= byteZ (digit d) <= 57.
Proof.
  intros Hd.
  assert (Hcases : d = 0 \/ d = 1 \/ d = 2 \/ d = 3 \/ d = 4 \/ d = 5 \/ d = 6
                   \/ d = 7 \/ d = 8 \/ d = 9) by lia.
  repeat (destruct Hcases as [-> | Hcases]; [vm_compute; split; discriminate|]).
  subst d. vm_compute; split; discriminate.
Qed.

(** [formatBits] puts in front of [a] the decimal digits of [u], most
    significant first and without a leading zero. *)
Lemma formatBits_digits fuel : forall u a,
  0 <= u < pow10 fuel -> (0 < fuel)%nat ->
  exists ds,
    formatBits fuel u a = ds ++ a
    /\ (forall acc, decimal_value ds acc = acc * pow10 (length ds) + u)
    /\ u < pow10 (length ds)
    /\ (length ds = 1%nat \/ pow10 (length ds - 1) <= u)
    /\ (0 < length ds <= fuel)%nat
    /\ Forall (fun c => 48 <= byteZ c <= 57) ds.
Proof.
  induction fuel as [|fuel IH]; intros u a Hu Hfuel; [lia|].
  simpl. destruct (u <? 10) eqn:Hlt.
  - apply Z.ltb_lt in Hlt. exists [digit u]. simpl.
    split; [reflexivity|]. split; [|split; [|split; [|split]]].
    + intros acc. unfold decimal_value. simpl. rewrite byte_sub_digit by lia.
      change (pow10 1) with 10. lia.
    + change (pow10 1) with 10. lia.
    + left. reflexivity.
    + lia.
    + constructor; [apply digit_is_digit; lia | constructor].
  - apply Z.ltb_ge in Hlt. rewrite pow10_S in Hu.
    assert (Hfuel' : (0 < fuel)%nat).
    { destruct fuel; [change (pow10 0) with 1 in Hu; lia | lia]. }
    pose proof (Z.mod_pos_bound u 10 eq_refl) as Hmod.
    pose proof (Z_div_mod_eq_full u 10) as Hdiv.
    destruct (IH (u / 10) (digit (u mod 10) :: a)) as (ds & Heq & Hval & Hub & Hlb & Hlen & Hall);
      [lia | lia |].
    exists (ds ++ [digit (u mod 10)]).
    rewrite length_app. simpl length.
    replace (length ds + 1)%nat with (S (length ds)) by lia.
    rewrite pow10_S.
    split; [|split; [|split; [|split; [|split]]]].
    + rewrite Heq, <- app_assoc. reflexivity.
    + intros acc. rewrite decimal_value_app, Hval. unfold decimal_value at 1. simpl.
      rewrite byte_sub_digit by lia. lia.
    + lia.
    + right. replace (S (length ds) - 1)%nat with (length ds) by lia.
      destruct Hlb as [Hone | Hlb].
      * rewrite Hone. change (pow10 1) with 10. lia.
      * destruct (length ds) as [|n] eqn:Hn; [lia|].
        replace (S n - 1)%nat with n in Hlb by lia. rewrite pow10_S. lia.
    + lia.
    + apply Forall_app. split; [exact Hall|].
      constructor; [apply digit_is_digit; lia | constructor].
Qed.

Lemma pow10_20 : pow10 20 = 100000000000000000000.
Proof. reflexivity. Qed.

(** On a non-negative [int64] the two conversions are inverse. *)
Lemma BytesToInt64_Int64ToBytes_nonneg i :
  0 <= i <= max_int64 -> BytesToInt64 (Int64ToBytes i) = i.
Proof.
  unfold max_int64. intros Hi. unfold Int64ToBytes, strconv_FormatInt.
  destruct (i <? 0) eqn:Hneg; [apply Z.ltb_lt in Hneg; lia|].
  destruct (formatBits_digits 20 i []) as (ds & Heq & Hval & _);
    [rewrite pow10_20; lia | lia |].
  rewrite Heq, app_nil_r, BytesToInt64_value, Hval.
  apply wrap64_small. unfold in_int64, min_int64, max_int64. lia.
Qed.

(** Of a negative [int64] the sign is read as the digit [253], in front of
    the [n] digits of the magnitude. *)
Lemma BytesToInt64_Int64ToBytes_neg i :
  min_int64 <= i < 0 ->
  exists n, (0 < n <= 20)%nat
    /\ (n = 1%nat \/ pow10 (n - 1) <= - i) /\ - i < pow10 n
    /\ BytesToInt64 (Int64ToBytes i) = wrap64 (253 * pow10 n + - i).
Proof.
  unfold min_int64. intros Hi. unfold Int64ToBytes, strconv_FormatInt.
  destruct (i <? 0) eqn:Hneg; [|apply Z.ltb_ge in Hneg; lia].
  destruct (formatBits_digits 20 (- i) []) as (ds & Heq & Hval & Hub & Hlb & Hlen & _);
    [rewrite pow10_20; lia | lia |].
  exists (length ds). repeat (split; [assumption || lia|]).
  rewrite Heq, app_nil_r, BytesToInt64_value.
  unfold decimal_value. cbn [fold_left]. fold (decimal_value ds (0 * 10 + byte_sub "-" "0")).
  rewrite Hval. reflexivity.
Qed.

Ltac eval_pow10 :=
  repeat match goal with
         | H : context [pow10 ?n] |- _ =>
             let v := eval vm_compute in (pow10 n) in change (pow10 n) with v in H
         end.

(** The only negative [int64] that the round trip gives back. *)
Definition lucky_negative : Z := -7825341085959061504.

Lemma roundtrip_neg_fixed i :
  min_int64 <= i < 0 -> BytesToInt64 (Int64ToBytes i) = i -> i = lucky_negative.
Proof.
  intros Hi Hrt.
  destruct (BytesToInt64_Int64ToBytes_neg i Hi) as (n & Hn & Hlb & Hub & Heq).
  rewrite Hrt in Heq.
  destruct (wrap64_unfold (253 * pow10 n + - i)) as [k Hk].
  rewrite <- Heq in Hk. unfold min_int64 in Hi. unfold lucky_negative.
  change (2 ^ 64) with 18446744073709551616 in Hk.
  change (2 ^ 63) with 9223372036854775808 in Hi.
  assert (Hcases : (n = 1 \/ n = 2 \/ n = 3 \/ n = 4 \/ n = 5 \/ n = 6 \/ n = 7
                    \/ n = 8 \/ n = 9 \/ n = 10 \/ n = 11 \/ n = 12 \/ n = 13
                    \/ n = 14 \/ n = 15 \/ n = 16 \/ n = 17 \/ n = 18 \/ n = 19
                    \/ n = 20)%nat) by lia.
  repeat (destruct Hcases as [-> | Hcases];
          [destruct Hlb as [Hone | Hlb]; [try discriminate Hone|]; eval_pow10; lia|]).
  subst n. destruct Hlb as [Hone | Hlb]; [discriminate Hone|]. eval_pow10. lia.
Qed.

End Numbers.

(** *** Query policy *)

Section Policy.

Context {B Regexp : Type} (MatchString : Regexp -> string -> bool).
Implicit Types (ic : @InfluxCluster B Regexp) (q : string).

(** [q] matches some regular expression of the denylist, of the allowlist. *)
Definition denied ic q : Prop :=
  exists fq, In fq (ForbiddenQuery ic) /\ MatchString fq q = true.
Definition allowed ic q : Prop :=
  exists pq, In pq (ObligatedQuery ic) /\ MatchString pq q = true.

Lemma CheckQuery_denied ic q :
  denied ic q -> CheckQuery MatchString ic q = Some ErrQueryForbidden.
Proof.
  intros (fq & Hin & Hm). unfold CheckQuery.
  assert (Hex : existsb (fun fq => MatchString fq q) (ForbiddenQuery ic) = true)
    by (apply existsb_exists; eauto).
  rewrite Hex. destruct (ForbiddenQuery ic); [destruct Hin | reflexivity].
Qed.

Lemma CheckQuery_not_denied ic q :
  ~ denied ic q ->
  CheckQuery MatchString ic q =
    match ObligatedQuery ic with
    | [] => None
    | _ => if existsb (fun pq => MatchString pq q) (ObligatedQuery ic)
           then None else Some ErrQueryForbidden
    end.
Proof.
  intros Hnot. unfold CheckQuery.
  destruct (existsb (fun fq => MatchString fq q) (ForbiddenQuery ic)) eqn:Hex.
  - exfalso. apply Hnot. apply existsb_exists in Hex. exact Hex.
  - rewrite andb_false_r. destruct (ObligatedQuery ic); reflexivity.
Qed.

(** C2.  A query that matches the denylist is refused with
    [ErrQueryForbidden], whatever the allowlist says; a query that does not
    is accepted exactly when the allowlist is empty or matches it.  So
    [CheckQuery] returns [nil] if and only if the query is not denied and
    the allowlist is empty or allows it, and its only error is
    [ErrQueryForbidden]. *)
Theorem CheckQuery_policy ic q :
  (denied ic q -> CheckQuery MatchString ic q = Some ErrQueryForbidden)
  /\ (~ denied ic q ->
      (CheckQuery MatchString ic q = None <-> ObligatedQuery ic = [] \/ allowed ic q))
  /\ (CheckQuery MatchString ic q = None
      <-> ~ denied ic q /\ (ObligatedQuery ic = [] \/ allowed ic q))
  /\ (CheckQuery MatchString ic q = None
      \/ CheckQuery MatchString ic q = Some ErrQueryForbidden).
Proof.
  assert (Hallow : ~ denied ic q ->
            (CheckQuery MatchString ic q = None
             <-> ObligatedQuery ic = [] \/ allowed ic q)).
  { intros Hnot. rewrite (CheckQuery_not_denied ic q Hnot). unfold allowed.
    destruct (ObligatedQuery ic) as [|pq pqs] eqn:Hob; [tauto|].
    destruct (existsb (fun pq => MatchString pq q) (pq :: pqs)) eqn:Hex.
    - apply existsb_exists in Hex. tauto.
    - split; [discriminate|]. intros [Hnil | Hal]; [discriminate|].
      apply existsb_exists in Hal. congruence. }
  split; [apply CheckQuery_denied|]. split; [exact Hallow|]. split.
  - split.
    + intros Hnil.
      assert (Hnot : ~ denied ic q).
      { intros Hd. rewrite (CheckQuery_denied ic q Hd) in Hnil. discriminate. }
      split; [exact Hnot | apply Hallow; assumption].
    + intros [Hnot Hal]. apply Hallow; assumption.
  - unfold CheckQuery.
    repeat match goal with |- context [if ?c then _ else _] => destruct c end; auto.
Qed.

End Policy.

(** *** Routing *)

Section Routing.

Context {B Regexp : Type}.
Variable range : gmap string (list B) -> list (string * list B).
Hypothesis range_entries : forall keyMap, range keyMap ≡ₚ map_to_list keyMap.
Implicit Types (ic : @InfluxCluster B Regexp) (keyMap : gmap string (list B)).

Lemma range_lookup keyMap k v : In (k, v) (range keyMap) <-> keyMap !! k = Some v.
Proof.
  rewrite <- list_elem_of_In, (range_entries keyMap). apply elem_of_map_to_list.
Qed.

Lemma prefix_scan_hit measurement (entries : list (string * list B)) backends exist :
  (exists k v, In (k, v) entries /\ strings_HasPrefix measurement k = true) ->
  exists k v, In (k, v) entries /\ strings_HasPrefix measurement k = true
              /\ prefix_scan measurement entries backends exist = (v, true).
Proof.
  induction entries as [|[k0 v0] rest IH]; intros (k & v & Hin & Hp); [destruct Hin|].
  simpl. destruct (strings_HasPrefix measurement k0) eqn:Hk0.
  - exists k0, v0. auto.
  - destruct Hin as [Heq | Hin]; [congruence|].
    destruct IH as (k' & v' & Hin' & Hp' & Hscan); [eauto|].
    exists k', v'. auto.
Qed.

Lemma prefix_scan_miss measurement (entries : list (string * list B)) backends exist :
  (forall k v, In (k, v) entries -> strings_HasPrefix measurement k = false) ->
  prefix_scan measurement entries backends exist = (backends, exist).
Proof.
  induction entries as [|[k0 v0] rest IH]; intros Hnone; [reflexivity|].
  simpl. rewrite (Hnone k0 v0) by (left; reflexivity).
  apply IH. intros k v Hin. apply (Hnone k v). right. exact Hin.
Qed.

(** C1.  [GetBackends] fails when the database has no table.  Otherwise it
    answers with the backends of the exact key; failing that, with those of
    some key of the table that is a prefix of the measurement; failing that,
    with those of ["_default_"]; and failing that, it answers [ok = false]
    with no backend. *)
Theorem GetBackends_resolution_order ic measurement db :
  match m2bs ic !! db with
  | None => GetBackends range ic measurement db = ([], false)
  | Some keyMap =>
      match keyMap !! measurement with
      | Some bs => GetBackends range ic measurement db = (bs, true)
      | None =>
          ((exists k, is_Some (keyMap !! k) /\ strings_HasPrefix measurement k = true) ->
           exists k bs, keyMap !! k = Some bs
                        /\ strings_HasPrefix measurement k = true
                        /\ GetBackends range ic measurement db = (bs, true))
          /\ ((forall k, is_Some (keyMap !! k) -> strings_HasPrefix measurement k = false) ->
              match keyMap !! "_default_"%string with
              | Some bs => GetBackends range ic measurement db = (bs, true)
              | None => GetBackends range ic measurement db = ([], false)
              end)
      end
  end.
Proof.
  unfold GetBackends.
  destruct (m2bs ic !! db) as [keyMap|]; [|reflexivity].
  destruct (keyMap !! measurement) as [bs|] eqn:Hexact; [reflexivity|].
  cbn [negb]. split.
  - intros (k & [v Hv] & Hp).
    destruct (prefix_scan_hit measurement (range keyMap) [] false)
      as (k' & v' & Hin & Hp' & Hscan).
    { exists k, v. split; [apply range_lookup; exact Hv | exact Hp]. }
    exists k', v'. rewrite Hscan. cbn.
    split; [apply range_lookup; exact Hin|]. split; [exact Hp' | reflexivity].
  - intros Hnone. rewrite prefix_scan_miss.
    + cbn. destruct (keyMap !! "_default_"%string); reflexivity.
    + intros k v Hin. apply Hnone. exists v. apply range_lookup. exact Hin.
Qed.

End Routing.

(** *** Query dispatch *)

Section Dispatch.

Context {B : Type} `{API.BackendAPI B} {Regexp : Type}.
Implicit Types (ic : @InfluxCluster B Regexp) (apis : list B) (w : @World B).

(** The backends that a trace queried. *)
Fixpoint queried (trace : list (@event B)) : list B :=
  match trace with
  | [] => []
  | BackendQuery b _ :: rest => b :: queried rest
  | _ :: rest => queried rest
  end.

Lemma queried_app (t1 t2 : list (@event B)) : queried (t1 ++ t2) = queried t1 ++ queried t2.
Proof.
  induction t1 as [|ev t1 IH]; [reflexivity|].
  destruct ev; simpl; rewrite IH; reflexivity.
Qed.

(** X5.  The local-zone pass only queries backends of the local zone that
    are active and not write-only. *)
Theorem Query_local_zone_selects ic apis : forall err w w' err' returned,
  Query_local_zone ic apis err w = (w', err', returned) ->
  exists new,
    calls w' = calls w ++ new
    /\ Forall (fun b => In b apis
                        /\ API.GetZone b = Zone ic
                        /\ API.IsActive b = true
                        /\ API.IsWriteOnly b = false) (queried new).
Proof.
  induction apis as [|api rest IH]; intros err w w' err' returned Hrun; simpl in Hrun.
  - inversion Hrun; subst. exists []. rewrite app_nil_r. split; [reflexivity | constructor].
  - assert (Hweaken : forall new,
              Forall (fun b => In b rest /\ API.GetZone b = Zone ic
                               /\ API.IsActive b = true
                               /\ API.IsWriteOnly b = false) (queried new) ->
              Forall (fun b => In b (api :: rest) /\ API.GetZone b = Zone ic
                               /\ API.IsActive b = true
                               /\ API.IsWriteOnly b = false) (queried new)).
    { intros new Hall. eapply Forall_impl; [exact Hall|].
      intros b (Hin & Hrest). split; [right; exact Hin | exact Hrest]. }
    destruct (String.eqb (API.GetZone api) (Zone ic)) eqn:Hzone; cbn [negb] in Hrun.
    2:{ destruct (IH _ _ _ _ _ Hrun) as (new & Hcalls & Hall). exists new. eauto. }
    destruct (API.IsActive api) eqn:Hactive; cbn [negb orb] in Hrun.
    2:{ destruct (IH _ _ _ _ _ Hrun) as (new & Hcalls & Hall). exists new. eauto. }
    destruct (API.IsWriteOnly api) eqn:Hwo.
    { destruct (IH _ _ _ _ _ Hrun) as (new & Hcalls & Hall). exists new. eauto. }
    apply String.eqb_eq in Hzone.
    assert (Hapi : In api (api :: rest) /\ API.GetZone api = Zone ic
                   /\ API.IsActive api = true /\ API.IsWriteOnly api = false)
      by (repeat split; [left; reflexivity | assumption..]).
    destruct (API.Query api) as [e|] eqn:Hq.
    + destruct (IH _ _ _ _ _ Hrun) as (new & Hcalls & Hall).
      exists (BackendQuery api (Some e) :: new). cbn [emit calls] in Hcalls.
      rewrite Hcalls, <- app_assoc. split; [reflexivity|].
      cbn [queried]. constructor; [exact Hapi | eauto].
    + inversion Hrun; subst. exists [BackendQuery api None].
      split; [reflexivity|]. cbn [queried]. constructor; [exact Hapi | constructor].
Qed.

(** The other-zone pass queries every active backend of another zone up
    to the first that answers, write-only or not. *)
Lemma Query_other_zone_selects ic apis : forall err w w' err' returned,
  Query_other_zone ic apis err w = (w', err', returned) ->
  exists new,
    calls w' = calls w ++ new
    /\ Forall (fun b => In b apis
                        /\ API.GetZone b <> Zone ic
                        /\ API.IsActive b = true) (queried new).
Proof.
  induction apis as [|api rest IH]; intros err w w' err' returned Hrun; simpl in Hrun.
  - inversion Hrun; subst. exists []. rewrite app_nil_r. split; [reflexivity | constructor].
  - assert (Hweaken : forall new,
              Forall (fun b => In b rest /\ API.GetZone b <> Zone ic
                               /\ API.IsActive b = true) (queried new) ->
              Forall (fun b => In b (api :: rest) /\ API.GetZone b <> Zone ic
                               /\ API.IsActive b = true) (queried new)).
    { intros new Hall. eapply Forall_impl; [exact Hall|].
      intros b (Hin & Hrest). split; [right; exact Hin | exact Hrest]. }
    destruct (String.eqb (API.GetZone api) (Zone ic)) eqn:Hzone.
    { destruct (IH _ _ _ _ _ Hrun) as (new & Hcalls & Hall). exists new. eauto. }
    destruct (API.IsActive api) eqn:Hactive; cbn [negb] in Hrun.
    2:{ destruct (IH _ _ _ _ _ Hrun) as (new & Hcalls & Hall). exists new. eauto. }
    apply String.eqb_neq in Hzone.
    assert (Hapi : In api (api :: rest) /\ API.GetZone api <> Zone ic
                   /\ API.IsActive api = true)
      by (repeat split; [left; reflexivity | assumption..]).
    destruct (API.Query api) as [e|] eqn:Hq.
    + destruct (IH _ _ _ _ _ Hrun) as (new & Hcalls & Hall).
      exists (BackendQuery api (Some e) :: new). cbn [emit calls] in Hcalls.
      rewrite Hcalls, <- app_assoc. split; [reflexivity|].
      cbn [queried]. constructor; [exact Hapi | eauto].
    + inversion Hrun; subst. exists [BackendQuery api None].
      split; [reflexivity|]. cbn [queried]. constructor; [exact Hapi | constructor].
Qed.

(** An active write-only backend of another zone is sent the query when
    no backend of the local zone answers: here it is the only candidate. *)
Lemma Query_dispatch_reads_write_only ic (b : B) w :
  API.GetZone b <> Zone ic -> API.IsActive b = true -> API.IsWriteOnly b = true ->
  calls (fst (Query_dispatch ic [b] w))
  = calls w ++ BackendQuery b (API.Query b)
      :: match API.Query b with
         | None => []
         | Some _ => [WriteHeader 400; ResponseWrite query_error]
         end.
Proof.
  intros Hzone Hactive Hwo. apply String.eqb_neq in Hzone.
  unfold Query_dispatch. simpl. rewrite Hzone, Hactive. cbn [negb].
  destruct (API.Query b); cbn; rewrite <- ?app_assoc; reflexivity.
Qed.

End Dispatch.

(** *** Lines *)

Section Lines.



Lemma bytes_Split_no_sep (s : bytes) sep : ~ In sep s -> bytes_Split s sep = [s].
Proof.
  induction s as [|c s IH]; intros Hnot; [reflexivity|].
  cbn [bytes_Split]. destruct (Ascii.eqb c sep) eqn:Hc.
  - apply Ascii.eqb_eq in Hc. exfalso. apply Hnot. left. exact Hc.
  - rewrite IH; [reflexivity|]. intros Hin. apply Hnot. right. exact Hin.
Qed.

Lemma bytes_Split_app (a r : bytes) sep :
  ~ In sep a -> bytes_Split (a ++ sep :: r) sep = a :: bytes_Split r sep.
Proof.
  induction a as [|c a IH]; intros Hnot.
  - cbn [app bytes_Split]. rewrite Ascii.eqb_refl. reflexivity.
  - cbn [app bytes_Split]. destruct (Ascii.eqb c sep) eqn:Hc.
    + apply Ascii.eqb_eq in Hc. exfalso. apply Hnot. left. exact Hc.
    + rewrite IH; [reflexivity|]. intros Hin. apply Hnot. right. exact Hin.
Qed.

Lemma models_GetPrecisionMultiplier_range precision :
  0 < models_GetPrecisionMultiplier precision <= 3600000000000.
Proof.
  unfold models_GetPrecisionMultiplier.
  repeat match goal with |- context [if ?c then _ else _] => destruct c end; lia.
Qed.

(** On [int64], [t / d * d] for a positive [d] is the truncated quotient
    times [d]: nothing wraps. *)
Lemma truncate_int64 t d :
  in_int64 t -> 0 < d -> mul64 (div64 t d) d = Z.quot t d * d.
Proof.
  unfold in_int64, min_int64, max_int64, mul64, div64. intros Ht Hd.
  assert (Hq : 2 ^ 63 = 9223372036854775808) by reflexivity. rewrite Hq in Ht.
  assert (Hbounds : (0 <= t -> 0 <= Z.quot t d <= t /\ 0 <= Z.quot t d * d <= t)
                    /\ (t <= 0 -> t <= Z.quot t d <= 0 /\ t <= Z.quot t d * d <= 0)).
  { split; intros Hsign.
    - pose proof (Z.mul_quot_le t d Hsign ltac:(lia)).
      pose proof (Z.quot_pos t d Hsign Hd). nia.
    - pose proof (Z.mul_quot_ge t d Hsign ltac:(lia)).
      assert (Z.quot t d <= 0) by nia. nia. }
  destruct Hbounds as [Hpos Hneg].
  rewrite (wrap64_small (Z.quot t d)), wrap64_small; [reflexivity | |];
    unfold in_int64, min_int64, max_int64; rewrite Hq;
    destruct (Z_le_gt_dec 0 t); first [specialize (Hpos ltac:(lia)) | specialize (Hneg ltac:(lia))];
    lia.
Qed.

(** The decimal form of a non-negative integer consists of digits. *)
Lemma Int64ToBytes_digits t :
  0 <= t <= max_int64 -> Forall (fun c => 48 <= byteZ c <= 57) (Int64ToBytes t).
Proof.
  unfold max_int64. intros Ht. unfold Int64ToBytes, strconv_FormatInt.
  destruct (t <? 0) eqn:Hneg; [apply Z.ltb_lt in Hneg; lia|].
  destruct (formatBits_digits 20 t []) as (ds & Heq & _ & _ & _ & _ & Hall);
    [rewrite pow10_20; lia | lia |].
  rewrite Heq, app_nil_r. exact Hall.
Qed.

Lemma Int64ToBytes_no_blank t : 0 <= t <= max_int64 -> ~ In " "%char (Int64ToBytes t).
Proof.
  intros Ht Hin. pose proof (Int64ToBytes_digits t Ht) as Hall.
  rewrite List.Forall_forall in Hall. specialize (Hall _ Hin).
  vm_compute in Hall. destruct Hall as [Hlo _]. apply Hlo. reflexivity.
Qed.

(** A line of three fields keeps its first two fields and gets the parsed
    third one, truncated, as its timestamp. *)
Lemma WriteRow_rewrite_three (a b tok : bytes) precision now :
  ~ In " "%char a -> ~ In " "%char b -> ~ In " "%char tok ->
  WriteRow_rewrite (a ++ " "%char :: b ++ " "%char :: tok) precision now
  = (a ++ " "%char :: b ++ " "%char
       :: Int64ToBytes (mul64 (div64 (BytesToInt64 tok)
                                 (models_GetPrecisionMultiplier precision))
                          (models_GetPrecisionMultiplier precision)),
     false).
Proof.
  intros Ha Hb Htok. unfold WriteRow_rewrite.
  rewrite (bytes_Split_app a), (bytes_Split_app b), (bytes_Split_no_sep tok) by assumption.
  cbn. rewrite <- !app_assoc. reflexivity.
Qed.

(** A line of two fields gets the reading of the clock, truncated, as its
    timestamp. *)
Lemma WriteRow_rewrite_two (a b : bytes) precision now :
  ~ In " "%char a -> ~ In " "%char b ->
  WriteRow_rewrite (a ++ " "%char :: b) precision now
  = ((a ++ " "%char :: b) ++ " "%char
       :: Int64ToBytes (mul64 (div64 now (models_GetPrecisionMultiplier precision))
                          (models_GetPrecisionMultiplier precision)),
     true).
Proof.
  intros Ha Hb. unfold WriteRow_rewrite.
  rewrite (bytes_Split_app a), (bytes_Split_no_sep b) by assumption.
  cbn. rewrite <- (app_assoc (a ++ " "%char :: b)). reflexivity.
Qed.

End Lines.

(** *** The write path *)

Section Writing.

Context {B : Type} `{API.BackendAPI B} {Regexp : Type}.
Variable range : gmap string (list B) -> list (string * list B).
Variable UnixNano : nat -> Z.
Implicit Types (ic : @InfluxCluster B Regexp) (w : @World B) (bs : list B).

Lemma In_firstn {A : Type} (x : A) n : forall l, In x (firstn n l) -> In x l.
Proof.
  induction n as [|n IH]; intros [|y l] Hin; cbn in Hin; try contradiction.
  destruct Hin as [-> | Hin]; [left; reflexivity | right; apply IH; exact Hin].
Qed.

(** The call [b.Write(p)] as it appears in a trace. *)
Definition sent (p : bytes) (b : B) : @event B := BackendWrite b p (API.Write b p).

(** [WriteRow] hands the line to the backends in order, up to and
    including the first that refuses it. *)
Lemma WriteRow_send_calls bs line : forall w,
  exists n, calls (WriteRow_send bs line w) = calls w ++ map (sent line) (firstn n bs).
Proof.
  induction bs as [|b bs IH]; intros w; cbn [WriteRow_send].
  - exists 0%nat. cbn. rewrite app_nil_r. reflexivity.
  - destruct (API.Write b line) eqn:Hb.
    + exists 1%nat. cbn. unfold sent. rewrite Hb. reflexivity.
    + destruct (IH (emit (BackendWrite b line None) w)) as [n Hn].
      exists (S n). rewrite Hn. cbn. unfold sent at 2. rewrite Hb, <- app_assoc. reflexivity.
Qed.

Lemma WriteRow_send_accepted bs line : forall w,
  (forall b, In b bs -> API.Write b line = None) ->
  WriteRow_send bs line w = mkWorld (stats w) (calls w ++ map (sent line) bs) (clock w).
Proof.
  induction bs as [|b bs IH]; intros w Hok; cbn [WriteRow_send].
  - cbn. rewrite app_nil_r. destruct w; reflexivity.
  - rewrite (Hok b) by (left; reflexivity).
    rewrite IH by (intros b' Hin; apply Hok; right; exact Hin).
    cbn. unfold sent at 2. rewrite (Hok b) by (left; reflexivity).
    rewrite <- app_assoc. reflexivity.
Qed.

(** Timestamp normalization of a well-formed line.  A line whose key scans
    and routes, with three fields of which the last is the decimal form of a
    non-negative [int64] [t], goes to the backends of its key with [t]
    replaced by [t / d * d]. *)
Lemma WriteRow_explicit_timestamp ic line precision db w (a b : bytes) t key bs :
  bytes_TrimRight line blanks = a ++ " "%char :: b ++ " "%char :: Int64ToBytes t ->
  ~ In " "%char a -> ~ In " "%char b -> 0 <= t <= max_int64 ->
  ScanKey (bytes_TrimRight line blanks) = Ret key ->
  GetBackends range ic key db = (bs, true) ->
  WriteRow range UnixNano ic line precision db w
  = Ret (WriteRow_send bs
           (a ++ " "%char :: b ++ " "%char
              :: Int64ToBytes (Z.quot t (models_GetPrecisionMultiplier precision)
                               * models_GetPrecisionMultiplier precision))
           (count add_PointsWritten w)).
Proof.
  intros Htrim Ha Hb Ht Hscan Hroute. unfold WriteRow.
  rewrite Hscan, Hroute. cbn [negb].
  rewrite Htrim, WriteRow_rewrite_three by (auto using Int64ToBytes_no_blank).
  rewrite length_app. cbn [length].
  replace (length a + S (length (b ++ " "%char :: Int64ToBytes t)) =? 0)%nat with false
    by (symmetry; apply Nat.eqb_neq; lia).
  rewrite BytesToInt64_Int64ToBytes_nonneg by exact Ht.
  rewrite truncate_int64; [reflexivity | | apply models_GetPrecisionMultiplier_range].
  unfold in_int64, min_int64, max_int64 in *. lia.
Qed.

(** A line whose key scans and routes, with two fields, goes to the
    backends of its key followed by the reading of the clock, truncated the
    same way. *)
Lemma WriteRow_no_timestamp ic line precision db w (a b : bytes) key bs :
  bytes_TrimRight line blanks = a ++ " "%char :: b ->
  ~ In " "%char a -> ~ In " "%char b -> in_int64 (UnixNano (clock w)) ->
  ScanKey (bytes_TrimRight line blanks) = Ret key ->
  GetBackends range ic key db = (bs, true) ->
  WriteRow range UnixNano ic line precision db w
  = Ret (WriteRow_send bs
           ((a ++ " "%char :: b) ++ " "%char
              :: Int64ToBytes (Z.quot (UnixNano (clock w))
                                 (models_GetPrecisionMultiplier precision)
                               * models_GetPrecisionMultiplier precision))
           (tick (count add_PointsWritten w))).
Proof.
  intros Htrim Ha Hb Hnow Hscan Hroute. unfold WriteRow.
  rewrite Hscan, Hroute. cbn [negb].
  rewrite Htrim, WriteRow_rewrite_two by assumption.
  rewrite length_app. cbn [length].
  replace (length a + S (length b) =? 0)%nat with false
    by (symmetry; apply Nat.eqb_neq; lia).
  cbn [count clock].
  rewrite truncate_int64; [reflexivity | exact Hnow | apply models_GetPrecisionMultiplier_range].
Qed.

(** A call of the row phase: the rewriting of some line, handed to a
    backend of the line's key. *)
Definition rewritten ic (precision db : string) (ev : @event B) : Prop :=
  exists line key bs b now,
    ScanKey (bytes_TrimRight line blanks) = Ret key
    /\ GetBackends range ic key db = (bs, true)
    /\ In b bs
    /\ ev = sent (fst (WriteRow_rewrite (bytes_TrimRight line blanks) precision now)) b.

Lemma WriteRow_calls ic line precision db w w' :
  WriteRow range UnixNano ic line precision db w = Ret w' ->
  exists new, calls w' = calls w ++ new /\ Forall (rewritten ic precision db) new.
Proof.
  unfold WriteRow. intros Hrun.
  assert (Hnone : forall f, Ret (count f (count add_PointsWritten w)) = Ret w' ->
            exists new, calls w' = calls w ++ new /\ Forall (rewritten ic precision db) new).
  { intros f Heq. inversion Heq; subst. exists []. cbn. rewrite app_nil_r.
    split; [reflexivity | constructor]. }
  destruct (length (bytes_TrimRight line blanks) =? 0)%nat.
  { inversion Hrun; subst. exists []. cbn. rewrite app_nil_r.
    split; [reflexivity | constructor]. }
  destruct (ScanKey (bytes_TrimRight line blanks)) as [key|e|msg|] eqn:Hscan;
    try discriminate; [|eauto].
  destruct (GetBackends range ic key db) as [bs ok] eqn:Hroute.
  destruct ok; cbn [negb] in Hrun; [|eauto].
  destruct (WriteRow_rewrite (bytes_TrimRight line blanks) precision
              (UnixNano (clock (count add_PointsWritten w)))) as [line' read_clock] eqn:Hrw.
  inversion Hrun; subst. clear Hrun.
  match goal with
  | |- context [WriteRow_send bs line' ?w0] =>
      destruct (WriteRow_send_calls bs line' w0) as [n Hn];
      assert (Hw0 : calls w0 = calls w) by (destruct read_clock; reflexivity)
  end.
  rewrite Hn, Hw0. eexists. split; [reflexivity|].
  apply List.Forall_forall. intros ev Hin. apply in_map_iff in Hin.
  destruct Hin as (b & <- & Hb). apply In_firstn in Hb.
  exists line, key, bs, b, (UnixNano (clock (count add_PointsWritten w))).
  rewrite Hrw. repeat split; assumption.
Qed.

Lemma ReadBytes_length (buf : bytes) delim : forall line rest err,
  ReadBytes buf delim = (line, rest, err) ->
  (length line + length rest = length buf)%nat /\ (err = None \/ err = Some io_EOF).
Proof.
  induction buf as [|c buf IH]; intros line rest err Hread; cbn [ReadBytes] in Hread.
  - inversion Hread; subst. auto.
  - destruct (Ascii.eqb c delim).
    + inversion Hread; subst. cbn. auto.
    + destruct (ReadBytes buf delim) as [[line0 rest0] err0].
      inversion Hread; subst. destruct (IH _ _ _ eq_refl) as [Hlen Herr].
      cbn. split; [lia | exact Herr].
Qed.


(** The line loop returns or panics; when it returns, it has made only
    calls of the row phase and leaves [err] at [nil]. *)
Lemma Write_lines_calls ic precision db fuel : forall buf w w' err,
  Write_lines range UnixNano fuel ic buf precision db w = Ret (w', err) ->
  err = None
  /\ exists rows, calls w' = calls w ++ rows /\ Forall (rewritten ic precision db) rows.
Proof.
  induction fuel as [|fuel IH]; intros buf w w' err Hrun; cbn [Write_lines] in Hrun;
    destruct (ReadBytes buf "010") as [[line buf'] rerr] eqn:Hread;
    destruct (ReadBytes_length _ _ _ _ _ Hread) as [_ [-> | ->]];
    (destruct (length line =? 0)%nat;
     [inversion Hrun; subst; split; [reflexivity|]; exists [];
      rewrite app_nil_r; split; [reflexivity | constructor] |]);
    try discriminate.
  all: destruct (WriteRow range UnixNano ic line precision db w) as [w1| | |] eqn:Hrow;
    try discriminate.
  all: destruct (WriteRow_calls _ _ _ _ _ _ Hrow) as (new & Hnew & Hall).
  all: destruct (IH _ _ _ _ Hrun) as (Herr & rows & Hrows & Hall').
  all: split; [exact Herr|]; exists (new ++ rows).
  all: rewrite Hrows, Hnew, <- app_assoc; split; [reflexivity | apply Forall_app; auto].
Qed.





(** X1.  Timestamp normalization of well-formed lines.  For a line whose
    key scans and routes and whose first two fields are [a] and [b]: when a
    third field is the decimal form of a non-negative [int64] [t], the
    backends of the key are handed [a b (t / d * d)]; when there is no third
    field, they are handed [a b (now / d * d)], [now] being the reading of
    the clock.  The quotient is the truncated one and [d] the number of
    nanoseconds in one unit of the precision. *)
Theorem WriteRow_normalizes_timestamp ic line precision db w (a b : bytes) key bs :
  ~ In " "%char a -> ~ In " "%char b ->
  ScanKey (bytes_TrimRight line blanks) = Ret key ->
  GetBackends range ic key db = (bs, true) ->
  (forall t, 0 <= t <= max_int64 ->
     bytes_TrimRight line blanks = a ++ " "%char :: b ++ " "%char :: Int64ToBytes t ->
     WriteRow range UnixNano ic line precision db w
     = Ret (WriteRow_send bs
              (a ++ " "%char :: b ++ " "%char
                 :: Int64ToBytes (Z.quot t (models_GetPrecisionMultiplier precision)
                                  * models_GetPrecisionMultiplier precision))
              (count add_PointsWritten w)))
  /\ (in_int64 (UnixNano (clock w)) ->
      bytes_TrimRight line blanks = a ++ " "%char :: b ->
      WriteRow range UnixNano ic line precision db w
      = Ret (WriteRow_send bs
               ((a ++ " "%char :: b) ++ " "%char
                  :: Int64ToBytes (Z.quot (UnixNano (clock w))
                                     (models_GetPrecisionMultiplier precision)
                                   * models_GetPrecisionMultiplier precision))
               (tick (count add_PointsWritten w)))).
Proof.
  intros Ha Hb Hscan Hroute. split.
  - intros t Ht Htrim. eapply WriteRow_explicit_timestamp; eassumption.
  - intros Hnow Htrim. eapply WriteRow_no_timestamp; eassumption.
Qed.


End Writing.

(** *** Round trip of the integer conversions *)

Section Roundtrip.

(** C10, as the code has it.  [BytesToInt64] gives back every non-negative
    [int64] from its decimal form.  A negative one is not given back, the
    sign being read as a digit, save for the single value [lucky_negative],
    on which the wrapped sum of the misread digits falls back on the value
    itself. *)
Theorem BytesToInt64_Int64ToBytes_roundtrip i :
  in_int64 i ->
  (0 <= i -> BytesToInt64 (Int64ToBytes i) = i)
  /\ (i < 0 -> i <> lucky_negative -> BytesToInt64 (Int64ToBytes i) <> i)
  /\ (i = lucky_negative -> BytesToInt64 (Int64ToBytes i) = i).
Proof.
  unfold in_int64. intros Hi. split; [|split].
  - intros Hpos. apply BytesToInt64_Int64ToBytes_nonneg. lia.
  - intros Hneg Hlucky Hrt. apply Hlucky. apply roundtrip_neg_fixed; [lia | exact Hrt].
  - intros ->. vm_compute. reflexivity.
Qed.

Lemma BytesToInt64_Int64ToBytes_roundtrip_witness :
  BytesToInt64 (Int64ToBytes 1000) = 1000
  /\ BytesToInt64 (Int64ToBytes (-5)) <> -5
  /\ BytesToInt64 (Int64ToBytes lucky_negative) = lucky_negative.
Proof.
  assert (Hrange : forall i, - 2 ^ 63 <= i <= 2 ^ 63 - 1 -> in_int64 i)
    by (intros i Hi; exact Hi).
  split; [|split].
  - apply (proj1 (BytesToInt64_Int64ToBytes_roundtrip 1000 ltac:(apply Hrange; lia))). lia.
  - apply (proj1 (proj2 (BytesToInt64_Int64ToBytes_roundtrip (-5) ltac:(apply Hrange; lia))));
      unfold lucky_negative; lia.
  - apply (proj2 (proj2 (BytesToInt64_Int64ToBytes_roundtrip lucky_negative
                           ltac:(apply Hrange; unfold lucky_negative; lia)))).
    reflexivity.
Defined.

(** C10, as stated, fails: the round trip gives back the negative
    [int64] -7825341085959061504. *)
Lemma BytesToInt64_Int64ToBytes_lucky :
  in_int64 (-7825341085959061504)
  /\ -7825341085959061504 < 0
  /\ BytesToInt64 (Int64ToBytes (-7825341085959061504)) = -7825341085959061504.
Proof.
  split; [unfold in_int64, min_int64, max_int64; lia|].
  split; [lia | vm_compute; reflexivity].
Qed.

End Roundtrip.

End Cluster.

(** ** Scenarios

    The cluster over the backends of [backend/backends.go]. *)

Module Scenarios.

Import Cluster.

(** A backend at zone [zone], with an empty spool and the default tunables. *)
Definition backend (db zone : string) (active write_only run : bool) : Backend.Backends :=
  Backend.mkBackends (Backend.mkHttpBackend db zone active write_only None)
    (Backend.mkFileBackend [] 0 0) 1000 10000 10000 run [] None None 0 false.

Definition B1 : Backend.Backends := backend "a" "local" true false true.
Definition B2 : Backend.Backends := backend "a" "remote" true false true.
Definition replica : Backend.Backends := backend "a" "remote" true true true.
Definition peer : Backend.Backends := backend "a" "remote" true false true.

(** A cluster of zone ["local"] with the table [routes] and the next-hop
    peers [nexts]; its regular expressions are kept as their sources. *)
Definition cluster (routes : gmap string (gmap string (list Backend.Backends)))
    (nexts : list Backend.Backends) : @InfluxCluster Backend.Backends string :=
  mkInfluxCluster "local" [] [] nexts routes.

Definition exact_route (b : Backend.Backends)
  : gmap string (gmap string (list Backend.Backends)) :=
  {[ "a"%string := {[ "cpu"%string := [b] ]} ]}.

Definition prefix_route : gmap string (gmap string (list Backend.Backends)) :=
  {[ "a"%string := <[ "cpu_"%string := [B1] ]> {[ "_default_"%string := [B2] ]} ]}.

Definition idle : @World Backend.Backends := mkWorld (mkStatistics 0 0 0 0 0 0) [] 0.

(** A spool that holds one record, and an upstream that answers every
    write with an error that is neither [ErrBadRequest] nor [ErrNotFound]
    while its health check passes. *)
Definition spooled : Backend.Backends :=
  Backend.mkBackends (Backend.mkHttpBackend "a" "local" true false None)
    (Backend.mkFileBackend [bytes_of "batch"] 0 0) 1000 10000 10000 true [] None None 0 true.

Definition overloaded : Backend.Env :=
  Backend.mkEnv true (fun _ => Some ErrUnknown) None None None.

(** Scenario 2 of the routing table: with the table
    [{a: {cpu_: [B1], _default_: [B2]}}] the measurement [cpu_load] has no
    exact key and goes to the backends of a key that is its prefix. *)
Lemma GetBackends_resolution_order_witness :
  exists k bs,
    (<[ "cpu_"%string := [B1] ]> {[ "_default_"%string := [B2] ]}
       : gmap string (list Backend.Backends)) !! k = Some bs
    /\ strings_HasPrefix "cpu_load" k = true
    /\ GetBackends map_to_list (cluster prefix_route []) "cpu_load" "a" = (bs, true).
Proof.
  apply (GetBackends_resolution_order map_to_list (fun keyMap => Permutation_refl _)
           (cluster prefix_route []) "cpu_load" "a").
  exists "cpu_"%string. split; [eexists; vm_compute; reflexivity | reflexivity].
Defined.

(** C9.  [ScanKey] is not total: on the four bytes [abc\], whose last byte
    is an unescaped backslash, it reads [pointbuf[4]] and panics, and so
    does it on a lone backslash. *)
Theorem ScanKey_trailing_backslash_panics :
  ScanKey (bytes_of "abc\") = Panic "index out of range"
  /\ ScanKey (bytes_of "\") = Panic "index out of range".
Proof. split; reflexivity. Qed.

(** C3.  A negative timestamp is not normalized: at precision [ns] the
    line [cpu v=1 -5] reaches the backend of [cpu] as [cpu v=1 2535], the
    sign being read as the digit 253. *)
Theorem WriteRow_negative_timestamp :
  forall range UnixNano,
    WriteRow range UnixNano (cluster (exact_route B1) []) (bytes_of "cpu v=1 -5") "ns" "a" idle
    = Ret (mkWorld (mkStatistics 0 0 0 0 1 0)
             [BackendWrite B1 (bytes_of "cpu v=1 2535") None] 0).
Proof. intros range UnixNano. vm_compute. reflexivity. Qed.

(** C4, as the code has it.  With the table [{a: {cpu: [B1]}}], writing the
    line [cpu,host=x v=1 1000] at precision [ms] hands to [B1] the line
    [cpu,host=x v=1 0]: the token 1000 is taken as nanoseconds and truncated
    to a whole number of milliseconds. *)
Theorem Write_exact_route :
  forall range UnixNano (b : Backend.Backends) w,
  exists w' err,
    Write range UnixNano (cluster (exact_route b) []) (bytes_of "cpu,host=x v=1 1000")
      "ms" "a" w = Ret (w', err)
    /\ calls w' = calls w ++ [sent (bytes_of "cpu,host=x v=1 0") b].
Proof.
  intros range UnixNano b w. unfold Write.
  set (p := bytes_of "cpu,host=x v=1 1000").
  assert (Hrow : WriteRow range UnixNano (cluster (exact_route b) []) p "ms" "a"
                   (count add_WriteRequests w)
                 = Ret (WriteRow_send [b] (bytes_of "cpu,host=x v=1 0")
                          (count add_PointsWritten (count add_WriteRequests w)))).
  { apply (WriteRow_explicit_timestamp range UnixNano _ p "ms" "a" _
             (bytes_of "cpu,host=x") (bytes_of "v=1") 1000 "cpu" [b]).
    - reflexivity.
    - vm_compute. intuition discriminate.
    - vm_compute. intuition discriminate.
    - unfold max_int64. lia.
    - reflexivity.
    - unfold GetBackends, cluster, exact_route. cbn [m2bs].
      rewrite !lookup_singleton_eq. reflexivity. }
  change (Write_lines range UnixNano (length p) (cluster (exact_route b) []) p "ms" "a"
            (count add_WriteRequests w))
    with (match WriteRow range UnixNano (cluster (exact_route b) []) p "ms" "a"
                  (count add_WriteRequests w) with
          | Ret w' => Write_lines range UnixNano 18 (cluster (exact_route b) []) [] "ms" "a" w'
          | Fail e => Fail e
          | Panic msg => Panic msg
          | Timeout => Timeout
          end).
  rewrite Hrow. cbn [Write_lines ReadBytes length Nat.eqb bas cluster Nat.ltb Nat.leb].
  eexists _, _. split; [reflexivity|].
  cbn [WriteRow_send]. unfold sent.
  destruct (API.Write b (bytes_of "cpu,host=x v=1 0")); reflexivity.
Qed.

(** C4, as stated, fails: the one call made on [B1] carries the line
    [cpu,host=x v=1 0], which is not the line [cpu,host=x v=1 1000000000]. *)
Lemma exact_route_timestamp_not_converted :
  Write map_to_list (fun _ => 0) (cluster (exact_route B1) [])
    (bytes_of "cpu,host=x v=1 1000") "ms" "a" idle
  = Ret (mkWorld (mkStatistics 0 0 1 0 1 0)
           [BackendWrite B1 (bytes_of "cpu,host=x v=1 0") None] 0, None)
  /\ bytes_of "cpu,host=x v=1 0" <> bytes_of "cpu,host=x v=1 1000000000".
Proof. split; [vm_compute; reflexivity | discriminate]. Qed.

(** C5.  A payload one of whose lines makes [ScanKey] panic is not
    forwarded: on the payload [abc\] the panic leaves [Write] before the
    next-hop loop, whatever the cluster and its peers. *)
Theorem Write_panics_before_next_hop :
  forall range UnixNano (ic : @InfluxCluster Backend.Backends string) precision db w,
    Write range UnixNano ic (bytes_of "abc\") precision db w = Panic "index out of range".
Proof. intros. reflexivity. Qed.

(** C6.  The other-zone pass queries a write-only backend: with the local
    backend down, the query goes to the active write-only replica of the
    other zone; alone in the list, the replica is queried as well. *)
Theorem Query_dispatch_queries_write_only :
  Query_dispatch (cluster ∅ []) [backend "a" "local" false false true; replica] idle
  = (mkWorld (mkStatistics 0 0 0 0 0 0) [BackendQuery replica None] 0, None)
  /\ Query_dispatch (cluster ∅ []) [replica] idle
     = (mkWorld (mkStatistics 0 0 0 0 0 0) [BackendQuery replica None] 0, None)
  /\ API.IsWriteOnly replica = true.
Proof. repeat split. Qed.

(** C7.  [WriteBuffer] panics on an empty payload, and an empty payload
    reaches the worker of a next-hop peer: [Write] of the cluster hands the
    empty payload of a request to every peer, whose [Write] queues it. *)
Theorem WriteBuffer_empty_payload_panics :
  (forall bs, Backend.WriteBuffer bs [] = Panic "index out of range")
  /\ Write map_to_list (fun _ => 0) (cluster ∅ [peer]) [] "ns" "a" idle
     = Ret (mkWorld (mkStatistics 0 0 1 0 0 0) [BackendWrite peer [] None] 0, None)
  /\ Backend.ch_write (fst (Backend.Write peer [])) = [[]].
Proof. split; [apply Backend.WriteBuffer_empty | split; reflexivity]. Qed.

(** C8.  After an error of the upstream that is not terminal the drainer
    does not wait: [Rewrite] returns the [nil] of [RollbackMeta], so three
    turns of [RewriteLoop] against an overloaded upstream read, write and
    roll back the same record three times with no [Sleep] between them, the
    durable offset staying where it was. *)
Theorem RewriteLoop_retries_without_sleep :
  Backend.RewriteLoop [overloaded; overloaded; overloaded] spooled
  = (spooled,
     [Backend.SpoolRead;
      Backend.HttpWriteCompressed (bytes_of "batch") (Some ErrUnknown);
      Backend.SpoolRollbackMeta;
      Backend.SpoolRead;
      Backend.HttpWriteCompressed (bytes_of "batch") (Some ErrUnknown);
      Backend.SpoolRollbackMeta;
      Backend.SpoolRead;
      Backend.HttpWriteCompressed (bytes_of "batch") (Some ErrUnknown);
      Backend.SpoolRollbackMeta])
  /\ snd (Backend.Rewrite overloaded spooled) = None.
Proof. split; reflexivity. Qed.

Lemma WriteRow_normalizes_timestamp_witness :
  WriteRow map_to_list (fun _ => 0) (cluster (exact_route B1) [])
    (bytes_of "cpu,host=x v=1 1000") "ms" "a" idle
  = Ret (WriteRow_send [B1] (bytes_of "cpu,host=x v=1 0") (count add_PointsWritten idle)).
Proof.
  apply (proj1 (WriteRow_normalizes_timestamp map_to_list (fun _ => 0)
                  (cluster (exact_route B1) []) (bytes_of "cpu,host=x v=1 1000") "ms" "a"
                  idle (bytes_of "cpu,host=x") (bytes_of "v=1") "cpu" [B1]
                  ltac:(vm_compute; intuition discriminate)
                  ltac:(vm_compute; intuition discriminate)
                  eq_refl eq_refl) 1000).
  - unfold max_int64. lia.
  - reflexivity.
Defined.

Lemma WriteBuffer_nonempty_witness :
  Backend.WriteBuffer B1 (bytes_of "cpu v=1 0")
  = Ret (Backend.mkBackends (Backend.http B1) (Backend.fb B1) 1000 10000 10000 true []
           (Some (bytes_of "cpu v=1 0" ++ ["010"%char])) (Some 1000) 1 false,
         [Backend.ArmTimer 1000]).
Proof. apply (Backend.WriteBuffer_nonempty B1 (bytes_of "cpu v=1 0") "0"%char). reflexivity. Defined.

Lemma Query_local_zone_selects_witness :
  exists new,
    calls (mkWorld (mkStatistics 0 0 0 0 0 0) [BackendQuery B1 None] 0) = calls idle ++ new
    /\ Forall (fun b => In b [replica; B1]
                        /\ API.GetZone b = Zone (cluster ∅ [])
                        /\ API.IsActive b = true
                        /\ API.IsWriteOnly b = false) (queried new).
Proof.
  apply (Query_local_zone_selects (cluster ∅ []) [replica; B1] None idle _ None true).
  reflexivity.
Defined.

End Scenarios.

(** ** backend/cluster.go: the line helpers *)

Module Keys.

Import Cluster.



(** The bytes that the line protocol escapes in a measurement, and the
    escaped form of a key: a backslash in front of each of them. *)
Definition special (c : ascii) : bool :=
  Ascii.eqb c "\" || Ascii.eqb c " " || Ascii.eqb c ",".

Fixpoint escape_key (key : bytes) : bytes :=
  match key with
  | [] => []
  | c :: rest =>
      if special c then "\"%char :: c :: escape_key rest else c :: escape_key rest
  end.

(** The scan of [ScanKey] on what is left of the slice. *)
Fixpoint scan (rest : bytes) (keyslice : bytes) : outcome string :=
  match rest with
  | [] => Fail io_EOF
  | c :: rest' =>
      if Ascii.eqb c "\" then
        match rest' with
        | [] => Panic "index out of range"
        | c' :: rest'' => scan rest'' (keyslice ++ [c'])
        end
      else if Ascii.eqb c " " || Ascii.eqb c "," then Ret (string_of keyslice)
      else scan rest' (keyslice ++ [c])
  end.




Lemma ScanKey_loop_scan : forall fuel (pre rest keyslice : bytes),
  (length rest <= fuel)%nat ->
  ScanKey_loop fuel (pre ++ rest) (length pre) keyslice = scan rest keyslice.
Proof.
  induction fuel as [|fuel IH]; intros pre rest keyslice Hfuel.
  - destruct rest; [|cbn in Hfuel; lia]. cbn [ScanKey_loop scan].
    rewrite app_nil_r, Nat.ltb_irrefl. reflexivity.
  - cbn [ScanKey_loop]. destruct rest as [|c rest].
    + rewrite app_nil_r, Nat.ltb_irrefl. reflexivity.
    + replace (length pre <? length (pre ++ c :: rest))%nat with true
        by (symmetry; apply Nat.ltb_lt; rewrite length_app; cbn; lia).
      cbn [negb]. rewrite lookup_app_r by lia. rewrite Nat.sub_diag.
      cbn [lookup list_lookup scan].
      destruct (Ascii.eqb c "\").
      * rewrite lookup_app_r by lia.
        replace (length pre + 1 - length pre)%nat with 1%nat by lia.
        destruct rest as [|c' rest]; [reflexivity|]. cbn [lookup list_lookup].
        replace (pre ++ c :: c' :: rest) with ((pre ++ [c; c']) ++ rest)
          by (rewrite <- app_assoc; reflexivity).
        replace (length pre + 1 + 1)%nat with (length (pre ++ [c; c']))
          by (rewrite length_app; cbn; lia).
        apply IH. cbn in Hfuel. lia.
      * destruct (Ascii.eqb c " " || Ascii.eqb c ","); [reflexivity|].
        replace (pre ++ c :: rest) with ((pre ++ [c]) ++ rest)
          by (rewrite <- app_assoc; reflexivity).
        replace (length pre + 1)%nat with (length (pre ++ [c]))
          by (rewrite length_app; cbn; lia).
        apply IH. cbn in Hfuel. lia.
Qed.

(** The loop of [ScanKey] over indices is the scan of the slice from its
    front. *)
Lemma ScanKey_scan (pointbuf : bytes) : ScanKey pointbuf = scan pointbuf [].
Proof. apply (ScanKey_loop_scan (length pointbuf) [] pointbuf []). lia. Qed.

Lemma scan_escape_key (key : bytes) : forall (sep : ascii) (rest keyslice : bytes),
  sep = " "%char \/ sep = ","%char ->
  scan (escape_key key ++ sep :: rest) keyslice = Ret (string_of (keyslice ++ key)).
Proof.
  induction key as [|c key IH]; intros sep rest keyslice Hsep.
  - cbn [escape_key app scan]. rewrite app_nil_r.
    destruct Hsep as [-> | ->]; reflexivity.
  - cbn [escape_key]. unfold special.
    destruct (Ascii.eqb c "\") eqn:Hbs; cbn [orb].
    + cbn [app scan]. rewrite IH by exact Hsep. rewrite <- app_assoc. reflexivity.
    + destruct (Ascii.eqb c " " || Ascii.eqb c ",") eqn:Hsp.
      * cbn [app scan]. rewrite IH by exact Hsep. rewrite <- app_assoc. reflexivity.
      * cbn [app scan]. rewrite Hbs, Hsp, IH by exact Hsep.
        rewrite <- app_assoc. reflexivity.
Qed.

(** X7.  [ScanKey] undoes the escaping of a measurement: of a slice that
    starts with the escaped form of [key], followed by a space or a comma,
    it returns [key], whatever the key's bytes and whatever follows the
    separator. *)
Theorem ScanKey_escape_key (key rest : bytes) (sep : ascii) :
  sep = " "%char \/ sep = ","%char ->
  ScanKey (escape_key key ++ sep :: rest) = Ret (string_of key).
Proof.
  intros Hsep. rewrite ScanKey_scan. apply (scan_escape_key key sep rest [] Hsep).
Qed.

Lemma scan_no_separator (rest : bytes) : forall keyslice,
  Forall (fun c => c <> " "%char /\ c <> ","%char) rest ->
  (scan rest keyslice = Fail io_EOF \/ scan rest keyslice = Panic "index out of range")
  /\ (Forall (fun c => c <> "\"%char) rest -> scan rest keyslice = Fail io_EOF).
Proof.
  remember (length rest) as n eqn:Hn. revert rest Hn.
  induction n as [n IH] using lt_wf_ind. intros rest Hn keyslice Hall.
  destruct rest as [|c rest]; [cbn; auto|].
  inversion Hall as [|? ? [Hsp Hco] Hrest]; subst. cbn [scan].
  destruct (Ascii.eqb c "\") eqn:Hbs.
  - apply Ascii.eqb_eq in Hbs. subst c. destruct rest as [|c' rest].
    + split; [right; reflexivity|]. intros Hno. inversion Hno; subst. congruence.
    + inversion Hrest; subst.
      destruct (IH (length rest) ltac:(cbn; lia) rest eq_refl (keyslice ++ [c']))
        as [Hout _]; [assumption|].
      split; [exact Hout|]. intros Hno. inversion Hno; subst. congruence.
  - replace (Ascii.eqb c " " || Ascii.eqb c ",") with false
      by (symmetry; apply orb_false_iff; split; apply Ascii.eqb_neq; assumption).
    destruct (IH (length rest) ltac:(cbn; lia) rest eq_refl (keyslice ++ [c]))
      as [Hout Heof]; [assumption|].
    split; [exact Hout|]. intros Hno. inversion Hno; subst. auto.
Qed.

(** X8.  [ScanKey] finds no key in a slice that has neither a space nor a
    comma: it returns [io.EOF] or panics, and it returns [io.EOF] when the
    slice has no backslash either, the empty slice included. *)
Theorem ScanKey_no_separator (pointbuf : bytes) :
  Forall (fun c => c <> " "%char /\ c <> ","%char) pointbuf ->
  (ScanKey pointbuf = Fail io_EOF \/ ScanKey pointbuf = Panic "index out of range")
  /\ (Forall (fun c => c <> "\"%char) pointbuf -> ScanKey pointbuf = Fail io_EOF).
Proof. intros Hall. rewrite ScanKey_scan. apply scan_no_separator. exact Hall. Qed.

End Keys.

(** ** backend/cluster.go: routing and policy, continued *)

Module Routes.

Import Cluster.

Section Lookup.

Context {B Regexp : Type}.
Implicit Types (ic : @InfluxCluster B Regexp) (keyMap : gmap string (list B)).

(** An iteration order of [for k, v := range keyMap]. *)
Definition iteration (range : gmap string (list B) -> list (string * list B)) : Prop :=
  forall keyMap, range keyMap ≡ₚ map_to_list keyMap.

(** The order that visits the key [k] first. *)
Definition first_key (k : string) (keyMap : gmap string (list B))
  : list (string * list B) :=
  match keyMap !! k with
  | Some v => (k, v) :: map_to_list (delete k keyMap)
  | None => map_to_list keyMap
  end.

Lemma first_key_iteration k : iteration (first_key k).
Proof.
  intros keyMap. unfold first_key.
  destruct (keyMap !! k) as [v|] eqn:Hk; [|reflexivity].
  apply map_to_list_delete. exact Hk.
Qed.

Lemma prefix_scan_cases measurement (entries : list (string * list B)) backends exist :
  (prefix_scan measurement entries backends exist = (backends, exist)
   /\ forall k v, In (k, v) entries -> strings_HasPrefix measurement k = false)
  \/ (exists k v, In (k, v) entries /\ strings_HasPrefix measurement k = true
                  /\ prefix_scan measurement entries backends exist = (v, true)).
Proof.
  induction entries as [|[k0 v0] rest IH]; [left; split; [reflexivity | intros ? ? []]|].
  cbn [prefix_scan]. destruct (strings_HasPrefix measurement k0) eqn:Hk0.
  - right. exists k0, v0. split; [left; reflexivity | auto].
  - destruct IH as [[Hscan Hnone] | (k & v & Hin & Hp & Hscan)].
    + left. split; [exact Hscan|]. intros k v [Heq | Hin]; [congruence | eauto].
    + right. exists k, v. split; [right; exact Hin | auto].
Qed.

(** X9.  What [GetBackends] answers comes from the table: with [ok = true]
    the backends are those of a key of the database's table that is the
    measurement itself, a prefix of it, or ["_default_"]; with [ok = false]
    there is no backend. *)
Theorem GetBackends_sound range ic measurement db bs ok :
  iteration range ->
  GetBackends range ic measurement db = (bs, ok) ->
  (ok = true ->
   exists keyMap k,
     m2bs ic !! db = Some keyMap /\ keyMap !! k = Some bs
     /\ (k = measurement \/ strings_HasPrefix measurement k = true
         \/ k = "_default_"%string))
  /\ (ok = false -> bs = []).
Proof.
  intros Hrange. unfold GetBackends.
  destruct (m2bs ic !! db) as [keyMap|]; [|intros Heq; inversion Heq; split; [discriminate | reflexivity]].
  destruct (keyMap !! measurement) as [v|] eqn:Hexact.
  - cbn. intros Heq. inversion Heq; subst. split; [|discriminate].
    intros _. exists keyMap, measurement. auto.
  - cbn [negb].
    destruct (prefix_scan_cases measurement (range keyMap) [] false)
      as [[-> Hnone] | (k & v & Hin & Hp & ->)].
    + cbn [negb]. destruct (keyMap !! "_default_"%string) as [v|] eqn:Hdef; cbn;
        intros Heq; inversion Heq; subst; split; try discriminate; try reflexivity.
      intros _. exists keyMap, "_default_"%string. auto.
    + cbn. intros Heq. inversion Heq; subst. split; [|discriminate].
      intros _. exists keyMap, k. split; [reflexivity|]. split; [|auto].
      apply (range_lookup range Hrange). exact Hin.
Qed.

(** X10.  When at most one key of the database's table is a prefix of the
    measurement, the answer of [GetBackends] does not depend on the order in
    which the table is visited. *)
Theorem GetBackends_unique_prefix range1 range2 ic measurement db :
  iteration range1 -> iteration range2 ->
  (forall keyMap k1 k2,
     m2bs ic !! db = Some keyMap ->
     is_Some (keyMap !! k1) -> is_Some (keyMap !! k2) ->
     strings_HasPrefix measurement k1 = true ->
     strings_HasPrefix measurement k2 = true -> k1 = k2) ->
  GetBackends range1 ic measurement db = GetBackends range2 ic measurement db.
Proof.
  intros H1 H2 Huniq. unfold GetBackends.
  destruct (m2bs ic !! db) as [keyMap|] eqn:Hdb; [|reflexivity].
  destruct (keyMap !! measurement) as [v|]; [reflexivity|]. cbn [negb].
  destruct (prefix_scan_cases measurement (range1 keyMap) [] false)
    as [[-> Hnone1] | (k1 & v1 & Hin1 & Hp1 & ->)];
    destruct (prefix_scan_cases measurement (range2 keyMap) [] false)
      as [[-> Hnone2] | (k2 & v2 & Hin2 & Hp2 & ->)]; try reflexivity.
  - apply (range_lookup range2 H2), (range_lookup range1 H1) in Hin2.
    rewrite (Hnone1 _ _ Hin2) in Hp2. discriminate.
  - apply (range_lookup range1 H1), (range_lookup range2 H2) in Hin1.
    rewrite (Hnone2 _ _ Hin1) in Hp1. discriminate.
  - apply (range_lookup range1 H1) in Hin1. apply (range_lookup range2 H2) in Hin2.
    assert (k1 = k2) by (apply (Huniq keyMap); eauto). subst k2.
    rewrite Hin1 in Hin2. inversion Hin2; subst. reflexivity.
Qed.

(** X11.  Without an exact key, every key of the table that is a prefix of
    the measurement can win: some iteration order makes [GetBackends] answer
    with its backends. *)
Theorem GetBackends_any_prefix_wins ic measurement db keyMap k bs :
  m2bs ic !! db = Some keyMap ->
  keyMap !! measurement = None ->
  keyMap !! k = Some bs ->
  strings_HasPrefix measurement k = true ->
  exists range, iteration range /\ GetBackends range ic measurement db = (bs, true).
Proof.
  intros Hdb Hexact Hk Hp. exists (first_key k). split; [apply first_key_iteration|].
  unfold GetBackends. rewrite Hdb, Hexact. cbn [negb].
  unfold first_key. rewrite Hk. cbn [prefix_scan]. rewrite Hp. reflexivity.
Qed.

End Lookup.

Section PolicyUpdates.

Context {B Regexp : Type}.
Variable MatchString : Regexp -> string -> bool.

(** [regexp.Compile]: the compiled expression, or the error of the parser. *)
Variable regexp_Compile : string -> Regexp + error.

Implicit Types (ic : @InfluxCluster B Regexp) (q s : string).

Definition ForbidQuery ic s : @InfluxCluster B Regexp * option error :=
  match regexp_Compile s with
  | inr err => (ic, Some err)
  | inl r =>
      (mkInfluxCluster (Zone ic) (ForbiddenQuery ic ++ [r]) (ObligatedQuery ic)
         (bas ic) (m2bs ic), None)
  end.

Definition EnsureQuery ic s : @InfluxCluster B Regexp * option error :=
  match regexp_Compile s with
  | inr err => (ic, Some err)
  | inl r =>
      (mkInfluxCluster (Zone ic) (ForbiddenQuery ic) (ObligatedQuery ic ++ [r])
         (bas ic) (m2bs ic), None)
  end.

Definition AddNext ic (ba : B) : @InfluxCluster B Regexp :=
  mkInfluxCluster (Zone ic) (ForbiddenQuery ic) (ObligatedQuery ic)
    (bas ic ++ [ba]) (m2bs ic).

(** X12.  [ForbidQuery] only ever forbids more.  When the expression
    compiles, the queries it matches are refused from then on and every
    other query is judged as before; when it does not compile, the error of
    the compiler is returned and the cluster is left as it was. *)
Theorem ForbidQuery_forbids_more ic s :
  match regexp_Compile s with
  | inl r =>
      snd (ForbidQuery ic s) = None
      /\ forall q,
           CheckQuery MatchString (fst (ForbidQuery ic s)) q
           = if MatchString r q then Some ErrQueryForbidden
             else CheckQuery MatchString ic q
  | inr err => ForbidQuery ic s = (ic, Some err)
  end.
Proof.
  unfold ForbidQuery. destruct (regexp_Compile s) as [r|err]; [|reflexivity].
  split; [reflexivity|]. intros q. cbn [fst]. unfold CheckQuery. cbn.
  rewrite length_app, existsb_app. cbn [length existsb].
  replace (length (ForbiddenQuery ic) + 1 =? 0)%nat with false
    by (symmetry; apply Nat.eqb_neq; lia).
  cbn [negb andb]. rewrite orb_false_r.
  destruct (existsb (fun fq => MatchString fq q) (ForbiddenQuery ic)) eqn:Hex.
  - cbn. destruct (ForbiddenQuery ic); [discriminate Hex|].
    cbn. destruct (MatchString r q); reflexivity.
  - cbn. rewrite andb_false_r. destruct (MatchString r q); reflexivity.
Qed.

(** X13.  [EnsureQuery] turns an empty allowlist, under which every query
    that is not denied passes, into a restriction: once the expression is
    added, a query passes exactly when it is not denied and matches the new
    expression or one added before. *)
Theorem EnsureQuery_restricts ic s :
  match regexp_Compile s with
  | inl r =>
      snd (EnsureQuery ic s) = None
      /\ forall q,
           CheckQuery MatchString (fst (EnsureQuery ic s)) q = None
           <-> ~ denied MatchString ic q
               /\ (MatchString r q = true \/ allowed MatchString ic q)
  | inr err => EnsureQuery ic s = (ic, Some err)
  end.
Proof.
  unfold EnsureQuery. destruct (regexp_Compile s) as [r|err]; [|reflexivity].
  split; [reflexivity|]. intros q. cbn [fst].
  set (ic' := mkInfluxCluster (Zone ic) (ForbiddenQuery ic) (ObligatedQuery ic ++ [r])
                (bas ic) (m2bs ic)).
  assert (Hallowed : allowed MatchString ic' q
                     <-> MatchString r q = true \/ allowed MatchString ic q).
  { unfold allowed. cbn [ObligatedQuery ic']. split.
    - intros (pq & Hin & Hm). apply in_app_iff in Hin.
      destruct Hin as [Hin | [-> | []]]; [right; eauto | left; exact Hm].
    - intros [Hm | (pq & Hin & Hm)].
      + exists r. split; [apply in_app_iff; right; left; reflexivity | exact Hm].
      + exists pq. split; [apply in_app_iff; left; exact Hin | exact Hm]. }
  split.
  - intros Hnil.
    assert (Hnot : ~ denied MatchString ic' q).
    { intros Hd. rewrite (CheckQuery_denied MatchString ic' q Hd) in Hnil. discriminate. }
    split; [exact Hnot|]. apply Hallowed.
    rewrite (CheckQuery_not_denied MatchString ic' q Hnot) in Hnil.
    unfold allowed. subst ic'. cbn [ObligatedQuery] in *.
    destruct (ObligatedQuery ic ++ [r]) as [|pq pqs] eqn:Hob;
      [destruct (ObligatedQuery ic); discriminate Hob|].
    destruct (existsb (fun pq => MatchString pq q) (pq :: pqs)) eqn:Hex; [|discriminate].
    apply existsb_exists in Hex. exact Hex.
  - intros [Hnot Hal]. rewrite CheckQuery_not_denied by exact Hnot.
    apply Hallowed in Hal. unfold allowed in Hal.
    destruct (ObligatedQuery ic') as [|pq pqs] eqn:Hob; [reflexivity|].
    replace (existsb (fun pq0 => MatchString pq0 q) (pq :: pqs)) with true; [reflexivity|].
    symmetry. apply existsb_exists. exact Hal.
Qed.

End PolicyUpdates.

End Routes.

(** ** backend/cluster.go: the write path, continued *)

Module WritePath.

Import Cluster.

Section Rows.

Context {B : Type} `{API.BackendAPI B} {Regexp : Type}.
Variable range : gmap string (list B) -> list (string * list B).
Variable UnixNano : nat -> Z.
Implicit Types (ic : @InfluxCluster B Regexp) (w : @World B) (bs : list B).

(** The line that [WriteRow] hands to the backends of a line's key. *)
Definition handed (line : bytes) (precision : string) w : bytes :=
  fst (WriteRow_rewrite (bytes_TrimRight line blanks) precision (UnixNano (clock w))).

Lemma WriteRow_routed ic line precision db w key bs :
  bytes_TrimRight line blanks <> [] ->
  ScanKey (bytes_TrimRight line blanks) = Ret key ->
  GetBackends range ic key db = (bs, true) ->
  exists w0,
    WriteRow range UnixNano ic line precision db w
    = Ret (WriteRow_send bs (handed line precision w) w0)
    /\ stats w0 = add_PointsWritten (stats w) /\ calls w0 = calls w.
Proof.
  intros Hne Hscan Hroute. unfold WriteRow, handed. rewrite Hscan, Hroute. cbn [negb].
  destruct (bytes_TrimRight line blanks) as [|c trimmed] eqn:Htrim; [congruence|].
  cbn [length Nat.eqb count clock].
  destruct (WriteRow_rewrite (c :: trimmed) precision (UnixNano (clock w)))
    as [line' read_clock].
  cbn [fst]. eexists. split; [reflexivity|]. destruct read_clock; split; reflexivity.
Qed.

Lemma WriteRow_send_refused bs1 (b : B) bs2 line e : forall w,
  (forall x, In x bs1 -> API.Write x line = None) ->
  API.Write b line = Some e ->
  WriteRow_send (bs1 ++ b :: bs2) line w
  = mkWorld (add_PointsWrittenFail (stats w))
      (calls w ++ map (sent line) (bs1 ++ [b])) (clock w).
Proof.
  induction bs1 as [|x bs1 IH]; intros w Hok Hb; cbn [app WriteRow_send].
  - rewrite Hb. cbn. unfold sent. rewrite Hb. reflexivity.
  - rewrite (Hok x) by (left; reflexivity).
    rewrite IH by (try exact Hb; intros y Hy; apply Hok; right; exact Hy).
    cbn. unfold sent at 2. rewrite (Hok x) by (left; reflexivity).
    rewrite <- app_assoc. reflexivity.
Qed.

(** X14.  A line goes to the backends of its key in order and stops at the
    first one that refuses it: the backends listed after a refusing one are
    not handed the line, and the point is counted as failed once. *)
Theorem WriteRow_stops_at_refusal ic line precision db w key bs1 (b : B) bs2 :
  bytes_TrimRight line blanks <> [] ->
  ScanKey (bytes_TrimRight line blanks) = Ret key ->
  GetBackends range ic key db = (bs1 ++ b :: bs2, true) ->
  (forall x, In x bs1 -> API.Write x (handed line precision w) = None) ->
  API.Write b (handed line precision w) <> None ->
  exists w',
    WriteRow range UnixNano ic line precision db w = Ret w'
    /\ calls w' = calls w ++ map (sent (handed line precision w)) (bs1 ++ [b])
    /\ PointsWrittenFail (stats w') = add64 (PointsWrittenFail (stats w)) 1.
Proof.
  intros Hne Hscan Hroute Hok Hb.
  destruct (WriteRow_routed ic line precision db w key _ Hne Hscan Hroute)
    as (w0 & Hrun & Hstats & Hcalls).
  destruct (API.Write b (handed line precision w)) as [e|] eqn:Hbe; [|congruence].
  rewrite (WriteRow_send_refused bs1 b bs2 _ e w0 Hok Hbe) in Hrun.
  eexists. split; [exact Hrun|]. cbn [calls stats]. rewrite Hcalls, Hstats.
  split; reflexivity.
Qed.

Lemma WriteRow_send_outcome bs line : forall w,
  (WriteRow_send bs line w = mkWorld (stats w) (calls w ++ map (sent line) bs) (clock w)
   /\ forall b, In b bs -> API.Write b line = None)
  \/ stats (WriteRow_send bs line w) = add_PointsWrittenFail (stats w).
Proof.
  induction bs as [|b bs IH]; intros w; cbn [WriteRow_send].
  - left. cbn. rewrite app_nil_r. split; [destruct w; reflexivity | intros ? []].
  - destruct (API.Write b line) eqn:Hb; [right; reflexivity|].
    destruct (IH (emit (BackendWrite b line None) w)) as [[Heq Hok] | Hfail].
    + left. rewrite Heq. cbn. unfold sent at 2. rewrite Hb, <- app_assoc.
      split; [reflexivity|]. intros x [<- | Hx]; [exact Hb | apply Hok; exact Hx].
    + right. exact Hfail.
Qed.

(** X15.  No line is lost in silence: when [WriteRow] returns from a line
    that is not blank, either the line's key scanned and routed and every
    backend of the key was handed the rewritten line and accepted it, or the
    point is counted once in [PointsWrittenFail].  The first case includes a
    key whose list of backends is empty. *)
Theorem WriteRow_delivered_or_counted ic line precision db w w' :
  WriteRow range UnixNano ic line precision db w = Ret w' ->
  bytes_TrimRight line blanks <> [] ->
  (exists key bs,
     ScanKey (bytes_TrimRight line blanks) = Ret key
     /\ GetBackends range ic key db = (bs, true)
     /\ calls w' = calls w ++ map (sent (handed line precision w)) bs
     /\ (forall b, In b bs -> API.Write b (handed line precision w) = None)
     /\ PointsWrittenFail (stats w') = PointsWrittenFail (stats w))
  \/ (PointsWrittenFail (stats w') = add64 (PointsWrittenFail (stats w)) 1).
Proof.
  intros Hrun Hne.
  destruct (ScanKey (bytes_TrimRight line blanks)) as [key|e|msg|] eqn:Hscan.
  - destruct (GetBackends range ic key db) as [bs ok] eqn:Hroute. destruct ok.
    + destruct (WriteRow_routed ic line precision db w key bs Hne Hscan Hroute)
        as (w0 & Hrun' & Hstats & Hcalls).
      rewrite Hrun in Hrun'. inversion Hrun'; subst w'. clear Hrun'.
      destruct (WriteRow_send_outcome bs (handed line precision w) w0)
        as [[Heq Hok] | Hfail].
      * left. exists key, bs. rewrite Heq. cbn [calls stats].
        rewrite Hcalls, Hstats. repeat split; auto.
      * right. rewrite Hfail, Hstats. reflexivity.
    + right. unfold WriteRow in Hrun. rewrite Hscan, Hroute in Hrun.
      destruct (length (bytes_TrimRight line blanks) =? 0)%nat eqn:Hlen;
        [apply Nat.eqb_eq in Hlen; destruct (bytes_TrimRight line blanks);
         [congruence | discriminate Hlen]|].
      inversion Hrun; subst. reflexivity.
  - right. unfold WriteRow in Hrun. rewrite Hscan in Hrun.
    destruct (length (bytes_TrimRight line blanks) =? 0)%nat eqn:Hlen;
      [apply Nat.eqb_eq in Hlen; destruct (bytes_TrimRight line blanks);
       [congruence | discriminate Hlen]|].
    inversion Hrun; subst. reflexivity.
  - unfold WriteRow in Hrun. rewrite Hscan in Hrun.
    destruct (length (bytes_TrimRight line blanks) =? 0)%nat eqn:Hlen;
      [apply Nat.eqb_eq in Hlen; destruct (bytes_TrimRight line blanks);
       [congruence | discriminate Hlen] | discriminate Hrun].
  - unfold WriteRow in Hrun. rewrite Hscan in Hrun.
    destruct (length (bytes_TrimRight line blanks) =? 0)%nat eqn:Hlen;
      [apply Nat.eqb_eq in Hlen; destruct (bytes_TrimRight line blanks);
       [congruence | discriminate Hlen] | discriminate Hrun].
Qed.

Lemma drop_leading_all (cutset s : bytes) :
  Forall (fun c => contains_byte cutset c = true) s -> drop_leading cutset s = [].
Proof.
  induction s as [|c s IH]; intros Hall; [reflexivity|].
  inversion Hall as [|? ? Hc Hs]; subst. cbn [drop_leading]. rewrite Hc. auto.
Qed.

(** X16.  A line made of blanks only (spaces, tabs, carriage returns and
    newlines), the empty line included, is counted as a written point and
    nothing else happens: no call is made and no failure is counted. *)
Theorem WriteRow_blank_line ic line precision db w :
  Forall (fun c => contains_byte (bytes_of blanks) c = true) line ->
  WriteRow range UnixNano ic line precision db w = Ret (count add_PointsWritten w).
Proof.
  intros Hall. unfold WriteRow, bytes_TrimRight.
  rewrite drop_leading_all; [reflexivity|].
  apply List.Forall_forall. intros c Hc. apply in_rev in Hc.
  revert c Hc. apply List.Forall_forall. exact Hall.
Qed.

(** X17.  Only lines of two or three space-separated fields are rewritten.
    A routed line with any other number of fields, such as a line with a
    space inside a quoted field value or an escaped space in a tag, is
    replaced as a whole by the single byte [0] before it goes to the
    backends of its key. *)
Theorem WriteRow_other_field_counts ic line precision db w key bs :
  ScanKey (bytes_TrimRight line blanks) = Ret key ->
  GetBackends range ic key db = (bs, true) ->
  length (bytes_Split (bytes_TrimRight line blanks) " ") <> 2%nat ->
  length (bytes_Split (bytes_TrimRight line blanks) " ") <> 3%nat ->
  WriteRow range UnixNano ic line precision db w
  = Ret (WriteRow_send bs (bytes_of "0") (count add_PointsWritten w)).
Proof.
  intros Hscan Hroute H2 H3.
  assert (Hne : bytes_TrimRight line blanks <> []).
  { intros Hnil. rewrite Hnil in Hscan. discriminate Hscan. }
  unfold WriteRow. rewrite Hscan, Hroute. cbn [negb].
  destruct (length (bytes_TrimRight line blanks) =? 0)%nat eqn:Hlen;
    [apply Nat.eqb_eq in Hlen; destruct (bytes_TrimRight line blanks);
     [congruence | discriminate Hlen]|].
  unfold WriteRow_rewrite.
  apply Nat.eqb_neq in H2, H3. rewrite H2, H3. reflexivity.
Qed.

Lemma Write_nexts_result (nexts : list B) p : forall err w,
  snd (Write_nexts nexts p err w)
  = match last nexts with
    | Some n => API.Write n p
    | None => err
    end.
Proof.
  induction nexts as [|n nexts IH]; intros err w; [reflexivity|].
  cbn [Write_nexts]. rewrite IH. destruct nexts as [|b nexts]; [reflexivity|].
  change (last (n :: b :: nexts)) with (last (b :: nexts)).
  destruct (last (b :: nexts)) eqn:Hlast; [reflexivity|].
  apply last_None in Hlast. discriminate Hlast.
Qed.

(** X18.  [Write] reports the last peer only.  When it returns, its error
    is the one the last next-hop peer of [bas] returned for the payload, and
    [nil] without peers: a refusal by an earlier peer, like any failure of a
    line, is not reported to the caller. *)
Theorem Write_reports_last_peer ic p precision db w w' err :
  Write range UnixNano ic p precision db w = Ret (w', err) ->
  err = match last (bas ic) with
        | Some n => API.Write n p
        | None => None
        end.
Proof.
  unfold Write. intros Hrun.
  destruct (Write_lines range UnixNano (length p) ic p precision db
              (count add_WriteRequests w)) as [[w1 err1]| | |] eqn:Hlines;
    try discriminate.
  destruct (Write_lines_calls _ _ _ _ _ _ _ _ _ _ Hlines) as (-> & _).
  destruct (0 <? length (bas ic))%nat eqn:Hbas.
  - inversion Hrun as [Heq].
    pose proof (Write_nexts_result (bas ic) p None w1) as Hres.
    rewrite Heq in Hres. exact Hres.
  - apply Nat.ltb_ge in Hbas. destruct (bas ic); [|cbn in Hbas; lia].
    inversion Hrun; subst. reflexivity.
Qed.

End Rows.

End WritePath.

(** ** backend/cluster.go: the query path, continued *)

Module QueryPath.

Import Cluster.

Section Candidates.

Context {B : Type} `{API.BackendAPI B} {Regexp : Type}.
Implicit Types (ic : @InfluxCluster B Regexp) (apis : list B) (w : @World B).

(** The backends that the first pass of [Query] may ask, and those that
    the second pass may ask. *)
Definition local_candidate ic (b : B) : bool :=
  String.eqb (API.GetZone b) (Zone ic) && API.IsActive b && negb (API.IsWriteOnly b).
Definition other_candidate ic (b : B) : bool :=
  negb (String.eqb (API.GetZone b) (Zone ic)) && API.IsActive b.

Definition candidates ic apis : list B :=
  List.filter (local_candidate ic) apis ++ List.filter (other_candidate ic) apis.

(** Asking backends in turn until one answers: the calls made, the last
    error and whether one answered. *)
Fixpoint attempts (cands : list B) (err : option error)
  : list (@event B) * option error * bool :=
  match cands with
  | [] => ([], err, false)
  | b :: rest =>
      match API.Query b with
      | None => ([BackendQuery b None], None, true)
      | Some e =>
          let '(trace, err', ok) := attempts rest (Some e) in
          (BackendQuery b (Some e) :: trace, err', ok)
      end
  end.

Lemma attempts_app (l1 l2 : list B) : forall err,
  attempts (l1 ++ l2) err
  = let '(t1, e1, ok1) := attempts l1 err in
    if ok1 then (t1, e1, true)
    else let '(t2, e2, ok2) := attempts l2 e1 in (t1 ++ t2, e2, ok2).
Proof.
  induction l1 as [|b l1 IH]; intros err; cbn [app attempts].
  - destruct (attempts l2 err) as [[t2 e2] ok2]. reflexivity.
  - destruct (API.Query b) as [e|]; [|reflexivity].
    rewrite IH. destruct (attempts l1 (Some e)) as [[t1 e1] ok1].
    destruct ok1; [reflexivity|].
    destruct (attempts l2 e1) as [[t2 e2] ok2]. reflexivity.
Qed.

Lemma Query_local_zone_attempts ic apis : forall err w,
  Query_local_zone ic apis err w
  = let '(trace, err', ok) := attempts (List.filter (local_candidate ic) apis) err in
    (mkWorld (stats w) (calls w ++ trace) (clock w), err', ok).
Proof.
  induction apis as [|api apis IH]; intros err w; cbn [Query_local_zone List.filter].
  - cbn. rewrite app_nil_r. destruct w; reflexivity.
  - unfold local_candidate at 1.
    destruct (String.eqb (API.GetZone api) (Zone ic)); cbn [negb andb]; [|apply IH].
    destruct (API.IsActive api); cbn [negb andb orb]; [|apply IH].
    destruct (API.IsWriteOnly api); cbn [negb]; [apply IH|].
    cbn [attempts]. destruct (API.Query api) as [e|].
    + rewrite IH.
      destruct (attempts (List.filter (local_candidate ic) apis) (Some e)) as [[t e'] ok].
      cbn. rewrite <- app_assoc. reflexivity.
    + reflexivity.
Qed.

Lemma Query_other_zone_attempts ic apis : forall err w,
  Query_other_zone ic apis err w
  = let '(trace, err', ok) := attempts (List.filter (other_candidate ic) apis) err in
    (mkWorld (stats w) (calls w ++ trace) (clock w), err', ok).
Proof.
  induction apis as [|api apis IH]; intros err w; cbn [Query_other_zone List.filter].
  - cbn. rewrite app_nil_r. destruct w; reflexivity.
  - unfold other_candidate at 1.
    destruct (String.eqb (API.GetZone api) (Zone ic)); cbn [negb andb]; [apply IH|].
    destruct (API.IsActive api); cbn [negb andb]; [|apply IH].
    cbn [attempts]. destruct (API.Query api) as [e|].
    + rewrite IH.
      destruct (attempts (List.filter (other_candidate ic) apis) (Some e)) as [[t e'] ok].
      cbn. rewrite <- app_assoc. reflexivity.
    + reflexivity.
Qed.

Lemma Query_dispatch_attempts ic apis w :
  Query_dispatch ic apis w
  = let '(trace, err, ok) := attempts (candidates ic apis) None in
    if ok then (mkWorld (stats w) (calls w ++ trace) (clock w), err)
    else (mkWorld (add_QueryRequestsFail (stats w))
            (calls w ++ trace ++ [WriteHeader 400; ResponseWrite query_error])
            (clock w), err).
Proof.
  unfold Query_dispatch, candidates.
  rewrite Query_local_zone_attempts, attempts_app.
  destruct (attempts (List.filter (local_candidate ic) apis) None) as [[t1 e1] ok1].
  destruct ok1; [reflexivity|].
  rewrite Query_other_zone_attempts.
  destruct (attempts (List.filter (other_candidate ic) apis) e1) as [[t2 e2] ok2].
  destruct ok2; unfold count, emit; cbn [stats calls clock];
    rewrite <- ?app_assoc; reflexivity.
Qed.

(** X19.  The two passes of [Query] ask one list in order: the active
    backends of the local zone that are not write-only, as listed, then the
    active backends of the other zones, as listed.  They stop at the first
    backend that answers, and it is exactly when none answers that the
    request is answered with 400 and counted as failed; the error returned
    is that of the last backend asked. *)
Theorem Query_dispatch_order ic apis w :
  let '(trace, err, ok) := attempts (candidates ic apis) None in
  Query_dispatch ic apis w
  = (mkWorld (if ok then stats w else add_QueryRequestsFail (stats w))
       (calls w ++ trace
          ++ (if ok then [] else [WriteHeader 400; ResponseWrite query_error]))
       (clock w), err).
Proof.
  pose proof (Query_dispatch_attempts ic apis w) as Hrun.
  destruct (attempts (candidates ic apis) None) as [[trace err] ok].
  rewrite Hrun. destruct ok; [rewrite app_nil_r|]; reflexivity.
Qed.

(** With no backend to ask (none is active, or the only active ones of the
    local zone are write-only), [Query] answers 400 without asking anyone and
    returns a [nil] error. *)
Corollary Query_dispatch_nobody ic apis w :
  candidates ic apis = [] ->
  Query_dispatch ic apis w
  = (mkWorld (add_QueryRequestsFail (stats w))
       (calls w ++ [WriteHeader 400; ResponseWrite query_error]) (clock w), None).
Proof.
  intros Hnone. rewrite Query_dispatch_attempts, Hnone. reflexivity.
Qed.

End Candidates.

Section Metadata.

Context {B : Type} `{API.BackendAPI B} {Regexp : Type}.

(** [http.Header], and [QueryResp] of the interface: the header and the
    body of the upstream's answer, or the error of the call. *)
Context {Header : Type}.
Variable QueryResp : B -> Header * bytes + error.

Variable range : gmap string (list B) -> list (string * list B).
Hypothesis range_entries : forall keyMap, range keyMap ≡ₚ map_to_list keyMap.

Implicit Types (ic : @InfluxCluster B Regexp) (v : list B).

(** The inner loop of [QueryAll] over the backends of one measurement: the
    backends asked, [need], the answer kept when [actu] is set, and [err]. *)
Fixpoint QueryAll_measurement ic v (need : bool) (err : option error)
  : list B * bool * option (Header * bytes) * option error :=
  match v with
  | [] => ([], need, None, err)
  | api :: rest =>
      if negb (String.eqb (API.GetZone api) (Zone ic)) then
        QueryAll_measurement ic rest need err
      else if negb (API.IsActive api) || API.IsWriteOnly api then
        QueryAll_measurement ic rest need err
      else
        match QueryResp api with
        | inr Err =>
            let '(asked, need', got, err') :=
              QueryAll_measurement ic rest true (Some Err) in
            (api :: asked, need', got, err')
        | inl answer => ([api], true, Some answer, err)
        end
  end.

(** The loop over the measurements of the database.  The result is
    [sHeader], [bodys] and [err]; a [nil] slice of bodies is [None]. *)
Fixpoint QueryAll_loop ic (entries : list (string * list B))
    (sHeader : option Header) (bodys : list bytes) (err : option error)
  : list B * (option Header * option (list bytes) * option error) :=
  match entries with
  | [] => ([], (sHeader, Some bodys, None))
  | (_, v) :: rest =>
      let '(asked, need, got, err) := QueryAll_measurement ic v false err in
      match got with
      | Some (header, sBody) =>
          let '(asked', result) :=
            QueryAll_loop ic rest (Some header) (bodys ++ [sBody]) err in
          (asked ++ asked', result)
      | None =>
          if need then (asked, (None, None, err))
          else
            let '(asked', result) := QueryAll_loop ic rest sHeader bodys err in
            (asked ++ asked', result)
      end
  end.

Definition QueryAll ic (db : string)
  : list B * (option Header * option (list bytes) * option error) :=
  QueryAll_loop ic (range (default ∅ (m2bs ic !! db))) None [] None.

(** A backend that [QueryAll] may ask, and the first answer among those of
    a measurement. *)
Definition readable ic (b : B) : bool :=
  String.eqb (API.GetZone b) (Zone ic) && API.IsActive b && negb (API.IsWriteOnly b).

Fixpoint first_answer ic v : option (Header * bytes) :=
  match v with
  | [] => None
  | api :: rest =>
      if readable ic api then
        match QueryResp api with
        | inl answer => Some answer
        | inr _ => first_answer ic rest
        end
      else first_answer ic rest
  end.

Lemma QueryAll_measurement_spec ic v : forall need err,
  exists asked need' err',
    QueryAll_measurement ic v need err = (asked, need', first_answer ic v, err')
    /\ need' = need || existsb (readable ic) v
    /\ Forall (fun b => In b v /\ readable ic b = true) asked
    /\ (first_answer ic v = None -> existsb (readable ic) v = true -> is_Some err')
    /\ (existsb (readable ic) v = false -> err' = err).
Proof.
  induction v as [|api rest IH]; intros need err; cbn [QueryAll_measurement first_answer existsb].
  - exists [], need, err. rewrite orb_false_r. repeat split; auto. discriminate.
  - assert (Hmono : forall asked,
              Forall (fun b => In b rest /\ readable ic b = true) asked ->
              Forall (fun b => In b (api :: rest) /\ readable ic b = true) asked).
    { intros asked Hall. eapply Forall_impl; [exact Hall|].
      intros b [Hin Hr]. split; [right; exact Hin | exact Hr]. }
    destruct (readable ic api) eqn:Hr; cbn [orb].
    + pose proof Hr as Hr'. unfold readable in Hr'.
      apply andb_true_iff in Hr' as [Hr' Hwo]. apply andb_true_iff in Hr' as [Hz Ha].
      apply negb_true_iff in Hwo. rewrite Hz, Ha, Hwo. cbn [negb orb].
      destruct (QueryResp api) as [answer|Err].
      * exists [api], true, err. rewrite orb_true_r.
        repeat split; auto; try discriminate.
        constructor; [split; [left; reflexivity | exact Hr] | constructor].
      * destruct (IH true (Some Err))
          as (asked & need' & err' & Heq & Hneed & Hall & Herr & Hsame).
        rewrite Heq. exists (api :: asked), need', err'. rewrite orb_true_r.
        cbn in Hneed. repeat split; auto; try discriminate.
        -- constructor; [split; [left; reflexivity | exact Hr] | auto].
        -- intros Hnone _. destruct (existsb (readable ic) rest) eqn:Hex; [auto|].
           rewrite (Hsame eq_refl). eexists; reflexivity.
    + destruct (IH need err) as (asked & need' & err' & Heq & Hneed & Hall & Herr & Hsame).
      exists asked, need', err'.
      assert (Hskip : QueryAll_measurement ic (api :: rest) need err
                      = QueryAll_measurement ic rest need err).
      { cbn [QueryAll_measurement]. unfold readable in Hr.
        destruct (String.eqb (API.GetZone api) (Zone ic)); [|reflexivity].
        destruct (API.IsActive api); [|reflexivity].
        destruct (API.IsWriteOnly api); [reflexivity | discriminate Hr]. }
      cbn [QueryAll_measurement] in Hskip. rewrite Hskip.
      repeat split; auto.
Qed.

(** The answers that [QueryAll] collects from the measurements visited. *)
Definition answers ic (entries : list (string * list B)) : list (Header * bytes) :=
  omap (fun entry => first_answer ic entry.2) entries.

(** A measurement some backend of which may be asked while none answers. *)
Definition unanswered ic v : Prop :=
  existsb (readable ic) v = true /\ first_answer ic v = None.

Lemma QueryAll_loop_asked ic (entries : list (string * list B)) :
  forall sHeader bodys err,
    Forall (fun b => readable ic b = true /\ exists k v, In (k, v) entries /\ In b v)
      (QueryAll_loop ic entries sHeader bodys err).1.
Proof.
  induction entries as [|[k v] rest IH]; intros sHeader bodys err; cbn [QueryAll_loop].
  - constructor.
  - destruct (QueryAll_measurement_spec ic v false err)
      as (asked & need' & err' & -> & _ & Hall & _).
    assert (Hasked : Forall (fun b => readable ic b = true
                                      /\ exists k0 v0, In (k0, v0) ((k, v) :: rest) /\ In b v0)
                       asked).
    { eapply Forall_impl; [exact Hall|]. intros b [Hin Hr].
      split; [exact Hr|]. exists k, v. split; [left; reflexivity | exact Hin]. }
    assert (Hrest : forall sHeader bodys err,
              Forall (fun b => readable ic b = true
                               /\ exists k0 v0, In (k0, v0) ((k, v) :: rest) /\ In b v0)
                (QueryAll_loop ic rest sHeader bodys err).1).
    { intros sH bd er. eapply Forall_impl; [apply IH|]. intros b (Hr & k0 & v0 & Hin & Hb).
      split; [exact Hr|]. exists k0, v0. split; [right; exact Hin | exact Hb]. }
    destruct (first_answer ic v) as [[header sBody]|].
    + specialize (Hrest (Some header) (bodys ++ [sBody]) err').
      destruct (QueryAll_loop ic rest (Some header) (bodys ++ [sBody]) err').
      cbn [fst] in *. apply Forall_app. auto.
    + destruct need'; [exact Hasked|].
      specialize (Hrest sHeader bodys err').
      destruct (QueryAll_loop ic rest sHeader bodys err').
      cbn [fst] in *. apply Forall_app. auto.
Qed.

Lemma QueryAll_loop_answered ic (entries : list (string * list B)) :
  forall sHeader bodys err,
    (forall k v, In (k, v) entries -> ~ unanswered ic v) ->
    (QueryAll_loop ic entries sHeader bodys err).2
    = (match last (answers ic entries) with
       | Some answer => Some answer.1
       | None => sHeader
       end, Some (bodys ++ map snd (answers ic entries)), None).
Proof.
  induction entries as [|[k v] rest IH]; intros sHeader bodys err Hok; cbn [QueryAll_loop].
  - cbn. rewrite app_nil_r. reflexivity.
  - destruct (QueryAll_measurement_spec ic v false err)
      as (asked & need' & err' & -> & Hneed & _).
    assert (Hrest : forall k0 v0, In (k0, v0) rest -> ~ unanswered ic v0)
      by (intros k0 v0 Hin; apply (Hok k0 v0); right; exact Hin).
    unfold answers. cbn [omap list_omap snd]. fold (answers ic rest).
    destruct (first_answer ic v) as [[header sBody]|] eqn:Hfirst.
    + specialize (IH (Some header) (bodys ++ [sBody]) err' Hrest).
      destruct (QueryAll_loop ic rest (Some header) (bodys ++ [sBody]) err').
      cbn [snd] in *. rewrite IH. cbn [map snd]. rewrite <- app_assoc. cbn [app].
      destruct (answers ic rest) as [|a others] eqn:Hans; [reflexivity|].
      change (last ((header, sBody) :: a :: others)) with (last (a :: others)).
      destruct (last (a :: others)) eqn:Hlast; [reflexivity|].
      apply last_None in Hlast. discriminate Hlast.
    + cbn in Hneed. subst need'.
      destruct (existsb (readable ic) v) eqn:Hex.
      * exfalso. apply (Hok k v); [left; reflexivity | split; assumption].
      * specialize (IH sHeader bodys err' Hrest).
        destruct (QueryAll_loop ic rest sHeader bodys err').
        cbn [snd] in *. exact IH.
Qed.

Lemma QueryAll_loop_unanswered ic (entries : list (string * list B)) :
  forall sHeader bodys err,
    (exists k v, In (k, v) entries /\ unanswered ic v) ->
    exists e, (QueryAll_loop ic entries sHeader bodys err).2 = (None, None, Some e).
Proof.
  induction entries as [|[k v] rest IH]; intros sHeader bodys err (k0 & v0 & Hin & Hun);
    [destruct Hin|]. cbn [QueryAll_loop].
  destruct (QueryAll_measurement_spec ic v false err)
    as (asked & need' & err' & -> & Hneed & _ & Herr & _).
  cbn in Hneed. subst need'.
  destruct (first_answer ic v) as [[header sBody]|] eqn:Hfirst.
  - destruct Hin as [Heq | Hin];
      [inversion Heq; subst; destruct Hun as [_ Hun]; congruence|].
    destruct (IH (Some header) (bodys ++ [sBody]) err' ltac:(eauto)) as [e He].
    destruct (QueryAll_loop ic rest (Some header) (bodys ++ [sBody]) err').
    exists e. exact He.
  - destruct (existsb (readable ic) v) eqn:Hex.
    + destruct (Herr eq_refl eq_refl) as [e ->]. exists e. reflexivity.
    + destruct Hin as [Heq | Hin];
        [inversion Heq; subst; destruct Hun as [Hun _]; congruence|].
      destruct (IH sHeader bodys err' ltac:(eauto)) as [e He].
      destruct (QueryAll_loop ic rest sHeader bodys err').
      exists e. exact He.
Qed.

Lemma range_In keyMap k v : In (k, v) (range keyMap) <-> keyMap !! k = Some v.
Proof.
  rewrite <- list_elem_of_In, (range_entries keyMap). apply elem_of_map_to_list.
Qed.

(** X20.  [QueryAll] asks only backends of the database's table that are
    of the local zone, active and not write-only. *)
Theorem QueryAll_asks_readable ic db :
  Forall (fun b => readable ic b = true
                   /\ exists keyMap k v,
                        m2bs ic !! db = Some keyMap /\ keyMap !! k = Some v /\ In b v)
    (QueryAll ic db).1.
Proof.
  unfold QueryAll. eapply Forall_impl; [apply QueryAll_loop_asked|].
  intros b (Hr & k & v & Hin & Hb). split; [exact Hr|].
  apply range_In in Hin. destruct (m2bs ic !! db) as [keyMap|]; cbn in Hin.
  - exists keyMap, k, v. auto.
  - rewrite lookup_empty in Hin. discriminate Hin.
Qed.

(** X21.  The fan-out of [QueryAll] fails as a whole, with no header and a
    [nil] slice of bodies, as soon as one measurement of the table has a
    backend to ask and gets no answer.  Otherwise it returns a [nil] error
    and one body for each measurement key that has a backend to ask, in the
    order of the visit, with the header of the last answer; an unknown
    database gives no body and no error. *)
Theorem QueryAll_outcome ic db :
  ((exists keyMap k v,
      m2bs ic !! db = Some keyMap /\ keyMap !! k = Some v /\ unanswered ic v) ->
   exists e, (QueryAll ic db).2 = (None, None, Some e))
  /\ ((forall keyMap k v,
         m2bs ic !! db = Some keyMap -> keyMap !! k = Some v -> ~ unanswered ic v) ->
      (QueryAll ic db).2
      = (fst <$> last (answers ic (range (default ∅ (m2bs ic !! db)))),
         Some (map snd (answers ic (range (default ∅ (m2bs ic !! db))))), None))
  /\ (m2bs ic !! db = None -> (QueryAll ic db).2 = (None, Some [], None)).
Proof.
  unfold QueryAll. split; [|split].
  - intros (keyMap & k & v & Hdb & Hk & Hun). apply QueryAll_loop_unanswered.
    exists k, v. split; [|exact Hun]. apply range_In. rewrite Hdb. exact Hk.
  - intros Hok. rewrite QueryAll_loop_answered.
    + destruct (last (answers ic (range (default ∅ (m2bs ic !! db))))); reflexivity.
    + intros k v Hin. apply range_In in Hin.
      destruct (m2bs ic !! db) as [keyMap|] eqn:Hdb; cbn in Hin.
      * apply (Hok keyMap k v eq_refl Hin).
      * rewrite lookup_empty in Hin. discriminate Hin.
  - intros Hdb. rewrite Hdb. cbn [default].
    assert (Hempty : range (∅ : gmap string (list B)) = []).
    { apply Permutation_nil. rewrite (range_entries ∅), map_to_list_empty. reflexivity. }
    rewrite Hempty. reflexivity.
Qed.

End Metadata.

End QueryPath.

(** ** backend/config.go *)

Module Config.

Record BasicAuth : Type := mkBasicAuth {
  Username : string;
  Password : string
}.

(** [BackendConfig]; a Go [int] is an integer of [Z] and the pointer
    [BasicAuth] is [nil] when [None]. *)
Record BackendConfig : Type := mkBackendConfig {
  URL : string;
  DB : string;
  Auth : option BasicAuth;
  Zone : string;
  Interval : Z;
  Timeout : Z;
  TimeoutQuery : Z;
  MaxRowLimit : Z;
  CheckInterval : Z;
  RewriteInterval : Z;
  WriteOnly : Z
}.

(** [NodeConfig]; its fields [Zone] and [Interval] are [NodeZone] and
    [NodeInterval] here. *)
Record NodeConfig : Type := mkNodeConfig {
  ListenAddr : string;
  NodeZone : string;
  Nexts : string;
  NodeInterval : Z;
  IdleTimeout : Z;
  WriteTracing : Z;
  QueryTracing : Z
}.

Record FileConfigSource : Type := mkFileConfigSource {
  node : string;
  BACKENDS : gmap string BackendConfig;
  KEYMAPS : gmap string (gmap string (list string));
  NODES : gmap string NodeConfig;
  DEFAULT_NODE : NodeConfig
}.

(** The zero value of [NodeConfig], which a map gives for a missing key. *)
Definition zero_NodeConfig : NodeConfig := mkNodeConfig "" "" "" 0 0 0 0.

Definition LoadNode (fcs : FileConfigSource) : NodeConfig * option error :=
  let nodecfg := default zero_NodeConfig (NODES fcs !! node fcs) in
  let nodecfg :=
    if String.eqb (ListenAddr nodecfg) "" then
      mkNodeConfig (ListenAddr (DEFAULT_NODE fcs)) (NodeZone nodecfg) (Nexts nodecfg)
        (NodeInterval nodecfg) (IdleTimeout nodecfg) (WriteTracing nodecfg)
        (QueryTracing nodecfg)
    else nodecfg in
  (nodecfg, None).

(** The assignments [cfg.Interval = v] and the like. *)
Definition set_Interval (v : Z) (cfg : BackendConfig) : BackendConfig :=
  mkBackendConfig (URL cfg) (DB cfg) (Auth cfg) (Zone cfg) v (Timeout cfg)
    (TimeoutQuery cfg) (MaxRowLimit cfg) (CheckInterval cfg) (RewriteInterval cfg)
    (WriteOnly cfg).
Definition set_Timeout (v : Z) (cfg : BackendConfig) : BackendConfig :=
  mkBackendConfig (URL cfg) (DB cfg) (Auth cfg) (Zone cfg) (Interval cfg) v
    (TimeoutQuery cfg) (MaxRowLimit cfg) (CheckInterval cfg) (RewriteInterval cfg)
    (WriteOnly cfg).
Definition set_TimeoutQuery (v : Z) (cfg : BackendConfig) : BackendConfig :=
  mkBackendConfig (URL cfg) (DB cfg) (Auth cfg) (Zone cfg) (Interval cfg) (Timeout cfg)
    v (MaxRowLimit cfg) (CheckInterval cfg) (RewriteInterval cfg) (WriteOnly cfg).
Definition set_MaxRowLimit (v : Z) (cfg : BackendConfig) : BackendConfig :=
  mkBackendConfig (URL cfg) (DB cfg) (Auth cfg) (Zone cfg) (Interval cfg) (Timeout cfg)
    (TimeoutQuery cfg) v (CheckInterval cfg) (RewriteInterval cfg) (WriteOnly cfg).
Definition set_CheckInterval (v : Z) (cfg : BackendConfig) : BackendConfig :=
  mkBackendConfig (URL cfg) (DB cfg) (Auth cfg) (Zone cfg) (Interval cfg) (Timeout cfg)
    (TimeoutQuery cfg) (MaxRowLimit cfg) v (RewriteInterval cfg) (WriteOnly cfg).
Definition set_RewriteInterval (v : Z) (cfg : BackendConfig) : BackendConfig :=
  mkBackendConfig (URL cfg) (DB cfg) (Auth cfg) (Zone cfg) (Interval cfg) (Timeout cfg)
    (TimeoutQuery cfg) (MaxRowLimit cfg) (CheckInterval cfg) v (WriteOnly cfg).

(** The body of the loop of [LoadBackends]: the copy [cfg] of [val], each
    of its six tunables replaced by its default when it is 0. *)
Definition with_defaults (val : BackendConfig) : BackendConfig :=
  let cfg := mkBackendConfig (URL val) (DB val) (Auth val) (Zone val) (Interval val)
               (Timeout val) (TimeoutQuery val) (MaxRowLimit val) (CheckInterval val)
               (RewriteInterval val) (WriteOnly val) in
  let cfg := if Interval cfg =? 0 then set_Interval 1000 cfg else cfg in
  let cfg := if Timeout cfg =? 0 then set_Timeout 10000 cfg else cfg in
  let cfg := if TimeoutQuery cfg =? 0 then set_TimeoutQuery 600000 cfg else cfg in
  let cfg := if MaxRowLimit cfg =? 0 then set_MaxRowLimit 10000 cfg else cfg in
  let cfg := if CheckInterval cfg =? 0 then set_CheckInterval 1000 cfg else cfg in
  let cfg := if RewriteInterval cfg =? 0 then set_RewriteInterval 10000 cfg else cfg in
  cfg.

(** The visits of Go's [for k, v := range m] over maps keyed by strings:
    every entry once, in an order that is not specified. *)
Definition visits (range : forall V : Type, gmap string V -> list (string * V)) : Prop :=
  forall (V : Type) (m : gmap string V), range V m ≡ₚ map_to_list m.

Section Loading.

Variable range : forall V : Type, gmap string V -> list (string * V).
Hypothesis range_visits : visits range.

Definition LoadBackends (fcs : FileConfigSource)
  : gmap string BackendConfig * option error :=
  (foldl (fun backends '(name, val) => <[name := with_defaults val]> backends) ∅
     (range _ (BACKENDS fcs)), None).

Definition LoadMeasurements (fcs : FileConfigSource)
  : gmap string (gmap string (list string)) * option error :=
  (KEYMAPS fcs, None).

(** A map built by assignments [m[k] = f(v)] along a visit of another map
    holds [f(v)] under every key of that map and nothing else. *)
Lemma foldl_insert_lookup {V W : Type} (f : string -> V -> W)
    (l : list (string * V)) : forall (acc : gmap string W) k,
  NoDup l.*1 ->
  foldl (fun acc '(k, v) => <[k := f k v]> acc) acc l !! k
  = match (list_to_map l : gmap string V) !! k with
    | Some v => Some (f k v)
    | None => acc !! k
    end.
Proof.
  induction l as [|[k0 v0] l IH]; intros acc k Hnodup; cbn [foldl].
  - rewrite list_to_map_nil, lookup_empty. reflexivity.
  - cbn in Hnodup. apply NoDup_cons in Hnodup as [Hnotin Hnodup].
    rewrite IH by exact Hnodup. rewrite list_to_map_cons.
    destruct (decide (k0 = k)) as [-> | Hne].
    + rewrite lookup_insert_eq.
      rewrite (not_elem_of_list_to_map_1 l k Hnotin), lookup_insert_eq. reflexivity.
    + rewrite !lookup_insert_ne by exact Hne. reflexivity.
Qed.

Lemma range_list_to_map {V : Type} (m : gmap string V) :
  NoDup (range V m).*1 /\ list_to_map (range V m) = m.
Proof.
  assert (Hnodup : NoDup (range V m).*1).
  { rewrite (range_visits V m). apply NoDup_fst_map_to_list. }
  split; [exact Hnodup|].
  rewrite (list_to_map_proper (range V m) (map_to_list m) Hnodup (range_visits V m)).
  apply list_to_map_to_list.
Qed.

Lemma visit_insert_lookup {V W : Type} (f : string -> V -> W) (m : gmap string V) k :
  foldl (fun acc '(k, v) => <[k := f k v]> acc) (∅ : gmap string W) (range V m) !! k
  = f k <$> m !! k.
Proof.
  destruct (range_list_to_map m) as [Hnodup Hmap].
  rewrite foldl_insert_lookup by exact Hnodup. rewrite Hmap, lookup_empty.
  destruct (m !! k); reflexivity.
Qed.





(** [LoadNode] never fails, and of [DEFAULT_NODE] it uses the listen address
    only, when the node has none.  A node that [NODES] does not name is loaded
    as the zero configuration with that address: its zone and its next-hop
    peers are empty. *)
Lemma LoadNode_fallback fcs :
  (LoadNode fcs).2 = None
  /\ match NODES fcs !! node fcs with
     | Some nodecfg =>
         (LoadNode fcs).1
         = mkNodeConfig
             (if String.eqb (ListenAddr nodecfg) "" then ListenAddr (DEFAULT_NODE fcs)
              else ListenAddr nodecfg)
             (NodeZone nodecfg) (Nexts nodecfg) (NodeInterval nodecfg)
             (IdleTimeout nodecfg) (WriteTracing nodecfg) (QueryTracing nodecfg)
     | None =>
         (LoadNode fcs).1 = mkNodeConfig (ListenAddr (DEFAULT_NODE fcs)) "" "" 0 0 0 0
     end.
Proof.
  split; [reflexivity|]. unfold LoadNode.
  destruct (NODES fcs !! node fcs) as [nodecfg|]; cbn [default fst]; [|reflexivity].
  destruct nodecfg as [addr z n i t wt qt]. cbn.
  destruct (String.eqb addr ""); reflexivity.
Qed.

End Loading.

End Config.

(** ** backend/backends.go: the worker, the flush task and the drainer *)

Module Pipeline.

Import Backend.

(** What wakes the worker in its [select]: a payload received from
    [ch_write], the closing of [ch_write], the flush timer, or the ticker. *)
Inductive wakeup : Type :=
| Received (p : bytes)
| ChannelClosed
| TimerFired
| Ticked.

(** What the worker does: an event of the backend, or a step of its
    shutdown, [bs.wg.Wait()], [bs.HttpBackend.Close()] and [bs.fb.Close()]. *)
Inductive action : Type :=
| Act (e : event)
| WaitFlushTasks
| CloseHttpBackend
| CloseFileBackend.

Definition shutdown : list action := [WaitFlushTasks; CloseHttpBackend; CloseFileBackend].

(** One turn of the [select] of [worker]; the boolean tells whether the
    worker goes back to the head of its loop. *)
Definition worker_select (wk : wakeup) (bs : Backends)
  : outcome (Backends * list action * bool) :=
  match wk with
  | Received p =>
      match WriteBuffer bs p with
      | Ret (bs', evs) => Ret (bs', map Act evs, true)
      | Fail e => Fail e
      | Panic msg => Panic msg
      | Timeout => Timeout
      end
  | ChannelClosed =>
      let '(bs', evs) := Flush bs in Ret (bs', map Act evs ++ shutdown, false)
  | TimerFired =>
      let '(bs', evs) := Flush bs in
      if negb (running bs') then Ret (bs', map Act evs ++ shutdown, false)
      else Ret (bs', map Act evs, true)
  | Ticked =>
      let '(bs', evs) := Idle bs in Ret (bs', map Act evs, true)
  end.

(** [worker]: [for bs.running { select ... }], run against the wakeups
    [wks] for as long as there are some. *)
Fixpoint worker (wks : list wakeup) (bs : Backends) : outcome (Backends * list action) :=
  match wks with
  | [] => Ret (bs, [])
  | wk :: wks' =>
      if negb (running bs) then Ret (bs, [])
      else
        match worker_select wk bs with
        | Ret (bs', acts, go_on) =>
            if go_on then
              match worker wks' bs' with
              | Ret (bs'', acts') => Ret (bs'', acts ++ acts')
              | Fail e => Fail e
              | Panic msg => Panic msg
              | Timeout => Timeout
              end
            else Ret (bs', acts)
        | Fail e => Fail e
        | Panic msg => Panic msg
        | Timeout => Timeout
        end
  end.

(** [Close]: the flag goes down and [ch_write] is closed. *)
Definition Close (bs : Backends) : Backends * option error :=
  (mkBackends (http bs) (fb bs) (Interval bs) (RewriteInterval bs) (MaxRowLimit bs)
     false (ch_write bs) (buffer bs) (ch_timer bs) (write_counter bs)
     (rewriter_running bs), None).

Section Construction.

(** [NewHttpBackend] and [NewFileBackend] are not among the sources. *)
Variable NewHttpBackend : Config.BackendConfig -> HttpBackend.
Variable NewFileBackend : string -> string -> FileBackend + error.

(** [NewBackends]: the backend, the error of [NewFileBackend] and whether
    the worker was started.  When [NewFileBackend] fails, [fb] is [nil]:
    here the empty spool. *)
Definition NewBackends (cfg : Config.BackendConfig) (name storedir : string)
  : Backends * option error * bool :=
  let bs fb := mkBackends (NewHttpBackend cfg) fb (Config.Interval cfg)
                 (Config.RewriteInterval cfg) (wrap32 (Config.MaxRowLimit cfg))
                 true [] None None 0 false in
  match NewFileBackend name storedir with
  | inr err => (bs (mkFileBackend [] 0 0), Some err, false)
  | inl fb => (bs fb, None, true)
  end.

End Construction.

(** The flush task that [Flush] starts on the bytes [p] of the buffer:
    [Compress], then the upstream if it is active, then the spool unless the
    upstream gave a terminal answer.  [Compress] and the error of
    [bs.fb.Write], if any, are given; the error of the spool is only logged. *)
Definition Flush_task (Compress : bytes -> bytes + error) (env : Env)
    (spool_error : option error) (spool : FileBackend) (p : bytes)
  : FileBackend * list event :=
  match Compress p with
  | inr _ => (spool, [])
  | inl z =>
      let to_spool trace :=
        match spool_error with
        | Some _ => (spool, trace)
        | None => (fb_Write spool z, trace)
        end in
      if env_IsActive env then
        let err := env_WriteCompressed env z in
        match err with
        | None | Some ErrBadRequest | Some ErrNotFound =>
            (spool, [HttpWriteCompressed z err])
        | Some _ => to_spool [HttpWriteCompressed z err]
        end
      else to_spool []
  end.

(** The payloads of the flush tasks started by a list of actions, and the
    bytes they carry in all. *)
Fixpoint flushes (acts : list action) : list bytes :=
  match acts with
  | [] => []
  | Act (GoFlush p) :: rest => p :: flushes rest
  | _ :: rest => flushes rest
  end.

Definition flushed (acts : list action) : bytes := concat (flushes acts).

(** A payload as it stands in the buffer: followed by a newline unless it
    ends with one. *)
Definition terminated (p : bytes) : bytes :=
  match last p with
  | Some c => if Ascii.eqb c "010" then p else p ++ ["010"%char]
  | None => p
  end.

(** The payloads that a list of wakeups delivers. *)
Fixpoint received (wks : list wakeup) : list bytes :=
  match wks with
  | [] => []
  | Received p :: rest => p :: received rest
  | _ :: rest => received rest
  end.

Section Buffer.

Implicit Types (bs : Backends) (p : bytes).

(** The state in which rows wait in the buffer: either nothing is
    buffered, no timer is armed and the counter is 0, or the buffer holds
    bytes, a timer is armed and the counter is below [MaxRowLimit]. *)
Definition buffer_inv bs : Prop :=
  match buffer bs with
  | None => ch_timer bs = None /\ write_counter bs = 0
  | Some b => b <> [] /\ is_Some (ch_timer bs) /\ 0 < write_counter bs < MaxRowLimit bs
  end.

(** What [WriteBuffer] returns for a payload whose last byte is [c]. *)
Definition buffering bs p (c : ascii) : Backends * list event :=
  let rows := default [] (buffer bs) ++ terminated p in
  let n := wrap32 (write_counter bs + 1) in
  if n >=? MaxRowLimit bs then
    (mkBackends (http bs) (fb bs) (Interval bs) (RewriteInterval bs) (MaxRowLimit bs)
       (running bs) (ch_write bs) None None 0 (rewriter_running bs), [GoFlush rows])
  else
    (mkBackends (http bs) (fb bs) (Interval bs) (RewriteInterval bs) (MaxRowLimit bs)
       (running bs) (ch_write bs) (Some rows)
       (Some (default (Interval bs) (ch_timer bs))) n (rewriter_running bs),
     match ch_timer bs with
     | None => [ArmTimer (Interval bs)]
     | Some _ => []
     end).

Lemma WriteBuffer_buffering bs p c :
  last p = Some c -> WriteBuffer bs p = Ret (buffering bs p c).
Proof.
  intros Hlast. assert (Hp : p <> []) by (intros ->; discriminate Hlast).
  unfold buffering, terminated. rewrite Hlast. rewrite last_lookup in Hlast.
  unfold WriteBuffer.
  replace (length p - 1)%nat with (pred (length p)) by lia. rewrite Hlast.
  destruct bs as [h f i r m run q buf t n rr].
  destruct buf as [buf|]; cbn;
    destruct (Ascii.eqb c "010"); cbn;
    destruct (wrap32 (n + 1) >=? m); cbn;
    rewrite ?app_nil_r, <- ?app_assoc;
    try (destruct t; reflexivity).
  all: unfold Flush; cbn.
  all: match goal with
       | |- context [(length ?l =? 0)%nat] =>
           replace (length l =? 0)%nat with false; [reflexivity|]
       end.
  all: symmetry; apply Nat.eqb_neq; rewrite ?length_app; destruct p; [congruence | cbn; lia].
Qed.

Lemma terminated_nonempty p : p <> [] -> terminated p <> [].
Proof.
  unfold terminated. intros Hp. destruct (last p) as [c|]; [|exact Hp].
  destruct (Ascii.eqb c "010"); [exact Hp|]. destruct p; discriminate.
Qed.

Lemma wrap32_small z : - 2 ^ 31 <= z <= 2 ^ 31 - 1 -> wrap32 z = z.
Proof. unfold wrap32, wrap. intros Hz. rewrite Z.mod_small; lia. Qed.

Lemma wrap32_range z : - 2 ^ 31 <= wrap32 z <= 2 ^ 31 - 1.
Proof.
  unfold wrap32, wrap.
  pose proof (Z.mod_pos_bound (z + 2 ^ (32 - 1)) (2 ^ 32) eq_refl). lia.
Qed.

Lemma buffering_inv bs p c :
  p <> [] -> buffer_inv bs -> MaxRowLimit bs <= 2 ^ 31 - 1 ->
  buffer_inv (buffering bs p c).1.
Proof.
  intros Hp Hinv Hmax. unfold buffering.
  assert (Hn : wrap32 (write_counter bs + 1) = write_counter bs + 1).
  { apply wrap32_small. unfold buffer_inv in Hinv.
    destruct (buffer bs); [lia | destruct Hinv as [_ ->]; lia]. }
  rewrite Hn.
  destruct (write_counter bs + 1 >=? MaxRowLimit bs) eqn:Hfull; cbn [fst].
  - split; reflexivity.
  - unfold buffer_inv. cbn [buffer ch_timer write_counter MaxRowLimit].
    assert (write_counter bs + 1 < MaxRowLimit bs).
    { destruct (Z.geb_spec (write_counter bs + 1) (MaxRowLimit bs)); [discriminate | lia]. }
    split; [|split; [eexists; reflexivity|]].
    + intros Hnil. apply app_eq_nil in Hnil as [_ Hnil].
      apply (terminated_nonempty p Hp Hnil).
    + unfold buffer_inv in Hinv.
      destruct (buffer bs); [lia | destruct Hinv as [_ Hzero]; lia].
Qed.

(** X23.  Buffered rows never wait without a timer.  A new backend starts
    with nothing buffered; after every [WriteBuffer] of a payload that is
    not empty and after every [Flush], either nothing is buffered, no timer
    is armed and the row counter is 0, or the buffer holds bytes, the flush
    timer is armed and the counter is positive and below [MaxRowLimit], a
    limit that [NewBackends] takes from the configuration modulo [2^32]. *)
Theorem buffer_invariant :
  (forall NewHttpBackend NewFileBackend cfg name storedir,
     let bs := (NewBackends NewHttpBackend NewFileBackend cfg name storedir).1.1 in
     buffer_inv bs /\ MaxRowLimit bs = wrap32 (Config.MaxRowLimit cfg)
     /\ - 2 ^ 31 <= MaxRowLimit bs <= 2 ^ 31 - 1)
  /\ (forall bs p,
        p <> [] -> buffer_inv bs -> MaxRowLimit bs <= 2 ^ 31 - 1 ->
        exists bs' evs, WriteBuffer bs p = Ret (bs', evs) /\ buffer_inv bs'
                        /\ MaxRowLimit bs' = MaxRowLimit bs)
  /\ (forall bs,
        buffer_inv bs ->
        buffer (Flush bs).1 = None /\ buffer_inv (Flush bs).1
        /\ MaxRowLimit (Flush bs).1 = MaxRowLimit bs).
Proof.
  split; [|split].
  - intros NewHttpBackend NewFileBackend cfg name storedir. unfold NewBackends.
    destruct (NewFileBackend name storedir); cbn;
      (split; [split; reflexivity | split; [reflexivity | apply wrap32_range]]).
  - intros bs p Hp Hinv Hmax.
    destruct (last p) as [c|] eqn:Hlast; [|apply last_None in Hlast; contradiction].
    rewrite (WriteBuffer_buffering bs p c Hlast).
    exists (buffering bs p c).1, (buffering bs p c).2.
    split; [destruct (buffering bs p c); reflexivity|].
    split; [apply buffering_inv; assumption|].
    unfold buffering. destruct (wrap32 (write_counter bs + 1) >=? MaxRowLimit bs); reflexivity.
  - intros bs Hinv. unfold Flush. destruct (buffer bs) as [b|] eqn:Hbuf.
    + destruct (length b =? 0)%nat; cbn;
        (split; [reflexivity | split; [split; reflexivity | reflexivity]]).
    + cbn [fst]. split; [exact Hbuf | split; [exact Hinv | reflexivity]].
Qed.

End Buffer.

Section Conservation.

Implicit Types (bs : Backends) (p : bytes).

Lemma flushes_app (a b : list action) : flushes (a ++ b) = flushes a ++ flushes b.
Proof.
  induction a as [|x a IH]; [reflexivity|].
  destruct x as [[]| | |]; cbn; rewrite IH; reflexivity.
Qed.

Lemma flushed_app (a b : list action) : flushed (a ++ b) = flushed a ++ flushed b.
Proof. unfold flushed. rewrite flushes_app. apply concat_app. Qed.

(** The wakeups after which the worker goes on: all but the closing of the
    channel; and the payloads received are not empty. *)
Definition keeps_going (wk : wakeup) : Prop :=
  match wk with
  | Received p => p <> []
  | ChannelClosed => False
  | TimerFired | Ticked => True
  end.

Lemma worker_select_conserves wk bs :
  keeps_going wk -> running bs = true ->
  exists bs' acts,
    worker_select wk bs = Ret (bs', acts, true)
    /\ running bs' = true
    /\ flushed acts ++ default [] (buffer bs')
       = default [] (buffer bs) ++ concat (map terminated (received [wk])).
Proof.
  intros Hwk Hrun. destruct wk as [p| | |]; cbn [worker_select received map concat].
  - cbn in Hwk. destruct (last p) as [c|] eqn:Hlast;
      [|apply last_None in Hlast; contradiction].
    rewrite (WriteBuffer_buffering bs p c Hlast). unfold buffering.
    destruct (wrap32 (write_counter bs + 1) >=? MaxRowLimit bs).
    + eexists _, _. split; [reflexivity|]. split; [exact Hrun|].
      cbn. rewrite !app_nil_r. reflexivity.
    + eexists _, _. split; [reflexivity|]. split; [exact Hrun|].
      rewrite app_nil_r. destruct (ch_timer bs); reflexivity.
  - destruct Hwk.
  - unfold Flush. destruct (buffer bs) as [b|] eqn:Hbuf.
    + destruct (length b =? 0)%nat eqn:Hlen;
        cbn [running set_write_counter set_ch_timer set_buffer]; rewrite Hrun; cbn [negb].
      * eexists _, _. split; [reflexivity|]. split; [exact Hrun|].
        apply Nat.eqb_eq in Hlen. destruct b; [reflexivity | discriminate Hlen].
      * eexists _, _. split; [reflexivity|]. split; [exact Hrun|].
        cbn. rewrite !app_nil_r. reflexivity.
    + rewrite Hrun. cbn [negb]. eexists _, _. split; [reflexivity|].
      split; [exact Hrun|]. rewrite Hbuf, app_nil_r. reflexivity.
  - unfold Idle. destruct (negb (rewriter_running bs) && fb_IsData (fb bs));
      (eexists _, _; split; [reflexivity|]; split; [exact Hrun|]);
      cbn; rewrite app_nil_r; reflexivity.
Qed.

Lemma worker_prefix (wks : list wakeup) : forall bs,
  Forall keeps_going wks -> running bs = true ->
  exists bs1 acts1,
    running bs1 = true
    /\ (forall rest,
          worker (wks ++ rest) bs
          = match worker rest bs1 with
            | Ret (bs2, acts2) => Ret (bs2, acts1 ++ acts2)
            | Fail e => Fail e
            | Panic msg => Panic msg
            | Timeout => Timeout
            end)
    /\ flushed acts1 ++ default [] (buffer bs1)
       = default [] (buffer bs) ++ concat (map terminated (received wks)).
Proof.
  induction wks as [|wk wks IH]; intros bs Hall Hrun.
  - exists bs, []. split; [exact Hrun|]. split.
    + intros rest. cbn [app]. destruct (worker rest bs) as [[bs2 acts2]| | |]; reflexivity.
    + cbn. rewrite app_nil_r. reflexivity.
  - inversion Hall as [|? ? Hwk Hrest]; subst.
    destruct (worker_select_conserves wk bs Hwk Hrun) as (bs' & acts & Hsel & Hrun' & Hcons).
    destruct (IH bs' Hrest Hrun') as (bs1 & acts1 & Hrun1 & Hworker & Hcons1).
    exists bs1, (acts ++ acts1). split; [exact Hrun1|]. split.
    + intros rest. cbn [app worker]. rewrite Hrun, Hsel. cbn [negb]. rewrite Hworker.
      destruct (worker rest bs1) as [[bs2 acts2]| | |]; [|reflexivity..].
      rewrite app_assoc. reflexivity.
    + rewrite flushed_app, <- app_assoc, Hcons1, app_assoc, Hcons.
      rewrite <- app_assoc. f_equal.
      replace (received (wk :: wks)) with (received [wk] ++ received wks)
        by (destruct wk; reflexivity).
      rewrite map_app, concat_app. reflexivity.
Qed.

(** X24.  Nothing that reaches the worker is lost or reordered.  A running
    worker that is woken by payloads that are not empty, by its timer and by
    its ticker, in any order, and then finds [ch_write] closed, has handed to
    its flush tasks, in all, the bytes that were buffered followed by the
    payloads in the order received, each closed by a newline unless it ends
    with one; it leaves the buffer empty and ends by waiting for the flush
    tasks and closing the upstream client and then the spool. *)
Theorem worker_conserves (wks : list wakeup) bs :
  Forall keeps_going wks -> running bs = true ->
  exists bs' acts,
    worker (wks ++ [ChannelClosed]) bs = Ret (bs', acts ++ shutdown)
    /\ flushed acts = default [] (buffer bs) ++ concat (map terminated (received wks))
    /\ flushes shutdown = []
    /\ default [] (buffer bs') = [].
Proof.
  intros Hall Hrun.
  destruct (worker_prefix wks bs Hall Hrun) as (bs1 & acts1 & Hrun1 & Hworker & Hcons).
  rewrite Hworker. cbn [worker worker_select]. rewrite Hrun1. cbn [negb].
  unfold Flush. unfold Flush in Hcons. destruct (buffer bs1) as [b|] eqn:Hbuf.
  - destruct (length b =? 0)%nat eqn:Hlen.
    + apply Nat.eqb_eq in Hlen. destruct b; [|discriminate Hlen].
      eexists _, acts1. cbn [map app]. split; [reflexivity|].
      rewrite <- Hcons. cbn. rewrite app_nil_r. auto.
    + eexists _, (acts1 ++ [Act (GoFlush b)]). cbn [map app].
      rewrite <- app_assoc. split; [reflexivity|].
      rewrite flushed_app, <- Hcons. cbn. rewrite app_nil_r. auto.
  - eexists _, acts1. cbn [map app]. split; [reflexivity|].
    rewrite <- Hcons. cbn. rewrite app_nil_r. rewrite Hbuf. auto.
Qed.

End Conservation.

Section Spooling.

Variable Compress : bytes -> bytes + error.

(** X25.  A batch that compresses is sent upstream at most once, and it is
    appended to the spool exactly when the upstream is not active or does
    not give a terminal answer (an acknowledgement, [ErrBadRequest] or
    [ErrNotFound]), provided that the spool accepts it; the records already
    in the spool and its offsets are never touched.  A batch that does not
    compress is dropped without any call. *)
Theorem Flush_task_spools (env : Env) spool_error (spool : FileBackend) (p z : bytes) :
  (Compress p = inl z ->
   let '(spool', trace) := Flush_task Compress env spool_error spool p in
   trace = (if env_IsActive env
            then [HttpWriteCompressed z (env_WriteCompressed env z)] else [])
   /\ meta spool' = meta spool /\ cursor spool' = cursor spool
   /\ records spool'
      = records spool
        ++ (if negb (env_IsActive env && terminal (env_WriteCompressed env z))
               && negb (bool_decide (is_Some spool_error))
            then [z] else []))
  /\ (forall e, Compress p = inr e ->
        Flush_task Compress env spool_error spool p = (spool, [])).
Proof.
  unfold Flush_task. split.
  - intros ->. destruct (env_IsActive env); cbn [andb negb].
    + destruct (env_WriteCompressed env z) as [[]|]; cbn [terminal negb andb];
        destruct spool_error; cbn; rewrite ?app_nil_r; auto.
    + destruct spool_error; cbn; rewrite ?app_nil_r; auto.
  - intros e ->. reflexivity.
Qed.

End Spooling.

Section Drainer.

Implicit Types (bs : Backends).

(** [n] calls of [Idle] in a row. *)
Fixpoint Idles (n : nat) bs : Backends * list event :=
  match n with
  | O => (bs, [])
  | S n' =>
      let '(bs', evs) := Idle bs in
      let '(bs'', evs') := Idles n' bs' in (bs'', evs ++ evs')
  end.

Lemma Idle_running bs : rewriter_running bs = true -> Idle bs = (bs, []).
Proof. unfold Idle. intros ->. reflexivity. Qed.

Lemma Idles_running n : forall bs, rewriter_running bs = true -> Idles n bs = (bs, []).
Proof.
  induction n as [|n IH]; intros bs Hrun; [reflexivity|].
  cbn [Idles]. rewrite (Idle_running bs Hrun), (IH bs Hrun). reflexivity.
Qed.

Lemma Idles_no_data n : forall bs, fb_IsData (fb bs) = false -> Idles n bs = (bs, []).
Proof.
  induction n as [|n IH]; intros bs Hdata; [reflexivity|].
  cbn [Idles]. unfold Idle. rewrite Hdata, andb_false_r. rewrite (IH bs Hdata). reflexivity.
Qed.

(** X26.  At most one drainer per backend.  However many times [Idle]
    runs in a row, it starts a drainer once at most, and it starts one
    exactly when it runs at all, none is marked as running and the spool has
    a record to deliver. *)
Theorem Idle_starts_one_drainer n bs :
  (Idles n bs).2
  = if (0 <? n)%nat && negb (rewriter_running bs) && fb_IsData (fb bs)
    then [GoRewriteLoop] else [].
Proof.
  destruct n as [|n]; [reflexivity|]. cbn [Idles Nat.ltb Nat.leb andb]. unfold Idle.
  destruct (rewriter_running bs) eqn:Hrun; cbn [negb andb].
  - rewrite (Idles_running n bs Hrun). reflexivity.
  - destruct (fb_IsData (fb bs)) eqn:Hdata.
    + rewrite Idles_running by reflexivity. reflexivity.
    + rewrite (Idles_no_data n bs Hdata). reflexivity.
Qed.

(** The calls of one turn of the drainer that delivers the record [r]. *)
Definition delivery (env : Env) (r : bytes) : list event :=
  [SpoolRead; HttpWriteCompressed r (env_WriteCompressed env r); SpoolUpdateMeta].

(** Surroundings in which the drainer makes progress: the upstream is
    active and answers every record with a terminal answer, and the spool
    reads and commits without error. *)
Definition settles (env : Env) : Prop :=
  env_IsActive env = true
  /\ (forall p, terminal (env_WriteCompressed env p) = true)
  /\ env_Read env = None /\ env_UpdateMeta env = None.

(** One turn of the drainer in such surroundings, on a spool whose next
    record is [rec]: the record is read, answered and committed. *)
Lemma RewriteLoop_step_delivers env bs rec :
  settles env -> running bs = true ->
  cursor (fb bs) = meta (fb bs) ->
  records (fb bs) !! meta (fb bs) = Some rec ->
  RewriteLoop_step env bs
  = (mkBackends (http bs)
       (mkFileBackend (records (fb bs)) (S (meta (fb bs))) (S (meta (fb bs))))
       (Interval bs) (RewriteInterval bs) (MaxRowLimit bs) (running bs) (ch_write bs)
       (buffer bs) (ch_timer bs) (write_counter bs) (rewriter_running bs),
     delivery env rec, true).
Proof.
  intros (Hactive & Hterm & Hread & Hupdate) Hrun Hcur Hrec.
  destruct bs as [h [recs m c] i r mx run q buf t cnt rr].
  cbn [fb records meta cursor running] in *. subst c run.
  unfold RewriteLoop_step, fb_IsData. cbn [fb records meta running].
  replace (m <? length recs)%nat with true
    by (symmetry; apply Nat.ltb_lt; apply lookup_lt_Some in Hrec; exact Hrec).
  cbn [negb]. rewrite Hactive. cbn [negb].
  unfold Rewrite, fb_Read. rewrite Hread. cbn [fb records cursor meta]. rewrite Hrec.
  specialize (Hterm rec). unfold delivery.
  destruct (env_WriteCompressed env rec) as [[]|]; cbn [terminal] in Hterm;
    try discriminate Hterm; cbn [set_fb fb]; rewrite Hupdate; reflexivity.
Qed.

Lemma RewriteLoop_settles env (k : nat) : forall bs n,
  settles env -> running bs = true ->
  cursor (fb bs) = meta (fb bs) ->
  (meta (fb bs) + k = length (records (fb bs)))%nat ->
  (k < n)%nat ->
  RewriteLoop (replicate n env) bs
  = (mkBackends (http bs)
       (mkFileBackend (records (fb bs)) (length (records (fb bs)))
          (length (records (fb bs))))
       (Interval bs) (RewriteInterval bs) (MaxRowLimit bs) (running bs) (ch_write bs)
       (buffer bs) (ch_timer bs) (write_counter bs) false,
     concat (map (delivery env) (drop (meta (fb bs)) (records (fb bs))))).
Proof.
  induction k as [|k IH]; intros bs n Hsettles Hrun Hcur Hlen Hn;
    (destruct n as [|n]; [lia|]); cbn [replicate RewriteLoop].
  - unfold RewriteLoop_step, fb_IsData.
    replace (meta (fb bs) <? length (records (fb bs)))%nat with false
      by (symmetry; apply Nat.ltb_ge; lia).
    cbn [negb]. rewrite drop_ge by lia. cbn [map concat].
    destruct bs as [h [recs m c] i r mx run q buf t cnt rr].
    cbn [fb records meta cursor] in *. subst c.
    replace m with (length recs) by lia. reflexivity.
  - destruct (records (fb bs) !! meta (fb bs)) as [rec|] eqn:Hrec;
      [|apply lookup_ge_None in Hrec; lia].
    rewrite (RewriteLoop_step_delivers env bs rec Hsettles Hrun Hcur Hrec).
    rewrite IH by (cbn [fb records meta cursor running]; auto; lia).
    cbn [fb records meta http Interval RewriteInterval MaxRowLimit running ch_write
         buffer ch_timer write_counter].
    rewrite (drop_S _ rec _ Hrec). reflexivity.
Qed.

(** X27.  Against an active upstream that gives every record a terminal
    answer, and a spool that works, the drainer delivers the records not yet
    committed in the order of the spool, each once and each committed right
    after its answer; with one turn more than there are such records it
    leaves the spool without data and resets [rewriter_running]. *)
Theorem RewriteLoop_drains env bs n :
  settles env -> running bs = true ->
  cursor (fb bs) = meta (fb bs) ->
  (meta (fb bs) <= length (records (fb bs)))%nat ->
  (length (records (fb bs)) - meta (fb bs) < n)%nat ->
  let '(bs', trace) := RewriteLoop (replicate n env) bs in
  trace = concat (map (delivery env) (drop (meta (fb bs)) (records (fb bs))))
  /\ fb_IsData (fb bs') = false
  /\ records (fb bs') = records (fb bs)
  /\ rewriter_running bs' = false.
Proof.
  intros Hsettles Hrun Hcur Hle Hn.
  rewrite (RewriteLoop_settles env (length (records (fb bs)) - meta (fb bs)) bs n)
    by (auto; lia).
  cbn. split; [reflexivity|]. split; [apply Nat.ltb_irrefl | auto].
Qed.

End Drainer.

End Pipeline.

(** ** backend/cluster.go: loading the configuration *)

Module Reload.

Import Cluster.

(** [strings.Split(s, sep)] for a one-byte separator. *)
Definition strings_Split (s : string) (sep : ascii) : list string :=
  map string_of (bytes_Split (bytes_of s) sep).

Section Names.

Context {B : Type}.
Implicit Types (backends : gmap string B) (names : list string).

(** The loop that [loadBackends] runs over the names of [nexts] and
    [loadMeasurements] over the names of a measurement: a known name adds its
    backend to the slice, an unknown one sets [err] and is skipped. *)
Fixpoint known_backends backends names (apis : list B) (err : option error)
  : list B * option error :=
  match names with
  | [] => (apis, err)
  | name :: rest =>
      match backends !! name with
      | None => known_backends backends rest apis (Some ErrBackendNotExist)
      | Some api => known_backends backends rest (apis ++ [api]) err
      end
  end.

Lemma known_backends_spec backends names : forall apis err,
  known_backends backends names apis err
  = (apis ++ omap (fun name => backends !! name) names,
     if forallb (fun name => bool_decide (is_Some (backends !! name))) names
     then err else Some ErrBackendNotExist).
Proof.
  induction names as [|name rest IH]; intros apis err; cbn [known_backends omap list_omap forallb].
  - rewrite app_nil_r. reflexivity.
  - destruct (backends !! name) as [api|] eqn:Hname; rewrite IH.
    + rewrite bool_decide_true by eauto. cbn [andb]. rewrite <- app_assoc. reflexivity.
    + rewrite bool_decide_false by (intros [? ?]; discriminate). cbn [andb].
      destruct (forallb _ rest); reflexivity.
Qed.

End Names.

Section Measurements.

Context {B : Type}.
Variable range : forall V : Type, gmap string V -> list (string * V).
Hypothesis range_visits : Config.visits range.

Implicit Types (backends : gmap string B).

(** The loop over the measurements of one database. *)
Definition loadMeasurements_db backends (measurementsMap : gmap string (list string))
    (err : option error) : gmap string (list B) * option error :=
  foldl (fun '(measurementBackendAPIMap, err) '(measurementName, backendNames) =>
           let '(backendAPIS, err) := known_backends backends backendNames [] err in
           (<[measurementName := backendAPIS]> measurementBackendAPIMap, err))
    (∅, err) (range _ measurementsMap).

Definition loadMeasurements backends (fcs : Config.FileConfigSource)
  : gmap string (gmap string (list B)) * option error :=
  let '(m_map, err) := Config.LoadMeasurements fcs in
  match err with
  | Some e => (∅, Some e)
  | None =>
      foldl (fun '(m2bs, err) '(dbName, measurementsMap) =>
               let '(measurementBackendAPIMap, err) :=
                 loadMeasurements_db backends measurementsMap err in
               (<[dbName := measurementBackendAPIMap]> m2bs, err))
        (∅, None) (range _ m_map)
  end.

(** The known backends of a list of names, in the order of the names, and
    whether a list, a database or a table names an unknown backend. *)
Definition resolved backends (names : list string) : list B :=
  omap (fun name => backends !! name) names.

Definition dangling backends (names : list string) : Prop :=
  exists name, In name names /\ backends !! name = None.

Lemma foldl_ext {A E : Type} (f g : A -> E -> A) (l : list E) :
  (forall a e, f a e = g a e) -> forall a, foldl f a l = foldl g a l.
Proof.
  intros Hfg. induction l as [|e l IH]; intros a; [reflexivity|].
  cbn [foldl]. rewrite Hfg. apply IH.
Qed.

(** A loop that assigns [m[k] = g(v)] along a visit and sets [err] when
    [bad v] holds assigns as the visit without [err] does, and ends with
    [err] set exactly when some visited value is bad. *)
Lemma foldl_insert_err {V W : Type} (g : V -> W) (bad : V -> bool) (E : error)
    (l : list (string * V)) : forall (acc : gmap string W) (err : option error),
  foldl (fun '(m, err) '(k, v) => (<[k := g v]> m, if bad v then Some E else err))
    (acc, err) l
  = (foldl (fun m '(k, v) => <[k := g v]> m) acc l,
     if existsb (fun entry => bad entry.2) l then Some E else err).
Proof.
  induction l as [|[k v] l IH]; intros acc err; [reflexivity|].
  cbn [foldl existsb snd]. rewrite IH. destruct (bad v); cbn [orb]; [|reflexivity].
  destruct (existsb (fun entry => bad entry.2) l); reflexivity.
Qed.

Definition unknown_in backends (names : list string) : bool :=
  negb (forallb (fun name => bool_decide (is_Some (backends !! name))) names).

Lemma unknown_in_dangling backends names :
  unknown_in backends names = true <-> dangling backends names.
Proof.
  unfold unknown_in, dangling. rewrite negb_true_iff. split.
  - intros Hfalse. induction names as [|name rest IH]; [discriminate|].
    cbn [forallb] in Hfalse. apply andb_false_iff in Hfalse as [Hname | Hrest].
    + exists name. split; [left; reflexivity|].
      apply bool_decide_eq_false in Hname. destruct (backends !! name); [|reflexivity].
      exfalso. apply Hname. eauto.
    + destruct (IH Hrest) as (n & Hin & Hn). exists n. split; [right; exact Hin | exact Hn].
  - intros (name & Hin & Hname). destruct (forallb _ names) eqn:Hall; [|reflexivity].
    rewrite forallb_forall in Hall. specialize (Hall name Hin).
    apply bool_decide_eq_true in Hall. rewrite Hname in Hall. destruct Hall. discriminate.
Qed.

Lemma loadMeasurements_db_spec backends (ms : gmap string (list string)) err :
  loadMeasurements_db backends ms err
  = (resolved backends <$> ms,
     if existsb (fun entry => unknown_in backends entry.2) (range _ ms)
     then Some ErrBackendNotExist else err).
Proof.
  unfold loadMeasurements_db.
  rewrite (foldl_ext _ (fun '(m, err) '(k, v) =>
             (<[k := resolved backends v]> m,
              if unknown_in backends v then Some ErrBackendNotExist else err))).
  2:{ intros [m e] [k v]. rewrite known_backends_spec. unfold unknown_in, resolved.
      cbn [app]. destruct (forallb _ v); reflexivity. }
  rewrite (foldl_insert_err (resolved backends) (unknown_in backends)). f_equal.
  apply map_eq. intros k.
  rewrite (Config.visit_insert_lookup range range_visits (fun _ => resolved backends) ms k).
  rewrite lookup_fmap. reflexivity.
Qed.

Lemma range_existsb {V : Type} (bad : V -> bool) (m : gmap string V) :
  existsb (fun entry => bad entry.2) (range V m) = true
  <-> exists k v, m !! k = Some v /\ bad v = true.
Proof.
  rewrite existsb_exists. split.
  - intros ([k v] & Hin & Hbad). exists k, v. split; [|exact Hbad].
    apply list_elem_of_In in Hin. rewrite (range_visits V m) in Hin.
    apply elem_of_map_to_list in Hin. exact Hin.
  - intros (k & v & Hk & Hbad). exists (k, v). split; [|exact Hbad].
    apply list_elem_of_In. rewrite (range_visits V m).
    apply elem_of_map_to_list. exact Hk.
Qed.

(** A table that names an unknown backend. *)
Definition dangling_table backends (m_map : gmap string (gmap string (list string)))
  : Prop :=
  exists dbName ms measurementName names,
    m_map !! dbName = Some ms /\ ms !! measurementName = Some names
    /\ dangling backends names.

(** The table of [KEYMAPS] with every list of names resolved. *)
Definition resolved_table backends (m_map : gmap string (gmap string (list string)))
  : gmap string (gmap string (list B)) :=
  (fun ms : gmap string (list string) => resolved backends <$> ms) <$> m_map.

Lemma loadMeasurements_spec backends fcs :
  (loadMeasurements backends fcs).1 = resolved_table backends (Config.KEYMAPS fcs)
  /\ (dangling_table backends (Config.KEYMAPS fcs) ->
      (loadMeasurements backends fcs).2 = Some ErrBackendNotExist)
  /\ (~ dangling_table backends (Config.KEYMAPS fcs) ->
      (loadMeasurements backends fcs).2 = None).
Proof.
  unfold loadMeasurements, Config.LoadMeasurements.
  set (bad := fun ms : gmap string (list string) =>
                existsb (fun entry => unknown_in backends entry.2) (range _ ms)).
  rewrite (foldl_ext _ (fun '(m, err) '(k, v) =>
             (<[k := resolved backends <$> v]> m,
              if bad v then Some ErrBackendNotExist else err))).
  2:{ intros [m e] [k v]. rewrite loadMeasurements_db_spec. reflexivity. }
  rewrite (foldl_insert_err (fun ms : gmap string (list string) => resolved backends <$> ms)
             bad).
  cbn [fst snd].
  assert (Hbad : existsb (fun entry => bad entry.2) (range _ (Config.KEYMAPS fcs)) = true
                 <-> dangling_table backends (Config.KEYMAPS fcs)).
  { rewrite range_existsb. unfold dangling_table, bad. split.
    - intros (db & ms & Hdb & Hms). apply range_existsb in Hms as (m & names & Hm & Hn).
      apply unknown_in_dangling in Hn. eauto 8.
    - intros (db & ms & m & names & Hdb & Hm & Hn). exists db, ms. split; [exact Hdb|].
      apply range_existsb. exists m, names. split; [exact Hm|].
      apply unknown_in_dangling. exact Hn. }
  split; [|split].
  - apply map_eq. intros db.
    rewrite (Config.visit_insert_lookup range range_visits
               (fun _ (ms : gmap string (list string)) => resolved backends <$> ms)
               (Config.KEYMAPS fcs) db).
    unfold resolved_table. rewrite lookup_fmap. reflexivity.
  - intros Hd. apply Hbad in Hd. rewrite Hd. reflexivity.
  - intros Hnd. destruct (existsb _ (range _ (Config.KEYMAPS fcs))) eqn:Hex; [|reflexivity].
    exfalso. apply Hnd, Hbad. reflexivity.
Qed.

(** X28.  [loadMeasurements] builds the same table whatever the order of
    the visits: every measurement of [KEYMAPS] gets its known backends, in
    the order of its names, the unknown names being left out.  It returns
    [ErrBackendNotExist] exactly when some name of the table is unknown, and
    no error otherwise. *)
Theorem loadMeasurements_table backends fcs :
  (loadMeasurements backends fcs).1 = resolved_table backends (Config.KEYMAPS fcs)
  /\ (dangling_table backends (Config.KEYMAPS fcs) ->
      (loadMeasurements backends fcs).2 = Some ErrBackendNotExist)
  /\ (~ dangling_table backends (Config.KEYMAPS fcs) ->
      (loadMeasurements backends fcs).2 = None).
Proof. exact (loadMeasurements_spec backends fcs). Qed.

End Measurements.

Section Cluster.

Context {Regexp : Type}.
Variable range : forall V : Type, gmap string V -> list (string * V).
Hypothesis range_visits : Config.visits range.

Variable NewHttpBackend : Config.BackendConfig -> Backend.HttpBackend.
Variable NewFileBackend : string -> string -> Backend.FileBackend + error.

(** The fields of [InfluxCluster] that [LoadConfig] reads and replaces,
    around those of the cluster that routes. *)
Record Node : Type := mkNode {
  ic : @InfluxCluster Backend.Backends Regexp;
  backends : gmap string Backend.Backends;
  nexts : string;
  cfgsrc : Config.FileConfigSource;
  storedir : string
}.

(** What a reload does besides replacing the state: the workers started by
    [NewBackends] and the backends closed, by name. *)
Inductive effect : Type :=
| WorkerStarted (name : string)
| Closed (name : string).

(** The loop of [loadBackends] over the configurations: it returns at the
    first [NewBackends] that fails, the failed backend being in the map. *)
Fixpoint loadBackends_new (dir : string) (entries : list (string * Config.BackendConfig))
    (backends : gmap string Backend.Backends) (effects : list effect)
  : gmap string Backend.Backends * option error * list effect :=
  match entries with
  | [] => (backends, None, effects)
  | (name, cfg) :: rest =>
      let '(bs, err, started) :=
        Pipeline.NewBackends NewHttpBackend NewFileBackend cfg name dir in
      let backends := <[name := bs]> backends in
      let effects := if started then effects ++ [WorkerStarted name] else effects in
      match err with
      | Some e => (backends, Some e, effects)
      | None => loadBackends_new dir rest backends effects
      end
  end.

Definition loadBackends (n : Node)
  : gmap string Backend.Backends * list Backend.Backends * option error * list effect :=
  let '(bkcfgs, err) := Config.LoadBackends range (cfgsrc n) in
  match err with
  | Some e => (∅, [], Some e, [])
  | None =>
      let '(backends, err, effects) :=
        loadBackends_new (storedir n) (range _ bkcfgs) ∅ [] in
      match err with
      | Some e => (backends, [], Some e, effects)
      | None =>
          if negb (String.eqb (nexts n) "") then
            let '(bas, err) :=
              known_backends backends (strings_Split (nexts n) ",") [] None in
            (backends, bas, err, effects)
          else (backends, [], None, effects)
      end
  end.

Definition LoadConfig (n : Node) : Node * option error * list effect :=
  let '(backends', bas', err, effects) := loadBackends n in
  match err with
  | Some e => (n, Some e, effects)
  | None =>
      let '(m2bs', err) := loadMeasurements range backends' (cfgsrc n) in
      match err with
      | Some e => (n, Some e, effects)
      | None =>
          let orig_backends := backends n in
          let n' := mkNode (mkInfluxCluster (Zone (ic n)) (ForbiddenQuery (ic n))
                              (ObligatedQuery (ic n)) bas' m2bs')
                      backends' (nexts n) (cfgsrc n) (storedir n) in
          (n', None, effects ++ map (fun entry => Closed entry.1) (range _ orig_backends))
      end
  end.

(** The backend that [NewBackends] builds for a loaded configuration, when
    the spool opens. *)
Definition built (dir name : string) (cfg : Config.BackendConfig) : Backend.Backends :=
  (Pipeline.NewBackends NewHttpBackend NewFileBackend cfg name dir).1.1.

Lemma loadBackends_new_ok dir (entries : list (string * Config.BackendConfig)) :
  forall acc effects,
    (forall name cfg, In (name, cfg) entries ->
       exists spool, NewFileBackend name dir = inl spool) ->
    loadBackends_new dir entries acc effects
    = (foldl (fun m '(name, cfg) => <[name := built dir name cfg]> m) acc entries,
       None, effects ++ map (fun entry => WorkerStarted entry.1) entries).
Proof.
  induction entries as [|[name cfg] rest IH]; intros acc effects Hok.
  - cbn. rewrite app_nil_r. reflexivity.
  - destruct (Hok name cfg ltac:(left; reflexivity)) as [spool Hspool].
    assert (Hnew : Pipeline.NewBackends NewHttpBackend NewFileBackend cfg name dir
                   = (built dir name cfg, None, true)).
    { unfold built, Pipeline.NewBackends. rewrite Hspool. reflexivity. }
    cbn [loadBackends_new foldl map fst]. rewrite Hnew.
    rewrite IH by (intros n0 c0 Hin; apply (Hok n0 c0); right; exact Hin).
    rewrite <- app_assoc. reflexivity.
Qed.

(** A reload whose configuration names an unknown backend, in [nexts] or in
    [KEYMAPS], while every spool opens. *)
Definition names_unknown (n : Node) (loaded : gmap string Backend.Backends) : Prop :=
  (nexts n <> ""%string /\ dangling loaded (strings_Split (nexts n) ","))
  \/ dangling_table loaded (Config.KEYMAPS (cfgsrc n)).

(** X29.  A reload is all or nothing, and it does not skip unknown names.
    When every spool opens, [LoadConfig] builds one backend for each entry
    of [BACKENDS] and starts its worker.  If [nexts] or [KEYMAPS] names a
    backend that [BACKENDS] does not have, it returns [ErrBackendNotExist]
    and leaves the cluster as it was, closing nothing, the new workers
    included.  Otherwise it installs the new backends, the peers of [nexts]
    in order and the table of [KEYMAPS], and closes every backend it had. *)
Theorem LoadConfig_all_or_nothing (n : Node) :
  (forall name cfg, Config.BACKENDS (cfgsrc n) !! name = Some cfg ->
     exists spool, NewFileBackend name (storedir n) = inl spool) ->
  exists loaded started,
    (forall name,
       loaded !! name
       = built (storedir n) name <$> (Config.with_defaults <$> Config.BACKENDS (cfgsrc n) !! name))
    /\ started ≡ₚ map (fun entry => WorkerStarted entry.1)
                    (map_to_list (Config.BACKENDS (cfgsrc n)))
    /\ (names_unknown n loaded ->
        LoadConfig n = (n, Some ErrBackendNotExist, started))
    /\ (~ names_unknown n loaded ->
        exists closed,
          LoadConfig n
          = (mkNode (mkInfluxCluster (Zone (ic n)) (ForbiddenQuery (ic n))
                       (ObligatedQuery (ic n))
                       (if String.eqb (nexts n) "" then []
                        else resolved loaded (strings_Split (nexts n) ","))
                       (resolved_table loaded (Config.KEYMAPS (cfgsrc n))))
               loaded (nexts n) (cfgsrc n) (storedir n),
             None, started ++ closed)
          /\ closed ≡ₚ map (fun entry => Closed entry.1) (map_to_list (backends n))).
Proof.
  intros Hspools.
  set (bkcfgs := (Config.LoadBackends range (cfgsrc n)).1).
  assert (Hcfg : forall name,
            bkcfgs !! name = Config.with_defaults <$> Config.BACKENDS (cfgsrc n) !! name).
  { intros name. unfold bkcfgs, Config.LoadBackends. cbn [fst].
    apply (Config.visit_insert_lookup range range_visits (fun _ => Config.with_defaults)). }
  assert (Hopen : forall name cfg, In (name, cfg) (range _ bkcfgs) ->
            exists spool, NewFileBackend name (storedir n) = inl spool).
  { intros name cfg Hin. apply list_elem_of_In in Hin.
    rewrite (range_visits _ bkcfgs) in Hin. apply elem_of_map_to_list in Hin.
    rewrite Hcfg in Hin. destruct (Config.BACKENDS (cfgsrc n) !! name) as [val|] eqn:Hval;
      [|discriminate]. apply (Hspools name val Hval). }
  set (loaded := foldl (fun m '(name, cfg) => <[name := built (storedir n) name cfg]> m)
                   (∅ : gmap string Backend.Backends) (range _ bkcfgs)).
  set (started := map (fun entry : string * Config.BackendConfig => WorkerStarted entry.1)
                    (range _ bkcfgs)).
  assert (Hnew : loadBackends_new (storedir n) (range _ bkcfgs) ∅ []
                 = (loaded, None, started)).
  { rewrite (loadBackends_new_ok _ _ ∅ [] Hopen). reflexivity. }
  assert (Hloaded : forall name,
            loaded !! name = built (storedir n) name <$> bkcfgs !! name).
  { intros name. unfold loaded.
    apply (Config.visit_insert_lookup range range_visits (built (storedir n))). }
  assert (Hstarted : started ≡ₚ map (fun entry => WorkerStarted entry.1)
                                 (map_to_list (Config.BACKENDS (cfgsrc n)))).
  { unfold started.
    transitivity (map WorkerStarted (range _ bkcfgs).*1);
      [rewrite <- list_fmap_compose; reflexivity|].
    transitivity (map WorkerStarted (map_to_list (Config.BACKENDS (cfgsrc n))).*1);
      [|rewrite <- list_fmap_compose; reflexivity].
    apply Permutation_map. rewrite (range_visits _ bkcfgs).
    apply NoDup_Permutation.
    - apply NoDup_fst_map_to_list.
    - apply NoDup_fst_map_to_list.
    - intros name. rewrite !list_elem_of_fmap. split.
      + intros ([k cfg] & -> & Hin). apply elem_of_map_to_list in Hin.
        rewrite Hcfg in Hin. cbn [fst].
        destruct (Config.BACKENDS (cfgsrc n) !! k) as [val|] eqn:Hval; [|discriminate].
        exists (k, val). split; [reflexivity|]. apply elem_of_map_to_list. exact Hval.
      + intros ([k val] & -> & Hin). apply elem_of_map_to_list in Hin. cbn [fst].
        exists (k, Config.with_defaults val). split; [reflexivity|].
        apply elem_of_map_to_list. rewrite Hcfg, Hin. reflexivity. }
  exists loaded, started.
  split; [intros name; rewrite Hloaded, Hcfg; reflexivity|].
  split; [exact Hstarted|].
  assert (Hload : loadBackends n
                  = if negb (String.eqb (nexts n) "") then
                      (loaded, resolved loaded (strings_Split (nexts n) ","),
                       if unknown_in loaded (strings_Split (nexts n) ",")
                       then Some ErrBackendNotExist else None, started)
                    else (loaded, [], None, started)).
  { unfold loadBackends. change (Config.LoadBackends range (cfgsrc n)) with (bkcfgs, @None error).
    cbn iota beta. rewrite Hnew.
    destruct (negb (String.eqb (nexts n) "")); [|reflexivity].
    rewrite known_backends_spec. unfold unknown_in, resolved. cbn [app].
    destruct (forallb _ (strings_Split (nexts n) ",")); reflexivity. }
  destruct (loadMeasurements_spec range range_visits loaded (cfgsrc n))
    as (Htable & Hdangling & Hclean).
  split.
  - intros Hunknown. unfold LoadConfig. rewrite Hload.
    destruct Hunknown as [[Hnexts Hd] | Hd].
    + apply String.eqb_neq in Hnexts. rewrite Hnexts. cbn [negb].
      apply unknown_in_dangling in Hd. rewrite Hd. reflexivity.
    + destruct (negb (String.eqb (nexts n) "")).
      * destruct (unknown_in loaded (strings_Split (nexts n) ",")); [reflexivity|].
        destruct (loadMeasurements range loaded (cfgsrc n)) as [m2bs' err'].
        cbn [snd] in Hdangling. rewrite (Hdangling Hd). reflexivity.
      * destruct (loadMeasurements range loaded (cfgsrc n)) as [m2bs' err'].
        cbn [snd] in Hdangling. rewrite (Hdangling Hd). reflexivity.
  - intros Hknown.
    exists (map (fun entry : string * Backend.Backends => Closed entry.1)
              (range _ (backends n))).
    split; [|apply Permutation_map, range_visits].
    unfold LoadConfig. rewrite Hload.
    assert (Hclean' : (loadMeasurements range loaded (cfgsrc n)).2 = None).
    { apply Hclean. intros Hd. apply Hknown. right. exact Hd. }
    destruct (String.eqb (nexts n) "") eqn:Hnexts; cbn [negb].
    + destruct (loadMeasurements range loaded (cfgsrc n)) as [m2bs' err'].
      cbn [fst snd] in *. subst. reflexivity.
    + destruct (unknown_in loaded (strings_Split (nexts n) ",")) eqn:Hun.
      * exfalso. apply Hknown. left. apply String.eqb_neq in Hnexts.
        split; [exact Hnexts|]. apply unknown_in_dangling. exact Hun.
      * destruct (loadMeasurements range loaded (cfgsrc n)) as [m2bs' err'].
        cbn [fst snd] in *. subst. reflexivity.
Qed.

End Cluster.

End Reload.

(** ** Examples

    The theorems of the modules above at the scenarios. *)

Module Examples.

Import Cluster Scenarios.

(** A backend that was closed: its [Write] returns [io.ErrClosedPipe]. *)
Definition closed : Backend.Backends := backend "a" "local" true false false.

(** A table in which two keys, ["cpu"] and ["cpu_"], are prefixes of the
    measurement ["cpu_load"]. *)
Definition overlapping : gmap string (gmap string (list Backend.Backends)) :=
  {[ "a"%string := <[ "cpu"%string := [B1] ]> {[ "cpu_"%string := [B2] ]} ]}.

(** The table that sends the measurement ["cpu"] of the database ["a"] to
    the backends [bs]. *)
Definition exact_route_of (bs : list Backend.Backends)
  : gmap string (gmap string (list Backend.Backends)) :=
  {[ "a"%string := {[ "cpu"%string := bs ]} ]}.

(** A visit of every map in the order of [map_to_list]. *)
Definition visit : forall V : Type, gmap string V -> list (string * V) :=
  fun V => map_to_list.

Lemma visit_visits : Config.visits visit.
Proof. intros V m. reflexivity. Qed.

Lemma ScanKey_escape_key_witness :
  ScanKey (Keys.escape_key (bytes_of "cpu load,5m") ++ " "%char :: bytes_of "v=1")
  = Ret (string_of (bytes_of "cpu load,5m")).
Proof.
  apply (Keys.ScanKey_escape_key (bytes_of "cpu load,5m") (bytes_of "v=1") " "%char).
  left. reflexivity.
Defined.

Lemma ScanKey_no_separator_witness : ScanKey (bytes_of "cpu") = Fail io_EOF.
Proof.
  apply (proj2 (Keys.ScanKey_no_separator (bytes_of "cpu")
                  ltac:(repeat constructor; discriminate)));
    repeat constructor; discriminate.
Defined.

Lemma GetBackends_sound_witness :
  exists keyMap k,
    m2bs (cluster prefix_route []) !! "a"%string = Some keyMap
    /\ keyMap !! k = Some [B1]
    /\ (k = "cpu_load"%string \/ strings_HasPrefix "cpu_load" k = true
        \/ k = "_default_"%string).
Proof.
  apply (proj1 (Routes.GetBackends_sound map_to_list (cluster prefix_route [])
                  "cpu_load" "a" [B1] true (fun keyMap => Permutation_refl _)
                  ltac:(vm_compute; reflexivity))).
  reflexivity.
Defined.

Lemma GetBackends_unique_prefix_witness :
  GetBackends map_to_list (cluster prefix_route []) "cpu_load" "a"
  = GetBackends (Routes.first_key "_default_") (cluster prefix_route []) "cpu_load" "a".
Proof.
  apply (Routes.GetBackends_unique_prefix map_to_list (Routes.first_key "_default_")
           (cluster prefix_route []) "cpu_load" "a"
           (fun keyMap => Permutation_refl _) (Routes.first_key_iteration "_default_")).
  intros keyMap k1 k2 Hdb [v1 H1] [v2 H2] Hp1 Hp2.
  unfold cluster, prefix_route in Hdb. cbn [m2bs] in Hdb.
  rewrite lookup_singleton_eq in Hdb. inversion Hdb; subst keyMap.
  apply lookup_insert_Some in H1 as [[<- _] | [_ H1]];
    [|apply lookup_singleton_Some in H1 as [<- _]; discriminate Hp1].
  apply lookup_insert_Some in H2 as [[<- _] | [_ H2]];
    [reflexivity|apply lookup_singleton_Some in H2 as [<- _]; discriminate Hp2].
Defined.

Lemma GetBackends_any_prefix_wins_witness :
  exists range,
    Routes.iteration range
    /\ GetBackends range (cluster overlapping []) "cpu_load" "a" = ([B2], true).
Proof.
  apply (Routes.GetBackends_any_prefix_wins (cluster overlapping []) "cpu_load" "a"
           (<[ "cpu"%string := [B1] ]> {[ "cpu_"%string := [B2] ]}) "cpu_" [B2]);
    vm_compute; reflexivity.
Defined.

Lemma WriteRow_stops_at_refusal_witness :
  exists w',
    WriteRow map_to_list (fun _ => 0) (cluster (exact_route_of [B1; closed; B2]) [])
      (bytes_of "cpu v=1 5") "ns" "a" idle = Ret w'
    /\ calls w'
       = calls idle
         ++ map (sent (WritePath.handed (fun _ => 0) (bytes_of "cpu v=1 5") "ns" idle))
              ([B1] ++ [closed])
    /\ PointsWrittenFail (stats w') = add64 (PointsWrittenFail (stats idle)) 1.
Proof.
  apply (WritePath.WriteRow_stops_at_refusal map_to_list (fun _ => 0)
           (cluster (exact_route_of [B1; closed; B2]) []) (bytes_of "cpu v=1 5") "ns" "a"
           idle "cpu" [B1] closed [B2]).
  - vm_compute. discriminate.
  - reflexivity.
  - vm_compute. reflexivity.
  - intros x [<- | []]. reflexivity.
  - vm_compute. discriminate.
Defined.

Lemma WriteRow_delivered_or_counted_witness :
  (exists key bs,
     ScanKey (bytes_TrimRight (bytes_of "cpu v=1 5") blanks) = Ret key
     /\ GetBackends map_to_list (cluster (exact_route_of [B1; closed; B2]) []) key "a"
        = (bs, true)
     /\ calls (mkWorld (mkStatistics 0 0 0 0 1 1)
                 [BackendWrite B1 (bytes_of "cpu v=1 5") None;
                  BackendWrite closed (bytes_of "cpu v=1 5") (Some io_ErrClosedPipe)] 0)
        = calls idle
          ++ map (sent (WritePath.handed (fun _ => 0) (bytes_of "cpu v=1 5") "ns" idle)) bs
     /\ (forall b, In b bs ->
           API.Write b (WritePath.handed (fun _ => 0) (bytes_of "cpu v=1 5") "ns" idle)
           = None)
     /\ PointsWrittenFail (mkStatistics 0 0 0 0 1 1) = PointsWrittenFail (stats idle))
  \/ PointsWrittenFail (mkStatistics 0 0 0 0 1 1)
     = add64 (PointsWrittenFail (stats idle)) 1.
Proof.
  apply (WritePath.WriteRow_delivered_or_counted map_to_list (fun _ => 0)
           (cluster (exact_route_of [B1; closed; B2]) []) (bytes_of "cpu v=1 5") "ns" "a"
           idle
           (mkWorld (mkStatistics 0 0 0 0 1 1)
              [BackendWrite B1 (bytes_of "cpu v=1 5") None;
               BackendWrite closed (bytes_of "cpu v=1 5") (Some io_ErrClosedPipe)] 0)).
  - vm_compute. reflexivity.
  - vm_compute. discriminate.
Defined.

Lemma WriteRow_blank_line_witness :
  WriteRow map_to_list (fun _ => 0) (cluster (exact_route B1) [])
    [" "%char; "009"%char; "013"%char; "010"%char] "ns" "a" idle
  = Ret (count add_PointsWritten idle).
Proof.
  apply (WritePath.WriteRow_blank_line map_to_list (fun _ => 0)
           (cluster (exact_route B1) [])
           [" "%char; "009"%char; "013"%char; "010"%char] "ns" "a" idle).
  repeat constructor.
Defined.

Lemma WriteRow_other_field_counts_witness :
  WriteRow map_to_list (fun _ => 0) (cluster (exact_route B1) [])
    (bytes_of "cpu,host=a\ b v=1 5") "ns" "a" idle
  = Ret (WriteRow_send [B1] (bytes_of "0") (count add_PointsWritten idle)).
Proof.
  apply (WritePath.WriteRow_other_field_counts map_to_list (fun _ => 0)
           (cluster (exact_route B1) []) (bytes_of "cpu,host=a\ b v=1 5") "ns" "a" idle
           "cpu" [B1]).
  - reflexivity.
  - vm_compute. reflexivity.
  - vm_compute. discriminate.
  - vm_compute. discriminate.
Defined.

Lemma Write_reports_last_peer_witness :
  (None : option error)
  = match last (bas (cluster (exact_route B1) [closed; peer])) with
    | Some n => API.Write n (bytes_of "cpu v=1 5")
    | None => None
    end.
Proof.
  apply (WritePath.Write_reports_last_peer map_to_list (fun _ => 0)
           (cluster (exact_route B1) [closed; peer]) (bytes_of "cpu v=1 5") "ns" "a"
           idle
           (mkWorld (mkStatistics 0 0 1 1 1 0)
              [BackendWrite B1 (bytes_of "cpu v=1 5") None;
               BackendWrite closed (bytes_of "cpu v=1 5") (Some io_ErrClosedPipe);
               BackendWrite peer (bytes_of "cpu v=1 5") None] 0)).
  vm_compute. reflexivity.
Defined.

(** An upstream that fails every metadata query, and one that answers. *)
Definition failing (b : Backend.Backends) : string * bytes + error := inr ErrUnknown.
Definition answering (b : Backend.Backends) : string * bytes + error :=
  inl ("application/json"%string, bytes_of "{}").

Lemma QueryAll_asks_readable_witness :
  Forall (fun b => QueryPath.readable (cluster (exact_route_of [replica; B1; B2]) []) b = true
                   /\ exists keyMap k v,
                        m2bs (cluster (exact_route_of [replica; B1; B2]) []) !! "a"%string
                        = Some keyMap
                        /\ keyMap !! k = Some v /\ In b v)
    (QueryPath.QueryAll answering map_to_list
       (cluster (exact_route_of [replica; B1; B2]) []) "a").1.
Proof.
  apply (QueryPath.QueryAll_asks_readable answering map_to_list
           (fun keyMap => Permutation_refl _)
           (cluster (exact_route_of [replica; B1; B2]) []) "a").
Defined.

Lemma QueryAll_outcome_witness :
  exists e,
    (QueryPath.QueryAll failing map_to_list (cluster (exact_route B1) []) "a").2
    = (None, None, Some e).
Proof.
  apply (proj1 (QueryPath.QueryAll_outcome failing map_to_list
                  (fun keyMap => Permutation_refl _) (cluster (exact_route B1) []) "a")).
  exists {[ "cpu"%string := [B1] ]}, "cpu"%string, [B1].
  split; [vm_compute; reflexivity|]. split; [vm_compute; reflexivity|].
  split; reflexivity.
Defined.

(** A configuration file with one backend, all of whose tunables are left
    out, a table that names it and a backend that does not exist, and a node
    whose next-hop peer does not exist either. *)
Definition bare : Config.BackendConfig :=
  Config.mkBackendConfig "http://localhost:8086" "a" None "local" 0 0 0 0 0 0 0.

Definition file : Config.FileConfigSource :=
  Config.mkFileConfigSource "node1" {[ "b1"%string := bare ]}
    {[ "a"%string := {[ "cpu"%string := ["b1"%string; "ghost"%string] ]} ]}
    ∅ Config.zero_NodeConfig.


Lemma worker_conserves_witness :
  exists bs' acts,
    Pipeline.worker
      ([Pipeline.Received (bytes_of "cpu v=1 1"); Pipeline.Ticked;
        Pipeline.Received (bytes_of "mem v=2 2"); Pipeline.TimerFired;
        Pipeline.Received (bytes_of "cpu v=3 3")] ++ [Pipeline.ChannelClosed]) B1
    = Ret (bs', acts ++ Pipeline.shutdown)
    /\ Pipeline.flushed acts
       = default [] (Backend.buffer B1)
         ++ concat (map Pipeline.terminated
                      (Pipeline.received
                         [Pipeline.Received (bytes_of "cpu v=1 1"); Pipeline.Ticked;
                          Pipeline.Received (bytes_of "mem v=2 2"); Pipeline.TimerFired;
                          Pipeline.Received (bytes_of "cpu v=3 3")]))
    /\ Pipeline.flushes Pipeline.shutdown = []
    /\ default [] (Backend.buffer bs') = [].
Proof.
  apply (Pipeline.worker_conserves
           [Pipeline.Received (bytes_of "cpu v=1 1"); Pipeline.Ticked;
            Pipeline.Received (bytes_of "mem v=2 2"); Pipeline.TimerFired;
            Pipeline.Received (bytes_of "cpu v=3 3")] B1).
  - repeat (constructor; [cbn; first [exact I | discriminate]|]). constructor.
  - reflexivity.
Defined.

(** An upstream that is healthy and acknowledges every write. *)
Definition healthy : Backend.Env := Backend.mkEnv true (fun _ => None) None None None.

Lemma RewriteLoop_drains_witness :
  let '(bs', trace) := Backend.RewriteLoop (replicate 2 healthy) spooled in
  trace = concat (map (Pipeline.delivery healthy)
                    (drop (Backend.meta (Backend.fb spooled))
                       (Backend.records (Backend.fb spooled))))
  /\ Backend.fb_IsData (Backend.fb bs') = false
  /\ Backend.records (Backend.fb bs') = Backend.records (Backend.fb spooled)
  /\ Backend.rewriter_running bs' = false.
Proof.
  apply (Pipeline.RewriteLoop_drains healthy spooled 2).
  - split; [reflexivity | split; [intros p; reflexivity | split; reflexivity]].
  - reflexivity.
  - reflexivity.
  - cbn. lia.
  - cbn. lia.
Defined.

Lemma loadMeasurements_table_witness :
  (Reload.loadMeasurements visit ({[ "b1"%string := B1 ]} : gmap string Backend.Backends)
     file).2
  = Some ErrBackendNotExist.
Proof.
  apply (proj1 (proj2 (Reload.loadMeasurements_table visit visit_visits
                         ({[ "b1"%string := B1 ]} : gmap string Backend.Backends) file))).
  exists "a"%string, {[ "cpu"%string := ["b1"%string; "ghost"%string] ]}, "cpu"%string,
    ["b1"%string; "ghost"%string].
  split; [vm_compute; reflexivity|]. split; [vm_compute; reflexivity|].
  exists "ghost"%string. split; [right; left; reflexivity | vm_compute; reflexivity].
Defined.

(** A node that is told to reload [file]: the table of the file names the
    backend ["ghost"], which the file does not define. *)
Definition node : @Reload.Node string :=
  Reload.mkNode (cluster (exact_route B1) []) {[ "old"%string := B1 ]} "" file "/data".

Definition client (cfg : Config.BackendConfig) : Backend.HttpBackend :=
  Backend.mkHttpBackend (Config.DB cfg) (Config.Zone cfg) true
    (negb (Config.WriteOnly cfg =? 0)) None.

Definition spool_of (name storedir : string) : Backend.FileBackend + error :=
  inl (Backend.mkFileBackend [] 0 0).

Lemma LoadConfig_all_or_nothing_witness :
  exists started,
    Reload.LoadConfig visit client spool_of node = (node, Some ErrBackendNotExist, started).
Proof.
  destruct (Reload.LoadConfig_all_or_nothing visit visit_visits client spool_of node
              ltac:(intros name cfg _; eexists; reflexivity))
    as (loaded & started & Hloaded & _ & Hunknown & _).
  exists started. apply Hunknown. right.
  exists "a"%string, {[ "cpu"%string := ["b1"%string; "ghost"%string] ]}, "cpu"%string,
    ["b1"%string; "ghost"%string].
  split; [vm_compute; reflexivity|]. split; [vm_compute; reflexivity|].
  exists "ghost"%string. split; [right; left; reflexivity|].
  rewrite Hloaded. vm_compute. reflexivity.
Defined.

End Examples.
